(** * Backtest execution client: a shallow embedding and its properties

    This development embeds [BacktestExecClient] (the simulated order
    execution engine used for historical back-testing) as a state-and-
    exception monad over an explicit engine state, and proves properties of
    the matching loop, the command handlers, the order linkage maps and the
    account bookkeeping.

    Conventions.
    - Python dictionaries that the engine iterates are insertion-ordered
      association lists ([odict]); those it only looks up (the instruments,
      the slippages and minimum distances, [_oco_orders]) are [gmap]s.
    - Python exceptions are the [Raise] outcome; the state reached when the
      exception left the engine is kept, as it is for the Python object.
      A function compiled to return a C value with no except clause does not
      let an exception out: it returns 0 ([unraisable]).
    - The collaborators of the engine (execution engine and database, fill
      model, calculators, calendar, number formatting) are type classes. *)

From Stdlib Require Import ZArith List Bool Lia Floats.
From stdpp Require Import base option list gmap strings pretty.

#[local] Open Scope Z_scope.
#[local] Unset Default Proof Using.

(** ** Insertion-ordered dictionaries *)

Section odict.
Context {K V : Type} `{EqDecision K}.

Definition odict : Type := list (K * V).

Definition od_empty : odict := [].

Fixpoint od_get (k : K) (d : odict) : option V :=
  match d with
  | [] => None
  | (k', v) :: r => if decide (k = k') then Some v else od_get k r
  end.

Definition od_mem (k : K) (d : odict) : bool :=
  match od_get k d with Some _ => true | None => false end.

(** [d[k] = v]: an existing key keeps its position, a new key goes last. *)
Fixpoint od_set (k : K) (v : V) (d : odict) : odict :=
  match d with
  | [] => [(k, v)]
  | (k', v') :: r =>
      if decide (k = k') then (k, v) :: r else (k', v') :: od_set k v r
  end.

(** [del d[k]] on a present key (the caller raises [KeyError] otherwise). *)
Fixpoint od_del (k : K) (d : odict) : odict :=
  match d with
  | [] => []
  | (k', v') :: r =>
      if decide (k = k') then od_del k r else (k', v') :: od_del k r
  end.

Definition od_keys (d : odict) : list K := map fst d.
Definition od_values (d : odict) : list V := map snd d.
Definition od_items (d : odict) : list (K * V) := d.

End odict.

Arguments odict : clear implicits.

(** ** Data model *)

Definition OrderId := string.
Definition Symbol := string.
Definition AccountId := string.
Definition Currency := string.
Definition Label := string.
Definition Guid := nat.

(** Modelled from the spec: [datetime] values are points on a time line,
    compared with [>=]; calendar fields are read through [Calendar]. *)
Definition datetime := Z.

(** Modelled from the spec: [Price] and [Decimal] are fixed-point numbers at
    the instrument's precision, held as their integer mantissa; [add],
    [subtract], [lt], [gt], [le], [ge] and [eq] preserve the precision. *)
Definition Decimal := Z.
Definition Price := Z.

(** Modelled from the spec: [Money] is fixed-point in the account currency
    (integer minor units) with exact [add] and [subtract]. *)
Definition Money := Z.

(** Modelled from the spec: [Quantity] is a whole number of units. *)
Definition Quantity := Z.

Inductive OrderSide := BUY | SELL.
Inductive OrderType := MARKET | LIMIT | STOP | STOP_LIMIT | MIT.
Inductive OrderState :=
  INITIALIZED | SUBMITTED | ACCEPTED | WORKING | FILLED | CANCELLED
| REJECTED | EXPIRED.
Inductive MarketPosition := FLAT | LONG | SHORT.
Inductive SecurityType := FOREX | OTHER_SECURITY.
Inductive PriceType := BID | ASK | MID.
Inductive TimeInForce := DAY | GTC | IOC | FOC | GTD.

#[global] Instance OrderSide_eq_dec : EqDecision OrderSide.
Proof. solve_decision. Defined.
#[global] Instance OrderType_eq_dec : EqDecision OrderType.
Proof. solve_decision. Defined.
#[global] Instance OrderState_eq_dec : EqDecision OrderState.
Proof. solve_decision. Defined.
#[global] Instance SecurityType_eq_dec : EqDecision SecurityType.
Proof. solve_decision. Defined.

(** [STOP_ORDER_TYPES = {STOP, STOP_LIMIT, MIT}] *)
Definition STOP_ORDER_TYPES : list OrderType := [STOP; STOP_LIMIT; MIT].

Definition in_STOP_ORDER_TYPES (t : OrderType) : bool :=
  bool_decide (t ∈ STOP_ORDER_TYPES).

Module Instrument.
Record t := mk {
  symbol : Symbol;
  quote_currency : Currency;
  security_type : SecurityType;
  tick_size : Decimal;
  price_precision : Z;
  min_stop_distance : Z;
  min_limit_distance : Z;
  min_trade_size : Quantity;
  max_trade_size : Quantity }.
End Instrument.

Module Tick.
Record t := mk {
  symbol : Symbol;
  bid : Price;
  ask : Price;
  timestamp : datetime }.
End Tick.

(** Modelled from the spec: the fields of an order are those it is created
    with; what its life cycle changes (its state, its broker identifier) is
    kept by the execution engine, which applies the events. *)
Module Order.
Record t := mk {
  id : OrderId;
  symbol : Symbol;
  side : OrderSide;
  type : OrderType;
  quantity : Quantity;
  price : option Price;
  time_in_force : TimeInForce;
  expire_time : option datetime;
  label : Label }.

(** Modelled from the spec: [Order.equals] compares the order identifiers. *)
Definition equals (a b : t) : bool := bool_decide (id a = id b).
End Order.

Module Position.
Record t := mk {
  id : string;
  symbol : Symbol;
  market_position : MarketPosition;
  quantity : Quantity;
  average_open_price : float;
  entry_direction : OrderSide }.
End Position.

Module Account.
Record t := mk {
  id : AccountId;
  currency : Currency;
  cash_balance : Money;
  margin_used_liquidation : Money;
  margin_used_maintenance : Money;
  margin_ratio : Decimal;
  margin_call_status : string }.
End Account.

(** *** Commands *)

Module AtomicOrder.
Record t := mk {
  entry : Order.t;
  stop_loss : Order.t;
  take_profit : option Order.t }.
Definition has_take_profit (a : t) : bool :=
  match take_profit a with Some _ => true | None => false end.
End AtomicOrder.

Module AccountInquiry.
Record t := mk { account_id : AccountId }.
End AccountInquiry.

Module SubmitOrder.
Record t := mk {
  trader_id : string;
  account_id : AccountId;
  strategy_id : string;
  position_id : string;
  order : Order.t;
  command_id : Guid;
  command_timestamp : datetime }.
End SubmitOrder.

Module SubmitAtomicOrder.
Record t := mk {
  trader_id : string;
  account_id : AccountId;
  strategy_id : string;
  position_id : string;
  atomic_order : AtomicOrder.t }.
End SubmitAtomicOrder.

Module ModifyOrder.
Record t := mk {
  account_id : AccountId;
  order_id : OrderId;
  modified_quantity : Quantity;
  modified_price : Price }.
End ModifyOrder.

Module CancelOrder.
Record t := mk {
  account_id : AccountId;
  order_id : OrderId }.
End CancelOrder.

(** *** Events *)

Module OrderFillEvent.
Record t := mk {
  account_id : AccountId;
  order_id : OrderId;
  execution_id : string;
  position_id_broker : string;
  symbol : Symbol;
  order_side : OrderSide;
  filled_quantity : Quantity;
  average_price : Price;
  quote_currency : Currency;
  execution_time : datetime;
  event_id : Guid;
  event_timestamp : datetime }.
End OrderFillEvent.

Module AccountState.
Record t := mk {
  account_id : AccountId;
  currency : Currency;
  cash_balance : Money;
  cash_start_day : Money;
  cash_activity_day : Money;
  margin_used_liquidation : Money;
  margin_used_maintenance : Money;
  margin_ratio : Decimal;
  margin_call_status : string;
  event_id : Guid;
  event_timestamp : datetime }.
End AccountState.

(** The constructors take the arguments in the order the source passes them;
    every event ends with its generated id and its timestamp. *)
Inductive Event :=
| AccountStateEvent (a : AccountState.t)
| OrderSubmitted (account_id : AccountId) (order_id : OrderId)
    (submitted_time : datetime) (event_id : Guid) (event_timestamp : datetime)
| OrderAccepted (account_id : AccountId) (order_id : OrderId)
    (order_id_broker : string) (label : Label) (accepted_time : datetime)
    (event_id : Guid) (event_timestamp : datetime)
| OrderRejected (account_id : AccountId) (order_id : OrderId)
    (rejected_time : datetime) (reason : string)
    (event_id : Guid) (event_timestamp : datetime)
| OrderWorking (account_id : AccountId) (order_id : OrderId)
    (order_id_broker : string) (symbol : Symbol) (label : Label)
    (side : OrderSide) (type : OrderType) (quantity : Quantity)
    (price : option Price) (time_in_force : TimeInForce)
    (working_time : datetime) (event_id : Guid) (event_timestamp : datetime)
    (expire_time : option datetime)
| OrderExpired (account_id : AccountId) (order_id : OrderId)
    (expired_time : option datetime) (event_id : Guid)
    (event_timestamp : datetime)
| OrderModified (account_id : AccountId) (order_id : OrderId)
    (order_id_broker : option string) (modified_quantity : Quantity)
    (modified_price : Price) (modified_time : datetime)
    (event_id : Guid) (event_timestamp : datetime)
| OrderCancelled (account_id : AccountId) (order_id : OrderId)
    (cancelled_time : datetime) (event_id : Guid) (event_timestamp : datetime)
| OrderCancelReject (account_id : AccountId) (order_id : OrderId)
    (rejected_time : datetime) (response : string) (reason : string)
    (event_id : Guid) (event_timestamp : datetime)
| OrderFilled (f : OrderFillEvent.t).

(** ** Collaborator interfaces *)

(** The fill model draws from its own random state. *)
Class FillModelOps (FM : Type) := {
  is_slipped : FM -> bool * FM;
  is_stop_filled : FM -> bool * FM;
  is_limit_filled : FM -> bool * FM }.

(** The execution engine with its database: the sink of the emitted events
    and the owner of the orders' life-cycle state, the positions and the
    account. *)
Class ExecEngineOps (W : Type) := {
  handle_event : Event -> W -> W;
  get_order : W -> OrderId -> option Order.t;
  get_position_for_order : W -> OrderId -> option Position.t;
  get_positions_open : W -> list Position.t;
  order_state : W -> Order.t -> OrderState;
  order_id_broker : W -> Order.t -> option string;
  account : W -> Account.t }.

(** Rate maps handed to the exchange rate calculator. *)
Definition rates := odict string float.

Class Calculators := {
  get_rate : Currency -> Currency -> PriceType -> rates -> rates -> float;
  commission_calculate :
    Symbol -> Quantity -> Price -> float -> Currency -> Money;
  calc_overnight_rate : Symbol -> datetime -> float }.

Class Calendar := {
  day_of : datetime -> Z;
  (** 17:00 US/Eastern of the day of the argument, in UTC, minus 56 minutes *)
  rollover_time_of : datetime -> datetime;
  isoweekday : datetime -> Z }.

(** Conversions of the value types and their [str()] renderings. *)
Class Numerics := {
  Price_as_double : Price -> float;
  Quantity_as_double : Quantity -> float;
  Money_of_double : float -> Currency -> Money;
  str_Quantity : Quantity -> string;
  str_Price : option Price -> string;
  str_Symbol : Symbol -> string;
  str_OrderId : OrderId -> string;
  str_MarketPosition : MarketPosition -> string }.

(** [is_completed]: Modelled from the spec: an order is terminal in the
    states FILLED, CANCELLED, REJECTED and EXPIRED. *)
Definition terminal_state (st : OrderState) : bool :=
  match st with
  | FILLED | CANCELLED | REJECTED | EXPIRED => true
  | _ => false
  end.

(** ** Exceptions and outcomes *)

Inductive exn :=
| KeyError | IndexError | ValueError | TypeError | AttributeError
| RecursionError.

Inductive outcome (A : Type) :=
| Ok (a : A)
| Raise (e : exn).
Arguments Ok {A} a.
Arguments Raise {A} e.

(** Specification-only history of the amounts booked to the account. *)
Inductive LedgerEntry :=
| ClosingFill (pnl commission : Money)
| Rollover (amount : Money).

(** A value passed where Cython type-tests the argument at run time. *)
Inductive PyObject :=
| PyOrderId (order_id : OrderId)
| PyOrder (order : Order.t).

(** The part of the engine fixed by [__init__]. *)
Record Static := mkStatic {
  instruments : gmap Symbol Instrument.t;
  frozen_account : bool;
  starting_capital : Money;
  account_currency : Currency;
  exec_db : bool;                    (* [self.exec_db is not None] *)
  rollover_spread : float;
  _slippages : gmap Symbol Decimal;
  _min_stops : gmap Symbol Decimal;
  _min_limits : gmap Symbol Decimal }.

Module BacktestConfig.
Record t := mk {
  frozen_account : bool;
  starting_capital : Money;
  account_currency : Currency;
  commission_rate_bp : float;
  short_term_interest_csv_path : string }.
End BacktestConfig.

(** ** The state-and-exception monad *)

Definition M (S A : Type) : Type := S -> outcome A * S.

Definition ret {S A} (a : A) : M S A := fun s => (Ok a, s).

Definition raise {S A} (e : exn) : M S A := fun s => (Raise e, s).

Definition bind {S A B} (m : M S A) (f : A -> M S B) : M S B :=
  fun s =>
    match m s with
    | (Ok a, s') => f a s'
    | (Raise e, s') => (Raise e, s')
    end.

Definition gets {S A} (f : S -> A) : M S A := fun s => (Ok (f s), s).

Definition modify {S} (f : S -> S) : M S unit := fun s => (Ok tt, f s).

Notation "x <- m ;; k" := (bind m (fun x => k))
  (at level 100, m at next level, right associativity).
Notation "' pat <- m ;; k" := (bind m (fun x => match x with pat => k end))
  (at level 20, pat pattern, m at level 99, k at level 200, only parsing).
Notation "m ;; k" := (bind m (fun _ => k))
  (at level 100, right associativity).

(** [for x in l: body(x)] *)
Fixpoint for_each {S A} (l : list A) (body : A -> M S unit) : M S unit :=
  match l with
  | [] => ret tt
  | x :: r => body x ;; for_each r body
  end.

(** A loop that threads its local variables. *)
Fixpoint fold_each {S A B} (l : list A) (body : B -> A -> M S B) (b : B)
  : M S B :=
  match l with
  | [] => ret b
  | x :: r => b' <- body b x ;; fold_each r body b'
  end.

(** [d[k]] *)
Definition getitem {S A} (o : option A) : M S A :=
  match o with
  | Some a => ret a
  | None => raise KeyError
  end.

(** Attribute access on a value that may be [None]. *)
Definition not_none {S A} (o : option A) : M S A :=
  match o with
  | Some a => ret a
  | None => raise AttributeError
  end.

(** A C function declared without an except clause ([cdef bint f(...)]): an
    exception raised under it does not reach the caller; it is reported as
    unraisable and the function returns 0, with the effects made so far. *)
Definition unraisable {S} (m : M S bool) : M S bool :=
  fun s =>
    match m s with
    | (Ok b, s') => (Ok b, s')
    | (Raise _, s') => (Ok false, s')
    end.

(** ** Assertions about runs *)

(** [hoare P m Q E]: from a state satisfying [P], [m] either returns [a] in
    a state satisfying [Q a] or raises in a state satisfying [E]. *)
Definition hoare {S A} (P : S -> Prop) (m : M S A) (Q : A -> S -> Prop)
    (E : S -> Prop) : Prop :=
  forall s, P s ->
    match m s with
    | (Ok a, s') => Q a s'
    | (Raise _, s') => E s'
    end.

(** [I] holds after [m] whenever it held before, however [m] ends. *)
Definition preserves {S A} (I : S -> Prop) (m : M S A) : Prop :=
  hoare I m (fun _ => I) I.

Section Engine.
Context {W FM : Type}.
Context `{EXEC : !ExecEngineOps W, FILL : !FillModelOps FM}.
Context `{CALC : !Calculators, CAL : !Calendar, NUM : !Numerics}.

(** ** Engine state *)

Record State := mkState {
  static : Static;
  clock : datetime;  (* [self._clock] *)
  guid_count : nat;  (* [self._guid_factory] *)
  day_number : Z;
  rollover_time : option datetime;
  rollover_applied : bool;
  account_capital : Money;
  account_cash_start_day : Money;
  account_cash_activity_day : Money;
  total_commissions : Money;
  total_rollover : Money;
  fill_model : FM;
  _market : odict Symbol Tick.t;
  _working_orders : odict OrderId Order.t;
  _atomic_child_orders : odict OrderId (list Order.t);
  _oco_orders : gmap OrderId OrderId;
  world : W;  (* the execution engine and its database *)
  events : list Event;  (* log of [handle_event] calls, oldest first *)
  ledger : list LedgerEntry }.  (* specification-only, never read by the engine *)

(** Field updates. *)
Definition set_clock (v : datetime) (s : State) : State :=
  {| static := static s; clock := v; guid_count := guid_count s; day_number :=
     day_number s; rollover_time := rollover_time s; rollover_applied :=
     rollover_applied s; account_capital := account_capital s;
     account_cash_start_day := account_cash_start_day s;
     account_cash_activity_day := account_cash_activity_day s;
     total_commissions := total_commissions s; total_rollover :=
     total_rollover s; fill_model := fill_model s; _market := _market s;
     _working_orders := _working_orders s; _atomic_child_orders :=
     _atomic_child_orders s; _oco_orders := _oco_orders s; world := world s;
     events := events s; ledger := ledger s |}.

Definition set_guid_count (v : nat) (s : State) : State :=
  {| static := static s; clock := clock s; guid_count := v; day_number :=
     day_number s; rollover_time := rollover_time s; rollover_applied :=
     rollover_applied s; account_capital := account_capital s;
     account_cash_start_day := account_cash_start_day s;
     account_cash_activity_day := account_cash_activity_day s;
     total_commissions := total_commissions s; total_rollover :=
     total_rollover s; fill_model := fill_model s; _market := _market s;
     _working_orders := _working_orders s; _atomic_child_orders :=
     _atomic_child_orders s; _oco_orders := _oco_orders s; world := world s;
     events := events s; ledger := ledger s |}.

Definition set_day_number (v : Z) (s : State) : State :=
  {| static := static s; clock := clock s; guid_count := guid_count s;
     day_number := v; rollover_time := rollover_time s; rollover_applied :=
     rollover_applied s; account_capital := account_capital s;
     account_cash_start_day := account_cash_start_day s;
     account_cash_activity_day := account_cash_activity_day s;
     total_commissions := total_commissions s; total_rollover :=
     total_rollover s; fill_model := fill_model s; _market := _market s;
     _working_orders := _working_orders s; _atomic_child_orders :=
     _atomic_child_orders s; _oco_orders := _oco_orders s; world := world s;
     events := events s; ledger := ledger s |}.

Definition set_rollover_time (v : option datetime) (s : State) : State :=
  {| static := static s; clock := clock s; guid_count := guid_count s;
     day_number := day_number s; rollover_time := v; rollover_applied :=
     rollover_applied s; account_capital := account_capital s;
     account_cash_start_day := account_cash_start_day s;
     account_cash_activity_day := account_cash_activity_day s;
     total_commissions := total_commissions s; total_rollover :=
     total_rollover s; fill_model := fill_model s; _market := _market s;
     _working_orders := _working_orders s; _atomic_child_orders :=
     _atomic_child_orders s; _oco_orders := _oco_orders s; world := world s;
     events := events s; ledger := ledger s |}.

Definition set_rollover_applied (v : bool) (s : State) : State :=
  {| static := static s; clock := clock s; guid_count := guid_count s;
     day_number := day_number s; rollover_time := rollover_time s;
     rollover_applied := v; account_capital := account_capital s;
     account_cash_start_day := account_cash_start_day s;
     account_cash_activity_day := account_cash_activity_day s;
     total_commissions := total_commissions s; total_rollover :=
     total_rollover s; fill_model := fill_model s; _market := _market s;
     _working_orders := _working_orders s; _atomic_child_orders :=
     _atomic_child_orders s; _oco_orders := _oco_orders s; world := world s;
     events := events s; ledger := ledger s |}.

Definition set_account_capital (v : Money) (s : State) : State :=
  {| static := static s; clock := clock s; guid_count := guid_count s;
     day_number := day_number s; rollover_time := rollover_time s;
     rollover_applied := rollover_applied s; account_capital := v;
     account_cash_start_day := account_cash_start_day s;
     account_cash_activity_day := account_cash_activity_day s;
     total_commissions := total_commissions s; total_rollover :=
     total_rollover s; fill_model := fill_model s; _market := _market s;
     _working_orders := _working_orders s; _atomic_child_orders :=
     _atomic_child_orders s; _oco_orders := _oco_orders s; world := world s;
     events := events s; ledger := ledger s |}.

Definition set_account_cash_start_day (v : Money) (s : State) : State :=
  {| static := static s; clock := clock s; guid_count := guid_count s;
     day_number := day_number s; rollover_time := rollover_time s;
     rollover_applied := rollover_applied s; account_capital :=
     account_capital s; account_cash_start_day := v; account_cash_activity_day
     := account_cash_activity_day s; total_commissions := total_commissions s;
     total_rollover := total_rollover s; fill_model := fill_model s; _market
     := _market s; _working_orders := _working_orders s; _atomic_child_orders
     := _atomic_child_orders s; _oco_orders := _oco_orders s; world := world
     s; events := events s; ledger := ledger s |}.

Definition set_account_cash_activity_day (v : Money) (s : State) : State :=
  {| static := static s; clock := clock s; guid_count := guid_count s;
     day_number := day_number s; rollover_time := rollover_time s;
     rollover_applied := rollover_applied s; account_capital :=
     account_capital s; account_cash_start_day := account_cash_start_day s;
     account_cash_activity_day := v; total_commissions := total_commissions s;
     total_rollover := total_rollover s; fill_model := fill_model s; _market
     := _market s; _working_orders := _working_orders s; _atomic_child_orders
     := _atomic_child_orders s; _oco_orders := _oco_orders s; world := world
     s; events := events s; ledger := ledger s |}.

Definition set_total_commissions (v : Money) (s : State) : State :=
  {| static := static s; clock := clock s; guid_count := guid_count s;
     day_number := day_number s; rollover_time := rollover_time s;
     rollover_applied := rollover_applied s; account_capital :=
     account_capital s; account_cash_start_day := account_cash_start_day s;
     account_cash_activity_day := account_cash_activity_day s;
     total_commissions := v; total_rollover := total_rollover s; fill_model :=
     fill_model s; _market := _market s; _working_orders := _working_orders s;
     _atomic_child_orders := _atomic_child_orders s; _oco_orders :=
     _oco_orders s; world := world s; events := events s; ledger := ledger s
     |}.

Definition set_total_rollover (v : Money) (s : State) : State :=
  {| static := static s; clock := clock s; guid_count := guid_count s;
     day_number := day_number s; rollover_time := rollover_time s;
     rollover_applied := rollover_applied s; account_capital :=
     account_capital s; account_cash_start_day := account_cash_start_day s;
     account_cash_activity_day := account_cash_activity_day s;
     total_commissions := total_commissions s; total_rollover := v; fill_model
     := fill_model s; _market := _market s; _working_orders := _working_orders
     s; _atomic_child_orders := _atomic_child_orders s; _oco_orders :=
     _oco_orders s; world := world s; events := events s; ledger := ledger s
     |}.

Definition set_fill_model (v : FM) (s : State) : State :=
  {| static := static s; clock := clock s; guid_count := guid_count s;
     day_number := day_number s; rollover_time := rollover_time s;
     rollover_applied := rollover_applied s; account_capital :=
     account_capital s; account_cash_start_day := account_cash_start_day s;
     account_cash_activity_day := account_cash_activity_day s;
     total_commissions := total_commissions s; total_rollover :=
     total_rollover s; fill_model := v; _market := _market s; _working_orders
     := _working_orders s; _atomic_child_orders := _atomic_child_orders s;
     _oco_orders := _oco_orders s; world := world s; events := events s;
     ledger := ledger s |}.

Definition set_market (v : odict Symbol Tick.t) (s : State) : State :=
  {| static := static s; clock := clock s; guid_count := guid_count s;
     day_number := day_number s; rollover_time := rollover_time s;
     rollover_applied := rollover_applied s; account_capital :=
     account_capital s; account_cash_start_day := account_cash_start_day s;
     account_cash_activity_day := account_cash_activity_day s;
     total_commissions := total_commissions s; total_rollover :=
     total_rollover s; fill_model := fill_model s; _market := v;
     _working_orders := _working_orders s; _atomic_child_orders :=
     _atomic_child_orders s; _oco_orders := _oco_orders s; world := world s;
     events := events s; ledger := ledger s |}.

Definition set_working_orders (v : odict OrderId Order.t) (s : State) : State :=
  {| static := static s; clock := clock s; guid_count := guid_count s;
     day_number := day_number s; rollover_time := rollover_time s;
     rollover_applied := rollover_applied s; account_capital :=
     account_capital s; account_cash_start_day := account_cash_start_day s;
     account_cash_activity_day := account_cash_activity_day s;
     total_commissions := total_commissions s; total_rollover :=
     total_rollover s; fill_model := fill_model s; _market := _market s;
     _working_orders := v; _atomic_child_orders := _atomic_child_orders s;
     _oco_orders := _oco_orders s; world := world s; events := events s;
     ledger := ledger s |}.

Definition set_atomic_child_orders (v : odict OrderId (list Order.t)) (s : State) : State :=
  {| static := static s; clock := clock s; guid_count := guid_count s;
     day_number := day_number s; rollover_time := rollover_time s;
     rollover_applied := rollover_applied s; account_capital :=
     account_capital s; account_cash_start_day := account_cash_start_day s;
     account_cash_activity_day := account_cash_activity_day s;
     total_commissions := total_commissions s; total_rollover :=
     total_rollover s; fill_model := fill_model s; _market := _market s;
     _working_orders := _working_orders s; _atomic_child_orders := v;
     _oco_orders := _oco_orders s; world := world s; events := events s;
     ledger := ledger s |}.

Definition set_oco_orders (v : gmap OrderId OrderId) (s : State) : State :=
  {| static := static s; clock := clock s; guid_count := guid_count s;
     day_number := day_number s; rollover_time := rollover_time s;
     rollover_applied := rollover_applied s; account_capital :=
     account_capital s; account_cash_start_day := account_cash_start_day s;
     account_cash_activity_day := account_cash_activity_day s;
     total_commissions := total_commissions s; total_rollover :=
     total_rollover s; fill_model := fill_model s; _market := _market s;
     _working_orders := _working_orders s; _atomic_child_orders :=
     _atomic_child_orders s; _oco_orders := v; world := world s; events :=
     events s; ledger := ledger s |}.

Definition set_world (v : W) (s : State) : State :=
  {| static := static s; clock := clock s; guid_count := guid_count s;
     day_number := day_number s; rollover_time := rollover_time s;
     rollover_applied := rollover_applied s; account_capital :=
     account_capital s; account_cash_start_day := account_cash_start_day s;
     account_cash_activity_day := account_cash_activity_day s;
     total_commissions := total_commissions s; total_rollover :=
     total_rollover s; fill_model := fill_model s; _market := _market s;
     _working_orders := _working_orders s; _atomic_child_orders :=
     _atomic_child_orders s; _oco_orders := _oco_orders s; world := v; events
     := events s; ledger := ledger s |}.

Definition set_events (v : list Event) (s : State) : State :=
  {| static := static s; clock := clock s; guid_count := guid_count s;
     day_number := day_number s; rollover_time := rollover_time s;
     rollover_applied := rollover_applied s; account_capital :=
     account_capital s; account_cash_start_day := account_cash_start_day s;
     account_cash_activity_day := account_cash_activity_day s;
     total_commissions := total_commissions s; total_rollover :=
     total_rollover s; fill_model := fill_model s; _market := _market s;
     _working_orders := _working_orders s; _atomic_child_orders :=
     _atomic_child_orders s; _oco_orders := _oco_orders s; world := world s;
     events := v; ledger := ledger s |}.

Definition set_ledger (v : list LedgerEntry) (s : State) : State :=
  {| static := static s; clock := clock s; guid_count := guid_count s;
     day_number := day_number s; rollover_time := rollover_time s;
     rollover_applied := rollover_applied s; account_capital :=
     account_capital s; account_cash_start_day := account_cash_start_day s;
     account_cash_activity_day := account_cash_activity_day s;
     total_commissions := total_commissions s; total_rollover :=
     total_rollover s; fill_model := fill_model s; _market := _market s;
     _working_orders := _working_orders s; _atomic_child_orders :=
     _atomic_child_orders s; _oco_orders := _oco_orders s; world := world s;
     events := events s; ledger := v |}.

Abbreviation Eng := (M State).

(** *** Clock, GUID factory and event sink *)

Definition time_now : Eng datetime := gets clock.

Definition generate : Eng Guid :=
  fun s => (Ok (guid_count s), set_guid_count (S (guid_count s)) s).

(** [self._exec_engine.handle_event(event)] *)
Definition exec_engine_handle_event (e : Event) : Eng unit :=
  modify (fun s =>
    set_events (events s ++ [e]) (set_world (handle_event e (world s)) s)).

Definition the_account : Eng Account.t := gets (fun s => account (world s)).

(** *** Dictionary statements *)

Definition del_working_orders (k : OrderId) : Eng unit :=
  d <- gets _working_orders ;;
  if od_mem k d then modify (set_working_orders (od_del k d))
  else raise KeyError.

Definition del_atomic_child_orders (k : OrderId) : Eng unit :=
  d <- gets _atomic_child_orders ;;
  if od_mem k d then modify (set_atomic_child_orders (od_del k d))
  else raise KeyError.

Definition del_oco_orders (k : OrderId) : Eng unit :=
  d <- gets _oco_orders ;;
  match d !! k with
  | Some _ => modify (set_oco_orders (delete k d))
  | None => raise KeyError
  end.

Definition order_price (order : Order.t) : Eng Price :=
  not_none (Order.price order).

(** *** Construction *)

Definition _set_slippages (ins : gmap Symbol Instrument.t)
  : gmap Symbol Decimal :=
  Instrument.tick_size <$> ins.

Definition _set_min_stops (ins : gmap Symbol Instrument.t)
  : gmap Symbol Decimal :=
  (fun i => Instrument.tick_size i * Instrument.min_stop_distance i) <$> ins.

Definition _set_min_limits (ins : gmap Symbol Instrument.t)
  : gmap Symbol Decimal :=
  (fun i => Instrument.tick_size i * Instrument.min_limit_distance i) <$> ins.

(** [__init__]; [reset_account_event] draws the first GUID. *)
Definition init (ins : gmap Symbol Instrument.t) (config : BacktestConfig.t)
    (fm : FM) (clock0 : datetime) (guid0 : nat) (database : bool) (w : W)
  : State :=
  {| static :=
       {| instruments := ins;
          frozen_account := BacktestConfig.frozen_account config;
          starting_capital := BacktestConfig.starting_capital config;
          account_currency := BacktestConfig.account_currency config;
          exec_db := database;
          rollover_spread := 0%float;
          _slippages := _set_slippages ins;
          _min_stops := _set_min_stops ins;
          _min_limits := _set_min_limits ins |};
     clock := clock0;
     guid_count := S guid0;
     day_number := 0;
     rollover_time := None;
     rollover_applied := false;
     account_capital := BacktestConfig.starting_capital config;
     account_cash_start_day := BacktestConfig.starting_capital config;
     account_cash_activity_day := 0;
     total_commissions := 0;
     total_rollover := 0;
     fill_model := fm;
     _market := od_empty;
     _working_orders := od_empty;
     _atomic_child_orders := od_empty;
     _oco_orders := ∅;
     world := w;
     events := [];
     ledger := [] |}.

Definition _build_current_bid_rates (s : State) : rates :=
  fold_left (fun d '(symbol, tick) =>
               od_set symbol (Price_as_double (Tick.bid tick)) d)
            (od_items (_market s)) od_empty.

Definition _build_current_ask_rates (s : State) : rates :=
  fold_left (fun d '(symbol, tick) =>
               od_set symbol (Price_as_double (Tick.ask tick)) d)
            (od_items (_market s)) od_empty.

(** [check_residuals] only logs. *)
Definition check_residuals : Eng unit := ret tt.

Definition reset : Eng unit :=
  modify (fun s =>
    let cap := starting_capital (static s) in
    set_ledger []
      (set_oco_orders ∅
        (set_atomic_child_orders od_empty
          (set_working_orders od_empty
            (set_market od_empty
              (set_total_rollover 0
                (set_total_commissions 0
                  (set_account_cash_activity_day 0
                    (set_account_cash_start_day cap
                      (set_account_capital cap
                        (set_day_number 0 s))))))))))).

Definition change_fill_model (fm : FM) : Eng unit :=
  modify (set_fill_model fm).

(** Calls into the fill model. *)
Definition fill_model_is_slipped : Eng bool :=
  fun s => let '(b, fm) := is_slipped (fill_model s) in
           (Ok b, set_fill_model fm s).

Definition fill_model_is_stop_filled : Eng bool :=
  fun s => let '(b, fm) := is_stop_filled (fill_model s) in
           (Ok b, set_fill_model fm s).

Definition fill_model_is_limit_filled : Eng bool :=
  fun s => let '(b, fm) := is_limit_filled (fill_model s) in
           (Ok b, set_fill_model fm s).

(** *** Account *)

Definition account_state_event (acct : Account.t) (s : State)
    (event_id : Guid) (now : datetime) : Event :=
  AccountStateEvent
    {| AccountState.account_id := Account.id acct;
       AccountState.currency := Account.currency acct;
       AccountState.cash_balance := account_capital s;
       AccountState.cash_start_day := account_cash_start_day s;
       AccountState.cash_activity_day := account_cash_activity_day s;
       AccountState.margin_used_liquidation := 0;
       AccountState.margin_used_maintenance := 0;
       AccountState.margin_ratio := 0;
       AccountState.margin_call_status := "N";
       AccountState.event_id := event_id;
       AccountState.event_timestamp := now |}.

(** The tail shared by [adjust_account] and [apply_rollover_interest]:
    book [amount] to the capital and the day's activity and report it. *)
Definition book_to_account (amount : Money) : Eng unit :=
  modify (fun s => set_account_capital (account_capital s + amount) s) ;;
  modify (fun s =>
    set_account_cash_activity_day (account_cash_activity_day s + amount) s) ;;
  acct <- the_account ;;
  event_id <- generate ;;
  now <- time_now ;;
  s <- gets id ;;
  exec_engine_handle_event (account_state_event acct s event_id now).

(** The statements of [adjust_account] after the commission is known. *)
Definition book_closing_fill (pnl commission : Money) : Eng unit :=
  modify (fun s => set_total_commissions (total_commissions s - commission) s) ;;
  modify (fun s => set_ledger (ledger s ++ [ClosingFill pnl commission]) s) ;;
  let pnl := pnl - commission in
  frozen <- gets (fun s => frozen_account (static s)) ;;
  if negb frozen then book_to_account pnl else ret tt.

(** The statements of [apply_rollover_interest] after [rollover_final]. *)
Definition book_rollover (rollover_final : Money) : Eng unit :=
  modify (fun s => set_total_rollover (total_rollover s + rollover_final) s) ;;
  modify (fun s => set_ledger (ledger s ++ [Rollover rollover_final]) s) ;;
  frozen <- gets (fun s => frozen_account (static s)) ;;
  if negb frozen then book_to_account rollover_final else ret tt.

Definition calculate_pnl (direction : MarketPosition)
    (open_price close_price : float) (quantity : Quantity)
    (exchange_rate : float) : Eng Money :=
  difference <-
    match direction with
    | LONG => ret (close_price - open_price)%float
    | SHORT => ret (open_price - close_price)%float
    | FLAT => raise ValueError
    end ;;
  currency <- gets (fun s => account_currency (static s)) ;;
  ret (Money_of_double
         (difference * Quantity_as_double quantity * exchange_rate)%float
         currency).

Definition adjust_account (event : OrderFillEvent.t) (position : Position.t)
  : Eng unit :=
  st <- gets static ;;
  instrument <- getitem (instruments st !! OrderFillEvent.symbol event) ;;
  acct <- the_account ;;
  bid_rates <- gets _build_current_bid_rates ;;
  ask_rates <- gets _build_current_ask_rates ;;
  let exchange_rate :=
    get_rate (Instrument.quote_currency instrument) (Account.currency acct)
      (if decide (OrderFillEvent.order_side event = SELL) then BID else ASK)
      bid_rates ask_rates in
  pnl <- calculate_pnl (Position.market_position position)
           (Position.average_open_price position)
           (Price_as_double (OrderFillEvent.average_price event))
           (OrderFillEvent.filled_quantity event) exchange_rate ;;
  let commission :=
    commission_calculate (OrderFillEvent.symbol event)
      (OrderFillEvent.filled_quantity event)
      (OrderFillEvent.average_price event) exchange_rate
      (account_currency st) in
  book_closing_fill pnl commission.

(** One iteration of the loop over the open positions; the loop's local
    variables are [rollover_cumulative] and the [mid_prices] cache. *)
Definition rollover_position (timestamp : datetime)
    (acc : float * gmap Symbol float) (position : Position.t)
  : Eng (float * gmap Symbol float) :=
  let '(rollover_cumulative, mid_prices) := acc in
  st <- gets static ;;
  instrument <- getitem (instruments st !! Position.symbol position) ;;
  if decide (Instrument.security_type instrument = FOREX) then
    let mid_price := default 0%float (mid_prices !! Instrument.symbol instrument) in
    '(mid_price, mid_prices) <-
      (if (mid_price =? 0)%float then
         mkt <- gets _market ;;
         market <- getitem (od_get (Instrument.symbol instrument) mkt) ;;
         let mid_price :=
           ((Price_as_double (Tick.ask market)
             + Price_as_double (Tick.bid market)) / 2)%float in
         ret (mid_price, <[Instrument.symbol instrument := mid_price]> mid_prices)
       else ret (mid_price, mid_prices)) ;;
    let interest_rate :=
      calc_overnight_rate (Position.symbol position) timestamp in
    acct <- the_account ;;
    bid_rates <- gets _build_current_bid_rates ;;
    ask_rates <- gets _build_current_ask_rates ;;
    let exchange_rate :=
      get_rate (Instrument.quote_currency instrument) (Account.currency acct)
        MID bid_rates ask_rates in
    let rollover :=
      (mid_price * Quantity_as_double (Position.quantity position)
       * interest_rate * exchange_rate)%float in
    ret ((rollover_cumulative
          + (rollover - rollover * rollover_spread st))%float, mid_prices)
  else ret (rollover_cumulative, mid_prices).

Definition apply_rollover_interest (timestamp : datetime) (iso_week_day : Z)
  : Eng unit :=
  st <- gets static ;;
  if negb (exec_db st) then ret tt
  else
    open_positions <- gets (fun s => get_positions_open (world s)) ;;
    '(rollover_cumulative, _) <-
      fold_each open_positions (rollover_position timestamp) (0%float, ∅) ;;
    let rollover_cumulative :=
      if iso_week_day =? 3 then (rollover_cumulative * 3)%float
      else if iso_week_day =? 5 then (rollover_cumulative * 3)%float
      else rollover_cumulative in
    let rollover_final :=
      Money_of_double rollover_cumulative (account_currency st) in
    book_rollover rollover_final.

(** *** Event handling *)

Definition _reject_oco_order (order : Order.t) (oco_order_id : OrderId)
  : Eng unit :=
  acct <- the_account ;;
  now <- time_now ;;
  event_id <- generate ;;
  exec_engine_handle_event
    (OrderRejected (Account.id acct) (Order.id order) now
       ("OCO order rejected from " +:+ str_OrderId oco_order_id)
       event_id now).

Definition _cancel_oco_order (order : Order.t) (oco_order_id : OrderId)
  : Eng unit :=
  acct <- the_account ;;
  now <- time_now ;;
  event_id <- generate ;;
  exec_engine_handle_event
    (OrderCancelled (Account.id acct) (Order.id order) now event_id now).

(** [del self._oco_orders[a]] then [del self._oco_orders[b]] *)
Definition unlink_oco (a b : OrderId) : Eng unit :=
  del_oco_orders a ;;
  del_oco_orders b.

Definition _check_oco_order (order_id : OrderId) : Eng unit :=
  oco <- gets _oco_orders ;;
  match oco !! order_id with
  | None => ret tt
  | Some oco_order_id =>
      oco_order <- gets (fun s => get_order (world s) oco_order_id) ;;
      unlink_oco order_id oco_order_id ;;
      (* Reject any latent atomic child orders *)
      atomic <- gets _atomic_child_orders ;;
      for_each (od_items atomic) (fun '(atomic_order_id, child_orders) =>
        for_each child_orders (fun order =>
          oco_order <- not_none oco_order ;;
          if Order.equals oco_order order
          then _reject_oco_order order order_id
          else ret tt)) ;;
      (* Cancel any working OCO orders *)
      working <- gets _working_orders ;;
      match od_get oco_order_id working with
      | Some oco_working =>
          _cancel_oco_order oco_working order_id ;;
          del_working_orders oco_order_id
      | None => ret tt
      end
  end.

Definition _clean_up_child_orders (order_id : OrderId) : Eng unit :=
  atomic <- gets _atomic_child_orders ;;
  if od_mem order_id atomic then del_atomic_child_orders order_id
  else ret tt.

Definition _reject_order (order : Order.t) (reason : string) : Eng unit :=
  acct <- the_account ;;
  now <- time_now ;;
  event_id <- generate ;;
  exec_engine_handle_event
    (OrderRejected (Account.id acct) (Order.id order) now reason event_id now) ;;
  _check_oco_order (Order.id order) ;;
  _clean_up_child_orders (Order.id order).

(** The parameter is declared [OrderId order_id]: the argument is
    type-tested when the call is made. *)
Definition _cancel_reject_order (order_id : PyObject)
    (response reason : string) : Eng unit :=
  order_id <-
    match order_id with
    | PyOrderId i => ret i
    | PyOrder _ => raise TypeError
    end ;;
  acct <- the_account ;;
  now <- time_now ;;
  event_id <- generate ;;
  exec_engine_handle_event
    (OrderCancelReject (Account.id acct) order_id now response reason
       event_id now).

Definition _expire_order (order : Order.t) : Eng unit :=
  acct <- the_account ;;
  event_id <- generate ;;
  now <- time_now ;;
  exec_engine_handle_event
    (OrderExpired (Account.id acct) (Order.id order)
       (Order.expire_time order) event_id now) ;;
  atomic <- gets _atomic_child_orders ;;
  match od_get (Order.id order) atomic with
  | Some children =>
      (* Remove any unprocessed atomic child order OCO identifiers *)
      first_child <-
        match children with
        | first_child :: _ => ret first_child
        | [] => raise IndexError
        end ;;
      let first_child_order_id := Order.id first_child in
      oco <- gets _oco_orders ;;
      match oco !! first_child_order_id with
      | Some other_oco_order_id =>
          unlink_oco first_child_order_id other_oco_order_id
      | None => ret tt
      end
  | None => _check_oco_order (Order.id order)
  end ;;
  _clean_up_child_orders (Order.id order).

Definition too_far (side_type : string) (order : Order.t) (book : string)
    (quote : Price) : string :=
  side_type +:+ " order price of " +:+ str_Price (Order.price order)
  +:+ " is too far from the market, " +:+ book +:+ "="
  +:+ str_Price (Some quote).

(** The tail of each branch of [_check_valid_price] once the price fails. *)
Definition invalid_price (reject : bool) (order : Order.t) (reason : string)
  : Eng bool :=
  (if reject then _reject_order order reason else ret tt) ;;
  ret false.

(** Declared [cdef bint], without an except clause. *)
Definition _check_valid_price (order : Order.t) (current_market : Tick.t)
    (reject : bool) : Eng bool :=
  unraisable (
  st <- gets static ;;
  match Order.side order with
  | BUY =>
      if in_STOP_ORDER_TYPES (Order.type order) then
        price <- order_price order ;;
        min_stop <- getitem (_min_stops st !! Order.symbol order) ;;
        if price <? Tick.ask current_market + min_stop then
          invalid_price reject order
            (too_far "BUY STOP" order "ask" (Tick.ask current_market))
        else ret true
      else if decide (Order.type order = LIMIT) then
        price <- order_price order ;;
        min_limit <- getitem (_min_limits st !! Order.symbol order) ;;
        if price >? Tick.bid current_market - min_limit then
          invalid_price reject order
            (too_far "BUY LIMIT" order "bid" (Tick.bid current_market))
        else ret true
      else ret true
  | SELL =>
      if in_STOP_ORDER_TYPES (Order.type order) then
        price <- order_price order ;;
        min_stop <- getitem (_min_stops st !! Order.symbol order) ;;
        if price >? Tick.bid current_market - min_stop then
          invalid_price reject order
            (too_far "SELL STOP" order "bid" (Tick.bid current_market))
        else ret true
      else if decide (Order.type order = LIMIT) then
        price <- order_price order ;;
        min_limit <- getitem (_min_limits st !! Order.symbol order) ;;
        if price <? Tick.ask current_market + min_limit then
          invalid_price reject order
            (too_far "SELL LIMIT" order "ask" (Tick.ask current_market))
        else ret true
      else ret true
  end).

(** The four marginal-fill tests are declared [cdef bint] as well; the fill
    model's draw always returns, so nothing is dropped in them. *)
Definition _is_marginal_buy_stop_fill (order_price : Price)
    (current_market : Tick.t) : Eng bool :=
  if Tick.ask current_market =? order_price then fill_model_is_stop_filled
  else ret false.

Definition _is_marginal_buy_limit_fill (order_price : Price)
    (current_market : Tick.t) : Eng bool :=
  if Tick.ask current_market =? order_price then fill_model_is_limit_filled
  else ret false.

Definition _is_marginal_sell_stop_fill (order_price : Price)
    (current_market : Tick.t) : Eng bool :=
  if Tick.bid current_market =? order_price then fill_model_is_stop_filled
  else ret false.

Definition _is_marginal_sell_limit_fill (order_price : Price)
    (current_market : Tick.t) : Eng bool :=
  if Tick.bid current_market =? order_price then fill_model_is_limit_filled
  else ret false.

Definition _accept_order (order : Order.t) : Eng unit :=
  acct <- the_account ;;
  now <- time_now ;;
  event_id <- generate ;;
  exec_engine_handle_event
    (OrderAccepted (Account.id acct) (Order.id order)
       ("B" +:+ Order.id order) (Order.label order) now event_id now).

(** [child_order.is_completed] *)
Definition is_completed (order : Order.t) : Eng bool :=
  gets (fun s => terminal_state (order_state (world s) order)).

(** The last part of [_process_order]: the order becomes working. *)
Definition work_order (order : Order.t) : Eng unit :=
  _accept_order order ;;
  modify (fun s =>
    set_working_orders (od_set (Order.id order) order (_working_orders s)) s) ;;
  acct <- the_account ;;
  now <- time_now ;;
  event_id <- generate ;;
  exec_engine_handle_event
    (OrderWorking (Account.id acct) (Order.id order)
       ("B" +:+ Order.id order) (Order.symbol order) (Order.label order)
       (Order.side order) (Order.type order) (Order.quantity order)
       (Order.price order) (Order.time_in_force order) now event_id now
       (Order.expire_time order)).

(** [_process_order], with the call to [_fill_order] as a parameter: the
    two functions call each other. *)
Definition _process_order_with (fill : Order.t -> Price -> Eng unit)
    (order : Order.t) : Eng unit :=
  working <- gets _working_orders ;;
  if od_mem (Order.id order) working then raise ValueError
  else
    st <- gets static ;;
    instrument <- getitem (instruments st !! Order.symbol order) ;;
    if Order.quantity order >? Instrument.max_trade_size instrument then
      _reject_order order
        ("order quantity of " +:+ str_Quantity (Order.quantity order)
         +:+ " exceeds the maximum trade size of "
         +:+ str_Quantity (Instrument.max_trade_size instrument))
    else if Order.quantity order <? Instrument.min_trade_size instrument then
      _reject_order order
        ("order quantity of " +:+ str_Quantity (Order.quantity order)
         +:+ " is less than the minimum trade size of "
         +:+ str_Quantity (Instrument.min_trade_size instrument))
    else
      mkt <- gets _market ;;
      match od_get (Order.symbol order) mkt with
      | None =>
          _reject_order order
            ("no market for " +:+ str_Symbol (Order.symbol order))
      | Some current_market =>
          valid <- _check_valid_price order current_market true ;;
          if negb valid then ret tt
          else if decide (Order.type order = MARKET) then
            _accept_order order ;;
            match Order.side order with
            | BUY =>
                slipped <- fill_model_is_slipped ;;
                if slipped then
                  slippage <- getitem (_slippages st !! Order.symbol order) ;;
                  fill order (Tick.ask current_market + slippage)
                else fill order (Tick.ask current_market)
            | SELL =>
                if decide (Order.type order = MARKET) then
                  slipped <- fill_model_is_slipped ;;
                  if slipped then
                    slippage <- getitem (_slippages st !! Order.symbol order) ;;
                    fill order (Tick.bid current_market - slippage)
                  else fill order (Tick.bid current_market)
                else work_order order
            end
          else work_order order
      end.

Definition order_filled (acct : Account.t) (order : Order.t)
    (fill_price : Price) (quote_currency : Currency) (now : datetime)
    (event_id : Guid) : OrderFillEvent.t :=
  {| OrderFillEvent.account_id := Account.id acct;
     OrderFillEvent.order_id := Order.id order;
     OrderFillEvent.execution_id := "E-" +:+ Order.id order;
     OrderFillEvent.position_id_broker := "ET-" +:+ Order.id order;
     OrderFillEvent.symbol := Order.symbol order;
     OrderFillEvent.order_side := Order.side order;
     OrderFillEvent.filled_quantity := Order.quantity order;
     OrderFillEvent.average_price := fill_price;
     OrderFillEvent.quote_currency := quote_currency;
     OrderFillEvent.execution_time := now;
     OrderFillEvent.event_id := event_id;
     OrderFillEvent.event_timestamp := now |}.

(** The first part of [_fill_order]: the fill event, the account adjustment
    of a closing fill, the delivery of the event and the OCO check. *)
Definition fill_and_report (order : Order.t) (fill_price : Price) : Eng unit :=
  st <- gets static ;;
  acct <- the_account ;;
  instrument <- getitem (instruments st !! Order.symbol order) ;;
  now <- time_now ;;
  event_id <- generate ;;
  let filled :=
    order_filled acct order fill_price (Instrument.quote_currency instrument)
      now event_id in
  position <- gets (fun s => get_position_for_order (world s) (Order.id order)) ;;
  match position with
  | Some position =>
      if decide (Position.entry_direction position <> Order.side order)
      then adjust_account filled position
      else ret tt
  | None => ret tt
  end ;;
  exec_engine_handle_event (OrderFilled filled) ;;
  _check_oco_order (Order.id order).

(** The second part of [_fill_order]: work any atomic child orders. *)
Definition work_atomic_children (process : Order.t -> Eng unit)
    (order : Order.t) : Eng unit :=
  atomic <- gets _atomic_child_orders ;;
  match od_get (Order.id order) atomic with
  | Some children =>
      for_each children (fun child_order =>
        completed <- is_completed child_order ;;
        if negb completed then process child_order else ret tt) ;;
      del_atomic_child_orders (Order.id order)
  | None => ret tt
  end.

(** [fuel] bounds the depth of the calls between [_fill_order] and
    [_process_order]. *)
Fixpoint _fill_order (fuel : nat) (order : Order.t) (fill_price : Price)
  : Eng unit :=
  match fuel with
  | O => raise RecursionError
  | S fuel' =>
      fill_and_report order fill_price ;;
      work_atomic_children (_process_order_with (_fill_order fuel')) order
  end.

Definition _process_order (fuel : nat) (order : Order.t) : Eng unit :=
  _process_order_with (_fill_order fuel) order.

(** *** The matching loop *)

(** A working order is triggered: it leaves the working orders and fills at
    its price, moved by the slippage against the order when the fill model
    says so. *)
Definition fill_working_order (fuel : nat) (order : Order.t) (price : Price)
    (slip : Price -> Decimal -> Price) : Eng unit :=
  st <- gets static ;;
  del_working_orders (Order.id order) ;;
  slipped <- fill_model_is_slipped ;;
  if slipped then
    slippage <- getitem (_slippages st !! Order.symbol order) ;;
    _fill_order fuel order (slip price slippage)
  else _fill_order fuel order price.

(** [a or b] *)
Definition or_else (a : bool) (b : Eng bool) : Eng bool :=
  if a then ret true else b.

(** The fill test of the loop body; the result tells whether the loop
    continued with the next order. *)
Definition check_order_fill (fuel : nat) (tick : Tick.t) (order : Order.t)
  : Eng bool :=
  match Order.side order with
  | BUY =>
      if in_STOP_ORDER_TYPES (Order.type order) then
        price <- order_price order ;;
        hit <- or_else (Tick.ask tick >=? price)
                 (_is_marginal_buy_stop_fill price tick) ;;
        if hit then fill_working_order fuel order price Z.add ;; ret true
        else ret false
      else if decide (Order.type order = LIMIT) then
        price <- order_price order ;;
        hit <- or_else (Tick.ask tick <=? price)
                 (_is_marginal_buy_limit_fill price tick) ;;
        if hit then fill_working_order fuel order price Z.add ;; ret true
        else ret false
      else ret false
  | SELL =>
      if in_STOP_ORDER_TYPES (Order.type order) then
        price <- order_price order ;;
        hit <- or_else (Tick.bid tick <=? price)
                 (_is_marginal_sell_stop_fill price tick) ;;
        if hit then fill_working_order fuel order price Z.sub ;; ret true
        else ret false
      else if decide (Order.type order = LIMIT) then
        price <- order_price order ;;
        hit <- or_else (Tick.bid tick >=? price)
                 (_is_marginal_sell_limit_fill price tick) ;;
        if hit then fill_working_order fuel order price Z.sub ;; ret true
        else ret false
      else ret false
  end.

Definition check_order_expiry (now : datetime) (order : Order.t) : Eng unit :=
  match Order.expire_time order with
  | Some expire_time =>
      if now >=? expire_time then
        working <- gets _working_orders ;;
        if od_mem (Order.id order) working then
          del_working_orders (Order.id order) ;;
          _expire_order order
        else ret tt
      else ret tt
  | None => ret tt
  end.

(** The body of the loop over the copy of the working orders. *)
Definition simulate_order (fuel : nat) (tick : Tick.t) (now : datetime)
    (order : Order.t) : Eng unit :=
  if negb (String.eqb (Order.symbol order) (Tick.symbol tick)) then ret tt
  else
    state <- gets (fun s => order_state (world s) order) ;;
    if decide (state <> WORKING) then ret tt
    else
      st <- gets static ;;
      instrument <- getitem (instruments st !! Order.symbol order) ;;
      filled <- check_order_fill fuel tick order ;;
      if filled then ret tt else check_order_expiry now order.

Definition new_day (now : datetime) : Eng unit :=
  modify (set_day_number (day_of now)) ;;
  acct <- the_account ;;
  modify (set_account_cash_start_day (Account.cash_balance acct)) ;;
  modify (set_account_cash_activity_day 0) ;;
  modify (set_rollover_applied false) ;;
  modify (set_rollover_time (Some (rollover_time_of now))).

Definition process_tick (fuel : nat) (tick : Tick.t) : Eng unit :=
  modify (set_clock (Tick.timestamp tick)) ;;
  modify (fun s => set_market (od_set (Tick.symbol tick) tick (_market s)) s) ;;
  now <- time_now ;;
  day_number <- gets day_number ;;
  (if decide (day_number <> day_of now) then new_day now else ret tt) ;;
  applied <- gets rollover_applied ;;
  (if negb applied then
     rollover_time <- gets rollover_time ;;
     match rollover_time with
     | None => raise TypeError
     | Some rollover_time =>
         if now >=? rollover_time then
           apply_rollover_interest now (isoweekday rollover_time) ;;
           modify (set_rollover_applied true)
         else ret tt
     end
   else ret tt) ;;
  working <- gets _working_orders ;;
  match working with
  | [] => ret tt
  | _ => for_each (od_values working) (simulate_order fuel tick now)
  end.

(** *** Command execution *)

Definition account_inquiry (command : AccountInquiry.t) : Eng unit :=
  acct <- the_account ;;
  start_day <- gets account_cash_start_day ;;
  activity_day <- gets account_cash_activity_day ;;
  event_id <- generate ;;
  now <- time_now ;;
  exec_engine_handle_event
    (AccountStateEvent
       {| AccountState.account_id := Account.id acct;
          AccountState.currency := Account.currency acct;
          AccountState.cash_balance := Account.cash_balance acct;
          AccountState.cash_start_day := start_day;
          AccountState.cash_activity_day := activity_day;
          AccountState.margin_used_liquidation :=
            Account.margin_used_liquidation acct;
          AccountState.margin_used_maintenance :=
            Account.margin_used_maintenance acct;
          AccountState.margin_ratio := Account.margin_ratio acct;
          AccountState.margin_call_status := Account.margin_call_status acct;
          AccountState.event_id := event_id;
          AccountState.event_timestamp := now |}).

Definition submit_order (fuel : nat) (command : SubmitOrder.t) : Eng unit :=
  now <- time_now ;;
  event_id <- generate ;;
  exec_engine_handle_event
    (OrderSubmitted (SubmitOrder.account_id command)
       (Order.id (SubmitOrder.order command)) now event_id now) ;;
  _process_order fuel (SubmitOrder.order command).

(** The statements of [submit_atomic_order] before the entry order is
    submitted: the children are listed, paired when there are two, and held
    under the identifier of the entry order. *)
Definition register_atomic_order (atomic_order : AtomicOrder.t) : Eng unit :=
  let stop_loss := AtomicOrder.stop_loss atomic_order in
  atomic_orders <-
    match AtomicOrder.take_profit atomic_order with
    | Some take_profit =>
        modify (fun s =>
          set_oco_orders
            (<[Order.id take_profit := Order.id stop_loss]> (_oco_orders s)) s) ;;
        modify (fun s =>
          set_oco_orders
            (<[Order.id stop_loss := Order.id take_profit]> (_oco_orders s)) s) ;;
        ret [stop_loss; take_profit]
    | None => ret [stop_loss]
    end ;;
  modify (fun s =>
    set_atomic_child_orders
      (od_set (Order.id (AtomicOrder.entry atomic_order)) atomic_orders
         (_atomic_child_orders s)) s).

Definition submit_atomic_order (fuel : nat) (command : SubmitAtomicOrder.t)
  : Eng unit :=
  let atomic_order := SubmitAtomicOrder.atomic_order command in
  register_atomic_order atomic_order ;;
  command_id <- generate ;;
  now <- time_now ;;
  submit_order fuel
    {| SubmitOrder.trader_id := SubmitAtomicOrder.trader_id command;
       SubmitOrder.account_id := SubmitAtomicOrder.account_id command;
       SubmitOrder.strategy_id := SubmitAtomicOrder.strategy_id command;
       SubmitOrder.position_id := SubmitAtomicOrder.position_id command;
       SubmitOrder.order := AtomicOrder.entry atomic_order;
       SubmitOrder.command_id := command_id;
       SubmitOrder.command_timestamp := now |}.

Definition cancel_order (command : CancelOrder.t) : Eng unit :=
  working <- gets _working_orders ;;
  match od_get (CancelOrder.order_id command) working with
  | None =>
      _cancel_reject_order (PyOrderId (CancelOrder.order_id command))
        "cancel order" "order not found"
  | Some order =>
      now <- time_now ;;
      event_id <- generate ;;
      let cancelled :=
        OrderCancelled (CancelOrder.account_id command) (Order.id order) now
          event_id now in
      del_working_orders (CancelOrder.order_id command) ;;
      exec_engine_handle_event cancelled ;;
      _check_oco_order (CancelOrder.order_id command)
  end.

Definition modify_order (command : ModifyOrder.t) : Eng unit :=
  working <- gets _working_orders ;;
  match od_get (ModifyOrder.order_id command) working with
  | None =>
      _cancel_reject_order (PyOrderId (ModifyOrder.order_id command))
        "modify order" "order not found"
  | Some order =>
      st <- gets static ;;
      instrument <- getitem (instruments st !! Order.symbol order) ;;
      if (Quantity_as_double (ModifyOrder.modified_quantity command) =? 0)%float
      then
        _cancel_reject_order (PyOrder order) "modify order"
          ("modified quantity "
           +:+ str_Quantity (ModifyOrder.modified_quantity command)
           +:+ " invalid")
      else
        mkt <- gets _market ;;
        market <- getitem (od_get (Order.symbol order) mkt) ;;
        valid <- _check_valid_price order market true ;;
        if negb valid then ret tt
        else
          id_broker <- gets (fun s => order_id_broker (world s) order) ;;
          now <- time_now ;;
          event_id <- generate ;;
          exec_engine_handle_event
            (OrderModified (ModifyOrder.account_id command) (Order.id order)
               id_broker (ModifyOrder.modified_quantity command)
               (ModifyOrder.modified_price command) now event_id now)
  end.

(** ** Runs of the engine *)

(** The calls the engine receives; [Environment] is a step of the
    collaborators between two calls. *)
Inductive Call :=
| ProcessTick (tick : Tick.t)
| AdjustAccount (event : OrderFillEvent.t) (position : Position.t)
| ApplyRolloverInterest (timestamp : datetime) (iso_week_day : Z)
| DoAccountInquiry (command : AccountInquiry.t)
| DoSubmitOrder (command : SubmitOrder.t)
| DoSubmitAtomicOrder (command : SubmitAtomicOrder.t)
| DoCancelOrder (command : CancelOrder.t)
| DoModifyOrder (command : ModifyOrder.t)
| DoReset
| ChangeFillModel (fm : FM)
| CheckResiduals
| Environment (w : W).

Definition call (fuel : nat) (c : Call) : Eng unit :=
  match c with
  | ProcessTick tick => process_tick fuel tick
  | AdjustAccount event position => adjust_account event position
  | ApplyRolloverInterest timestamp iso_week_day =>
      apply_rollover_interest timestamp iso_week_day
  | DoAccountInquiry command => account_inquiry command
  | DoSubmitOrder command => submit_order fuel command
  | DoSubmitAtomicOrder command => submit_atomic_order fuel command
  | DoCancelOrder command => cancel_order command
  | DoModifyOrder command => modify_order command
  | DoReset => reset
  | ChangeFillModel fm => change_fill_model fm
  | CheckResiduals => check_residuals
  | Environment w => modify (set_world w)
  end.

(** The state after a call, whether it returned or raised. *)
Definition after (fuel : nat) (c : Call) (s : State) : State :=
  snd (call fuel c s).

(** The state after a sequence of calls, each with its own bound. *)
Definition run (cs : list (nat * Call)) (s : State) : State :=
  fold_left (fun s '(fuel, c) => after fuel c s) cs s.

(** ** Frame conditions *)

(** The event sink: the log grows and the collaborators take their step. *)
Definition emitted (e : Event) (s : State) : State :=
  set_events (events s ++ [e]) (set_world (handle_event e (world s)) s).

(** An assertion is [harmless] when no step of the bookkeeping of clock,
    identifiers, market and collaborators, and no removal from the working
    orders or from the atomic child orders, can falsify it. *)
Record harmless (I : State -> Prop) : Prop := {
  harmless_clock : forall v s, I s -> I (set_clock v s);
  harmless_guid_count : forall v s, I s -> I (set_guid_count v s);
  harmless_rollover_time : forall v s, I s -> I (set_rollover_time v s);
  harmless_cash_start_day :
    forall v s, I s -> I (set_account_cash_start_day v s);
  harmless_cash_activity_day :
    forall v s, I s -> I (set_account_cash_activity_day v s);
  harmless_fill_model : forall v s, I s -> I (set_fill_model v s);
  harmless_market : forall v s, I s -> I (set_market v s);
  harmless_world : forall v s, I s -> I (set_world v s);
  harmless_emitted : forall e s, I s -> I (emitted e s);
  harmless_del_working :
    forall k s, I s -> I (set_working_orders (od_del k (_working_orders s)) s);
  harmless_del_atomic :
    forall k s, I s ->
      I (set_atomic_child_orders (od_del k (_atomic_child_orders s)) s) }.

(** An assertion is [day_blind] when the turn of a day, which sets the day
    number and the flag of the day's rollover, cannot falsify it. *)
Record day_blind (I : State -> Prop) : Prop := {
  day_blind_day_number : forall v s, I s -> I (set_day_number v s);
  day_blind_rollover_applied :
    forall v s, I s -> I (set_rollover_applied v s) }.

End Engine.
(** ** Specification vocabulary *)

Section Specification.
Context {W FM : Type}.
Context `{EXEC : !ExecEngineOps W, FILL : !FillModelOps FM}.
Context `{CALC : !Calculators, CAL : !Calendar, NUM : !Numerics}.
Implicit Types (s : @State W FM).

(** What a call must satisfy for the invariant [I] to survive it, when [A]
    tells which orders may become working. *)
Definition call_ok (I : @State W FM -> Prop) (A : Order.t -> Prop)
    (c : @Call W FM)
  : Prop :=
  match c with
  | DoSubmitOrder command => A (SubmitOrder.order command)
  | DoSubmitAtomicOrder command =>
      A (AtomicOrder.entry (SubmitAtomicOrder.atomic_order command))
      /\ preserves I
           (register_atomic_order (SubmitAtomicOrder.atomic_order command))
  | _ => True
  end.

(** *** Capital identity *)

(** Sum over the closing fills of [pnl - commission]. *)
Fixpoint sum_closing_fills (l : list LedgerEntry) : Money :=
  match l with
  | [] => 0
  | ClosingFill pnl commission :: r => (pnl - commission) + sum_closing_fills r
  | Rollover _ :: r => sum_closing_fills r
  end.

(** Sum of the applied rollover amounts. *)
Fixpoint sum_rollovers (l : list LedgerEntry) : Money :=
  match l with
  | [] => 0
  | ClosingFill _ _ :: r => sum_rollovers r
  | Rollover amount :: r => amount + sum_rollovers r
  end.

Fixpoint sum_commissions (l : list LedgerEntry) : Money :=
  match l with
  | [] => 0
  | ClosingFill _ commission :: r => commission + sum_commissions r
  | Rollover _ :: r => sum_commissions r
  end.

Definition capital_identity s : Prop :=
  if frozen_account (static s)
  then account_capital s = starting_capital (static s)
  else account_capital s
       = starting_capital (static s) + sum_closing_fills (ledger s)
         + sum_rollovers (ledger s).

(** The engine's own running totals agree with the history. *)
Definition totals_agree s : Prop :=
  total_rollover s = sum_rollovers (ledger s)
  /\ total_commissions s = - sum_commissions (ledger s).

Definition account_inv (st : Static) s : Prop :=
  static s = st /\ capital_identity s /\ totals_agree s.

(** *** OCO pairs *)

(** [oco[a] == b] iff [oco[b] == a], and never [oco[a] == a]. *)
Definition oco_symmetric (m : gmap OrderId OrderId) : Prop :=
  (forall a b, m !! a = Some b <-> m !! b = Some a)
  /\ (forall a, m !! a <> Some a).

(** The identifiers an atomic submission enters into the OCO map. *)
Definition oco_ids_of_atomic (command : SubmitAtomicOrder.t) : list OrderId :=
  let atomic_order := SubmitAtomicOrder.atomic_order command in
  match AtomicOrder.take_profit atomic_order with
  | Some take_profit =>
      [Order.id take_profit; Order.id (AtomicOrder.stop_loss atomic_order)]
  | None => []
  end.

Definition oco_ids_of (c : @Call W FM) : list OrderId :=
  match c with
  | DoSubmitAtomicOrder command => oco_ids_of_atomic command
  | _ => []
  end.

Definition oco_ids (cs : list (nat * @Call W FM)) : list OrderId :=
  flat_map (fun fc => oco_ids_of (snd fc)) cs.

(** The OCO map is symmetric without self-pairs and holds none of the
    identifiers [X] that later submissions will enter. *)
Definition oco_inv (X : list OrderId) s : Prop :=
  oco_symmetric (_oco_orders s) /\ forall k, k ∈ X -> _oco_orders s !! k = None.

(** Each atomic submission of the run [cs] from [s] enters two different
    identifiers, neither of them in the OCO map when it is submitted. *)
Fixpoint new_oco_ids (cs : list (nat * @Call W FM)) s : bool :=
  match cs with
  | [] => true
  | (fuel, c) :: cs =>
      bool_decide (NoDup (oco_ids_of c))
      && forallb (fun k => bool_decide (_oco_orders s !! k = None))
           (oco_ids_of c)
      && new_oco_ids cs (after fuel c s)
  end.

(** *** Atomic orders *)

(** An [OrderFilled] event for the order [p] has been delivered. *)
Definition filled_in (l : list Event) (p : OrderId) : Prop :=
  exists f, OrderFilled f ∈ l /\ OrderFillEvent.order_id f = p.

(** The children an atomic submission lists: the stop-loss, then the
    take-profit when there is one. *)
Definition children_of (command : SubmitAtomicOrder.t) : list Order.t :=
  let atomic_order := SubmitAtomicOrder.atomic_order command in
  AtomicOrder.stop_loss atomic_order
  :: match AtomicOrder.take_profit atomic_order with
     | Some take_profit => [take_profit]
     | None => []
     end.

(** The identifiers of the orders a call submits in their own right: the
    order of [submit_order], the entry of [submit_atomic_order]. *)
Definition direct_ids_of (c : @Call W FM) : list OrderId :=
  match c with
  | DoSubmitOrder command => [Order.id (SubmitOrder.order command)]
  | DoSubmitAtomicOrder command =>
      [Order.id (AtomicOrder.entry (SubmitAtomicOrder.atomic_order command))]
  | _ => []
  end.

(** The pairs (parent identifier, child identifier) a call introduces. *)
Definition parent_child_of (c : @Call W FM) : list (OrderId * OrderId) :=
  match c with
  | DoSubmitAtomicOrder command =>
      map (fun child =>
             (Order.id (AtomicOrder.entry
                          (SubmitAtomicOrder.atomic_order command)),
              Order.id child))
          (children_of command)
  | _ => []
  end.

Definition direct_ids (cs : list (nat * @Call W FM)) : list OrderId :=
  flat_map (fun fc => direct_ids_of (snd fc)) cs.

Definition parent_child (cs : list (nat * @Call W FM))
  : list (OrderId * OrderId) :=
  flat_map (fun fc => parent_child_of (snd fc)) cs.

Definition child_ids (cs : list (nat * @Call W FM)) : list OrderId :=
  map snd (parent_child cs).

(** [k] may be a working order: it was submitted in its own right, or a
    parent of it has filled. *)
Definition allowed (D : OrderId -> Prop) (PC : OrderId -> OrderId -> Prop)
    (l : list Event) (k : OrderId) : Prop :=
  D k \/ exists p, PC p k /\ filled_in l p.

(** Every working order is allowed, every held child belongs to the parent
    it is held under, and the fact [F] about the event log holds. *)
Definition confined (D : OrderId -> Prop) (PC : OrderId -> OrderId -> Prop)
    (F : list Event -> Prop) s : Prop :=
  (forall k, od_mem k (_working_orders s) = true -> allowed D PC (events s) k)
  /\ (forall p children child,
        od_get p (_atomic_child_orders s) = Some children ->
        child ∈ children -> PC p (Order.id child))
  /\ F (events s).

(** Facts about the event log that later events cannot undo. *)
Definition lasting (F : list Event -> Prop) : Prop :=
  forall l e, F l -> F (l ++ [e]).

(** Orders that the fact [F] allows to become working. *)
Definition admits (D : OrderId -> Prop) (PC : OrderId -> OrderId -> Prop)
    (F : list Event -> Prop) (o : Order.t) : Prop :=
  forall l, F l -> allowed D PC l (Order.id o).

(** *** The matching table *)

(** The fill test of the matching loop as the comparisons it comes down
    to: a STOP kind triggers when the touch price has reached the order
    price, a LIMIT when it is at the order price or better. *)
Definition triggered (tick : Tick.t) (o : Order.t) (price : Price) : bool :=
  match Order.side o with
  | BUY =>
      if in_STOP_ORDER_TYPES (Order.type o) then Tick.ask tick >=? price
      else if decide (Order.type o = LIMIT) then Tick.ask tick <=? price
      else false
  | SELL =>
      if in_STOP_ORDER_TYPES (Order.type o) then Tick.bid tick <=? price
      else if decide (Order.type o = LIMIT) then Tick.bid tick >=? price
      else false
  end.

(** The slippage moves a buy up and a sell down. *)
Definition slip_of (side : OrderSide) : Price -> Decimal -> Price :=
  match side with
  | BUY => Z.add
  | SELL => Z.sub
  end.

(** The events delivered since the log was [base] start with [e]. *)
Definition emitted_first (base : list Event) (e : Event) s : Prop :=
  exists l, events s = base ++ e :: l.

(** *** Rollover *)

(** Rollover of one position, from the words of the specification: mid
    price times quantity times overnight rate times exchange rate, less the
    spread markup; positions in other instruments contribute nothing. *)
Definition spec_position_rollover (timestamp : datetime) s
    (instrument : Instrument.t) (market : Tick.t) (position : Position.t)
  : float :=
  let mid :=
    ((Price_as_double (Tick.ask market) + Price_as_double (Tick.bid market))
     / 2)%float in
  let rate := calc_overnight_rate (Position.symbol position) timestamp in
  let fx :=
    get_rate (Instrument.quote_currency instrument)
      (Account.currency (account (world s))) MID
      (_build_current_bid_rates s) (_build_current_ask_rates s) in
  let rollover :=
    (mid * Quantity_as_double (Position.quantity position) * rate * fx)%float
  in
  (rollover - rollover * rollover_spread (static s))%float.

(** The cumulative rollover over the open positions; [None] when a
    position's instrument or an FX instrument's market is unknown. *)
Fixpoint spec_rollover_sum (timestamp : datetime) s
    (positions : list Position.t) (acc : float) : option float :=
  match positions with
  | [] => Some acc
  | position :: rest =>
      match instruments (static s) !! Position.symbol position with
      | None => None
      | Some instrument =>
          if decide (Instrument.security_type instrument = FOREX) then
            match od_get (Instrument.symbol instrument) (_market s) with
            | None => None
            | Some market =>
                spec_rollover_sum timestamp s rest
                  (acc + spec_position_rollover timestamp s instrument market
                           position)%float
            end
          else spec_rollover_sum timestamp s rest acc
      end
  end.

(** The triple booking of Wednesdays and Fridays. *)
Definition spec_weekday_factor (iso_week_day : Z) (total : float) : float :=
  if (iso_week_day =? 3) || (iso_week_day =? 5) then (total * 3)%float
  else total.

End Specification.
(** ** A test kit: concrete collaborators and scenarios *)

Module TestKit.

(** A small execution engine: it keeps the life-cycle state of every order
    it has seen an event for, a directory of orders, the position held for
    an order, and the account. *)
Record World := mkWorld {
  order_states : odict OrderId OrderState;
  orders : list Order.t;
  positions : odict OrderId Position.t;
  the_account : Account.t }.

Definition next_state (e : Event) : option (OrderId * OrderState) :=
  match e with
  | OrderSubmitted _ order_id _ _ _ => Some (order_id, SUBMITTED)
  | OrderAccepted _ order_id _ _ _ _ _ => Some (order_id, ACCEPTED)
  | OrderRejected _ order_id _ _ _ _ => Some (order_id, REJECTED)
  | OrderWorking _ order_id _ _ _ _ _ _ _ _ _ _ _ _ => Some (order_id, WORKING)
  | OrderExpired _ order_id _ _ _ => Some (order_id, EXPIRED)
  | OrderCancelled _ order_id _ _ _ => Some (order_id, CANCELLED)
  | OrderFilled f => Some (OrderFillEvent.order_id f, FILLED)
  | _ => None
  end.

Definition apply_event (e : Event) (w : World) : World :=
  match next_state e with
  | Some (order_id, st) =>
      {| order_states := od_set order_id st (order_states w);
         orders := orders w;
         positions := positions w;
         the_account := the_account w |}
  | None => w
  end.

#[global] Instance exec_engine : ExecEngineOps World := {|
  handle_event := apply_event;
  get_order w order_id :=
    find (fun o => String.eqb (Order.id o) order_id) (orders w);
  get_position_for_order w order_id := od_get order_id (positions w);
  get_positions_open w := od_values (positions w);
  order_state w o := default INITIALIZED (od_get (Order.id o) (order_states w));
  order_id_broker w o :=
    match od_get (Order.id o) (order_states w) with
    | Some _ => Some ("B" +:+ Order.id o)
    | None => None
    end;
  account := the_account |}.

(** A fill model that always gives the same answers. *)
Record FillModel := mkFillModel {
  slips : bool;
  stop_fills : bool;
  limit_fills : bool }.

#[global] Instance fill_model_ops : FillModelOps FillModel := {|
  is_slipped fm := (slips fm, fm);
  is_stop_filled fm := (stop_fills fm, fm);
  is_limit_filled fm := (limit_fills fm, fm) |}.

#[global] Instance calculators : Calculators := {|
  get_rate _ _ _ _ _ := 1%float;
  commission_calculate _ _ _ _ _ := 2;
  calc_overnight_rate _ _ := (1 / 10000)%float |}.

(** The day of the month of the civil date that lies [days] days after
    1970-01-01. *)
Definition day_of_month (days : Z) : Z :=
  let z := days + 719468 in
  let era := z / 146097 in
  let doe := z - era * 146097 in
  let yoe := (doe - doe / 1460 + doe / 36524 - doe / 146096) / 365 in
  let doy := doe - (365 * yoe + yoe / 4 - yoe / 100) in
  let mp := (5 * doy + 2) / 153 in
  doy - (153 * mp + 2) / 5 + 1.

(** Seconds since 1970-01-01 (a Thursday), in UTC.  The rollover time is
    17:00 on the local mean time of US/Eastern, which is 4 hours 56 minutes
    behind UTC, less 56 minutes: 21:00 UTC. *)
#[global] Instance calendar : Calendar := {|
  day_of t := day_of_month (t / 86400);
  rollover_time_of t :=
    (t / 86400) * 86400 + (17 * 3600 + (4 * 3600 + 56 * 60)) - 56 * 60;
  isoweekday t := (t / 86400 + 3) mod 7 + 1 |}.

Definition float_of_Z (z : Z) : float :=
  if z <? 0 then (- PrimFloat.of_uint63 (Uint63.of_Z (- z)))%float
  else PrimFloat.of_uint63 (Uint63.of_Z z).

(** Rounding to the nearest integer: the floor of [f + 1/2]. *)
Definition round_float (f : float) : Z :=
  match Prim2SF (f + 0.5)%float with
  | S754_finite sign m e =>
      if 0 <=? e then (if sign then - (Z.pos m * 2 ^ e) else Z.pos m * 2 ^ e)
      else if sign then - ((Z.pos m + 2 ^ (- e) - 1) / 2 ^ (- e))
      else Z.pos m / 2 ^ (- e)
  | _ => 0
  end.

(** Prices carry four decimals, money two. *)
#[global] Instance numerics : Numerics := {|
  Price_as_double p := (float_of_Z p / 10000)%float;
  Quantity_as_double q := float_of_Z q;
  Money_of_double f _ := round_float (f * 100)%float;
  str_Quantity q := pretty q;
  str_Price p := match p with Some p => pretty p | None => "None" end;
  str_Symbol symbol := symbol;
  str_OrderId order_id := order_id;
  str_MarketPosition d :=
    match d with FLAT => "FLAT" | LONG => "LONG" | SHORT => "SHORT" end |}.

Definition EURUSD : Instrument.t :=
  {| Instrument.symbol := "EURUSD";
     Instrument.quote_currency := "USD";
     Instrument.security_type := FOREX;
     Instrument.tick_size := 1;
     Instrument.price_precision := 4;
     Instrument.min_stop_distance := 10;
     Instrument.min_limit_distance := 10;
     Instrument.min_trade_size := 1;
     Instrument.max_trade_size := 50000000 |}.

Definition config (frozen : bool) : BacktestConfig.t :=
  {| BacktestConfig.frozen_account := frozen;
     BacktestConfig.starting_capital := 100000000;
     BacktestConfig.account_currency := "USD";
     BacktestConfig.commission_rate_bp := (1 / 5)%float;
     BacktestConfig.short_term_interest_csv_path := "rates.csv" |}.

Definition usd_account : Account.t :=
  {| Account.id := "SIM-000";
     Account.currency := "USD";
     Account.cash_balance := 100000000;
     Account.margin_used_liquidation := 0;
     Account.margin_used_maintenance := 0;
     Account.margin_ratio := 0;
     Account.margin_call_status := "N" |}.

Definition new_order (order_id : OrderId) (side : OrderSide) (type : OrderType)
    (price : option Price) : Order.t :=
  {| Order.id := order_id;
     Order.symbol := "EURUSD";
     Order.side := side;
     Order.type := type;
     Order.quantity := 100000;
     Order.price := price;
     Order.time_in_force := GTC;
     Order.expire_time := None;
     Order.label := "" |}.

Definition buy_stop : Order.t := new_order "O-1" BUY STOP (Some 11020).
Definition buy_stop_at_distance : Order.t := new_order "O-2" BUY STOP (Some 11012).
Definition market_buy : Order.t := new_order "E-1" BUY MARKET None.
Definition stop_loss : Order.t := new_order "SL-1" SELL STOP (Some 10980).
Definition take_profit : Order.t := new_order "TP-1" SELL LIMIT (Some 11050).

Definition sell_limit : Order.t := new_order "L-1" SELL LIMIT (Some 11030).
Definition closing_sell : Order.t := new_order "C-1" SELL MARKET None.

Definition expiring_limit : Order.t :=
  {| Order.id := "X-1";
     Order.symbol := "EURUSD";
     Order.side := BUY;
     Order.type := LIMIT;
     Order.quantity := 100000;
     Order.price := Some 10900;
     Order.time_in_force := GTD;
     Order.expire_time := Some 1060;
     Order.label := "" |}.

(** A long position opened at 1.0990. *)
Definition cheap_long : Position.t :=
  {| Position.id := "P-2";
     Position.symbol := "EURUSD";
     Position.market_position := LONG;
     Position.quantity := 100000;
     Position.average_open_price := (1099 / 1000)%float;
     Position.entry_direction := BUY |}.

Definition long_position : Position.t :=
  {| Position.id := "P-1";
     Position.symbol := "EURUSD";
     Position.market_position := LONG;
     Position.quantity := 100000;
     Position.average_open_price := (11 / 10)%float;
     Position.entry_direction := BUY |}.

Definition database (held : odict OrderId Position.t) : World :=
  {| order_states := od_empty;
     orders := [buy_stop; market_buy; stop_loss; take_profit];
     positions := held;
     the_account := usd_account |}.

(** No slippage, no marginal fills. *)
Definition strict : FillModel :=
  {| slips := false; stop_fills := false; limit_fills := false |}.

(** Every fill slips. *)
Definition slipping : FillModel :=
  {| slips := true; stop_fills := false; limit_fills := false |}.

Definition engine (frozen : bool) (held : odict OrderId Position.t)
  : @State World FillModel :=
  init {["EURUSD" := EURUSD]} (config frozen) strict 0 0 true (database held).

Definition tick (bid ask : Price) (timestamp : datetime) : Tick.t :=
  {| Tick.symbol := "EURUSD"; Tick.bid := bid; Tick.ask := ask;
     Tick.timestamp := timestamp |}.

Definition submit (o : Order.t) : SubmitOrder.t :=
  {| SubmitOrder.trader_id := "T-1";
     SubmitOrder.account_id := "SIM-000";
     SubmitOrder.strategy_id := "S-1";
     SubmitOrder.position_id := "P-1";
     SubmitOrder.order := o;
     SubmitOrder.command_id := 0%nat;
     SubmitOrder.command_timestamp := 0 |}.

Definition submit_bracket : SubmitAtomicOrder.t :=
  {| SubmitAtomicOrder.trader_id := "T-1";
     SubmitAtomicOrder.account_id := "SIM-000";
     SubmitAtomicOrder.strategy_id := "S-1";
     SubmitAtomicOrder.position_id := "P-1";
     SubmitAtomicOrder.atomic_order :=
       {| AtomicOrder.entry := market_buy;
          AtomicOrder.stop_loss := stop_loss;
          AtomicOrder.take_profit := Some take_profit |} |}.

Definition modify_to (quantity : Quantity) (price : Price) : ModifyOrder.t :=
  {| ModifyOrder.account_id := "SIM-000";
     ModifyOrder.order_id := "O-1";
     ModifyOrder.modified_quantity := quantity;
     ModifyOrder.modified_price := price |}.

(** A first tick, then the BUY STOP at 1.1020 is submitted. *)
Definition stop_is_working : list (nat * @Call World FillModel) :=
  [(5%nat, ProcessTick (tick 11000 11002 1000));
   (5%nat, DoSubmitOrder (submit buy_stop))].

(** The ask then touches the stop price exactly. *)
Definition stop_is_touched : list (nat * @Call World FillModel) :=
  stop_is_working ++ [(5%nat, ProcessTick (tick 11018 11020 2000))].

(** A first tick, then a bracket whose MARKET entry fills at once. *)
Definition bracket_is_submitted : list (nat * @Call World FillModel) :=
  [(5%nat, ProcessTick (tick 11000 11002 1000));
   (5%nat, DoSubmitAtomicOrder submit_bracket)].

(** The bracket is working and the bid falls to the stop-loss. *)
Definition stop_loss_is_hit : list (nat * @Call World FillModel) :=
  bracket_is_submitted ++ [(5%nat, ProcessTick (tick 10980 10982 2000))].

(** A SELL LIMIT at 1.1030 is working, the fill model starts to slip and the
    bid rises through the limit. *)
Definition limit_is_crossed : list (nat * @Call World FillModel) :=
  [(5%nat, ProcessTick (tick 11000 11002 1000));
   (5%nat, DoSubmitOrder (submit sell_limit));
   (5%nat, ChangeFillModel slipping);
   (5%nat, ProcessTick (tick 11031 11033 2000))].

(** A limit order good for a minute sees no matching tick for 70 seconds. *)
Definition limit_expires : list (nat * @Call World FillModel) :=
  [(5%nat, ProcessTick (tick 11000 11002 1000));
   (5%nat, DoSubmitOrder (submit expiring_limit));
   (5%nat, ProcessTick (tick 11000 11002 1070))].

(** A MARKET SELL closes the long position opened at 1.0990. *)
Definition position_is_closed : list (nat * @Call World FillModel) :=
  [(5%nat, ProcessTick (tick 11000 11002 1000));
   (5%nat, DoSubmitOrder (submit closing_sell))].

(** The engine states the scenarios reach. *)
Definition after_first_tick : @State World FillModel :=
  run [(5%nat, ProcessTick (tick 11000 11002 1000))] (engine false []).

Definition working_state : @State World FillModel :=
  run stop_is_working (engine false []).

(** One long position of 100,000 EURUSD is open and the mid price is 1.1. *)
Definition holding_state (frozen : bool) : @State World FillModel :=
  run [(5%nat, ProcessTick (tick 10999 11001 1000))]
    (engine frozen [("O-9", long_position)]).

(** The cumulative rollover of that position at one overnight rate. *)
Definition open_rollover : float :=
  Eval vm_compute in
    default 0%float
      (spec_rollover_sum 5000 (holding_state false)
         (get_positions_open (world (holding_state false))) 0%float).

(** The prices of the [OrderFilled] events of an order, oldest first. *)
Definition fill_prices (order_id : OrderId) (l : list Event) : list Price :=
  flat_map (fun e =>
    match e with
    | OrderFilled f =>
        if String.eqb (OrderFillEvent.order_id f) order_id
        then [OrderFillEvent.average_price f] else []
    | _ => []
    end) l.

End TestKit.


(** ** Bar structures *)

Module BarStructure.

Inductive t :=
| UNDEFINED
| TICK
| TICK_IMBALANCE
| VOLUME
| VOLUME_IMBALANCE
| DOLLAR
| DOLLAR_IMBALANCE
| SECOND
| MINUTE
| HOUR
| DAY.

(** The integer of each member of the enum. *)
Definition value (b : t) : Z :=
  match b with
  | UNDEFINED => 0
  | TICK => 1
  | TICK_IMBALANCE => 2
  | VOLUME => 3
  | VOLUME_IMBALANCE => 4
  | DOLLAR => 5
  | DOLLAR_IMBALANCE => 6
  | SECOND => 7
  | MINUTE => 8
  | HOUR => 9
  | DAY => 10
  end.

End BarStructure.

Definition bar_structure_to_string (value : Z) : string :=
  if value =? 1 then "TICK"
  else if value =? 2 then "TICK_IMBALANCE"
  else if value =? 3 then "VOLUME"
  else if value =? 4 then "VOLUME_IMBALANCE"
  else if value =? 5 then "DOLLAR"
  else if value =? 6 then "DOLLAR_IMBALANCE"
  else if value =? 7 then "SECOND"
  else if value =? 8 then "MINUTE"
  else if value =? 9 then "HOUR"
  else if value =? 10 then "DAY"
  else "UNDEFINED".

Definition bar_structure_from_string (value : string) : BarStructure.t :=
  if String.eqb value "TICK" then BarStructure.TICK
  else if String.eqb value "TICK_IMBALANCE" then BarStructure.TICK_IMBALANCE
  else if String.eqb value "VOLUME" then BarStructure.VOLUME
  else if String.eqb value "VOLUME_IMBALANCE" then BarStructure.VOLUME_IMBALANCE
  else if String.eqb value "DOLLAR" then BarStructure.DOLLAR
  else if String.eqb value "DOLLAR_IMBALANCE" then BarStructure.DOLLAR_IMBALANCE
  else if String.eqb value "SECOND" then BarStructure.SECOND
  else if String.eqb value "MINUTE" then BarStructure.MINUTE
  else if String.eqb value "HOUR" then BarStructure.HOUR
  else if String.eqb value "DAY" then BarStructure.DAY
  else BarStructure.UNDEFINED.

(** The names [bar_structure_from_string] knows. *)
Definition bar_structure_names : list string :=
  ["TICK"; "TICK_IMBALANCE"; "VOLUME"; "VOLUME_IMBALANCE"; "DOLLAR";
   "DOLLAR_IMBALANCE"; "SECOND"; "MINUTE"; "HOUR"; "DAY"].

(** ** Further vocabulary for the execution client *)

Section Observations.
Context {W FM : Type}.
Context `{EXEC : !ExecEngineOps W, FILL : !FillModelOps FM}.
Context `{CALC : !Calculators, CAL : !Calendar, NUM : !Numerics}.
Implicit Types (s : @State W FM).

(** The history of [s] continues the history [base]. *)
Definition ledger_from (base : list LedgerEntry) s : Prop :=
  exists l, ledger s = base ++ l.

(** The history of [s] is [l]. *)
Definition ledger_is (l : list LedgerEntry) s : Prop := ledger s = l.

(** No order is working under the identifier [k]. *)
Definition not_working (k : OrderId) s : Prop :=
  od_mem k (_working_orders s) = false.

(** Every working order is stored under its own identifier. *)
Definition keyed_by_id s : Prop :=
  forall k o, od_get k (_working_orders s) = Some o -> Order.id o = k.

(** An [OrderWorking] event for the order [k] is in the log. *)
Definition reported_working (l : list Event) (k : OrderId) : Prop :=
  exists e, e ∈ l /\
    match e with
    | OrderWorking _ order_id _ _ _ _ _ _ _ _ _ _ _ _ => order_id = k
    | _ => False
    end.

(** Every working order has been reported as working. *)
Definition working_reported s : Prop :=
  forall k, od_mem k (_working_orders s) = true ->
    reported_working (events s) k.

(** Nothing has been booked between [s] and [s']. *)
Definition nothing_booked s s' : Prop :=
  account_capital s' = account_capital s
  /\ total_commissions s' = total_commissions s
  /\ total_rollover s' = total_rollover s
  /\ ledger s' = ledger s.

(** The log holds the rejection of [child] that the completion of its OCO
    partner [a] causes. *)
Definition oco_rejection_in (l : list Event) (child a : OrderId) : Prop :=
  exists account_id timestamp event_id event_timestamp,
    OrderRejected account_id child timestamp
      ("OCO order rejected from " +:+ str_OrderId a) event_id event_timestamp
    ∈ l.

(** The rollover of day [d] has been applied and the rollover total stands
    at [r]. *)
Definition rolled_over (d : Z) (r : Money) s : Prop :=
  rollover_applied s = true /\ day_number s = d /\ total_rollover s = r.

(** The calls of day [d]: ticks of that day and anything else but [reset]
    and a call of [apply_rollover_interest] from outside. *)
Definition within_day (d : Z) (c : @Call W FM) : Prop :=
  match c with
  | ProcessTick tick => day_of (Tick.timestamp tick) = d
  | ApplyRolloverInterest _ _ => False
  | DoReset => False
  | _ => True
  end.

(** The minimum distances as one table: a BUY STOP keeps its distance at
    [min_stop] or more above the ask, a BUY LIMIT at [min_limit] or more
    below the bid, a SELL STOP at [min_stop] or more below the bid, a SELL
    LIMIT at [min_limit] or more above the ask; other orders have no price
    to check. *)
Definition keeps_distance (order : Order.t) (price : Price)
    (min_stop min_limit : Decimal) (market : Tick.t) : bool :=
  match Order.side order with
  | BUY =>
      if in_STOP_ORDER_TYPES (Order.type order)
      then Tick.ask market + min_stop <=? price
      else if decide (Order.type order = LIMIT)
      then price <=? Tick.bid market - min_limit
      else true
  | SELL =>
      if in_STOP_ORDER_TYPES (Order.type order)
      then price <=? Tick.bid market - min_stop
      else if decide (Order.type order = LIMIT)
      then Tick.ask market + min_limit <=? price
      else true
  end.

(** The reason a price that is too close is rejected with. *)
Definition distance_reason (order : Order.t) (market : Tick.t) : string :=
  match Order.side order with
  | BUY =>
      if in_STOP_ORDER_TYPES (Order.type order)
      then too_far "BUY STOP" order "ask" (Tick.ask market)
      else too_far "BUY LIMIT" order "bid" (Tick.bid market)
  | SELL =>
      if in_STOP_ORDER_TYPES (Order.type order)
      then too_far "SELL STOP" order "bid" (Tick.bid market)
      else too_far "SELL LIMIT" order "ask" (Tick.ask market)
  end.

(** The exchange rate [adjust_account] asks for. *)
Definition fill_exchange_rate (event : OrderFillEvent.t)
    (instrument : Instrument.t) s : float :=
  get_rate (Instrument.quote_currency instrument)
    (Account.currency (account (world s)))
    (if decide (OrderFillEvent.order_side event = SELL) then BID else ASK)
    (_build_current_bid_rates s) (_build_current_ask_rates s).

(** The points a closing fill gains: the close less the open for a long
    position, the open less the close for a short one. *)
Definition closing_points (direction : MarketPosition)
    (open_price close_price : float) : float :=
  match direction with
  | SHORT => (open_price - close_price)%float
  | _ => (close_price - open_price)%float
  end.

Definition closing_pnl (event : OrderFillEvent.t) (position : Position.t)
    (instrument : Instrument.t) s : Money :=
  Money_of_double
    (closing_points (Position.market_position position)
       (Position.average_open_price position)
       (Price_as_double (OrderFillEvent.average_price event))
     * Quantity_as_double (OrderFillEvent.filled_quantity event)
     * fill_exchange_rate event instrument s)%float
    (account_currency (static s)).

Definition closing_commission (event : OrderFillEvent.t)
    (instrument : Instrument.t) s : Money :=
  commission_calculate (OrderFillEvent.symbol event)
    (OrderFillEvent.filled_quantity event)
    (OrderFillEvent.average_price event)
    (fill_exchange_rate event instrument s) (account_currency (static s)).

End Observations.

(** ** Further fixtures *)

Module Bench.

Definition cancel (order_id : OrderId) : CancelOrder.t :=
  {| CancelOrder.account_id := "SIM-000"; CancelOrder.order_id := order_id |}.

(** The bracket has been submitted and its entry has filled: the stop-loss
    and the take-profit are working as an OCO pair. *)
Definition bracket_state : @State TestKit.World TestKit.FillModel :=
  run TestKit.bracket_is_submitted (TestKit.engine false []).

(** The bracket is held for an entry that has not been processed. *)
Definition pending_bracket : @State TestKit.World TestKit.FillModel :=
  snd (register_atomic_order
         (SubmitAtomicOrder.atomic_order TestKit.submit_bracket)
         TestKit.after_first_tick).

(** A SELL STOP exactly at the minimum distance below the bid of 1.1000. *)
Definition sell_stop_at_distance : Order.t :=
  TestKit.new_order "O-3" SELL STOP (Some 10990).

(** The expiring limit order is working. *)
Definition expiring_state : @State TestKit.World TestKit.FillModel :=
  run [(5%nat, ProcessTick (TestKit.tick 11000 11002 1000));
       (5%nat, DoSubmitOrder (TestKit.submit TestKit.expiring_limit))]
    (TestKit.engine false []).

(** The fill of a MARKET SELL that closes the long position. *)
Definition closing_fill : OrderFillEvent.t :=
  order_filled TestKit.usd_account TestKit.closing_sell 11000 "USD" 1000 7%nat.

Definition flat_position : Position.t :=
  {| Position.id := "P-3";
     Position.symbol := "EURUSD";
     Position.market_position := FLAT;
     Position.quantity := 0;
     Position.average_open_price := 0%float;
     Position.entry_direction := BUY |}.

(** The SELL LIMIT at 1.1030 is working. *)
Definition limit_state : @State TestKit.World TestKit.FillModel :=
  run [(5%nat, ProcessTick (TestKit.tick 11000 11002 1000));
       (5%nat, DoSubmitOrder (TestKit.submit TestKit.sell_limit))]
    (TestKit.engine false []).

(** An order above the maximum trade size of 50,000,000. *)
Definition oversized : Order.t :=
  {| Order.id := "B-1";
     Order.symbol := "EURUSD";
     Order.side := BUY;
     Order.type := STOP;
     Order.quantity := 60000000;
     Order.price := Some 11001;
     Order.time_in_force := GTC;
     Order.expire_time := None;
     Order.label := "" |}.

(** A second bracket that names the stop-loss of the first as its own. *)
Definition second_bracket : SubmitAtomicOrder.t :=
  {| SubmitAtomicOrder.trader_id := "T-1";
     SubmitAtomicOrder.account_id := "SIM-000";
     SubmitAtomicOrder.strategy_id := "S-1";
     SubmitAtomicOrder.position_id := "P-2";
     SubmitAtomicOrder.atomic_order :=
       {| AtomicOrder.entry := TestKit.new_order "E-2" BUY MARKET None;
          AtomicOrder.stop_loss := TestKit.stop_loss;
          AtomicOrder.take_profit :=
            Some (TestKit.new_order "TP-2" SELL LIMIT (Some 11060)) |} |}.

(** The two brackets are submitted one after the other. *)
Definition two_brackets : list (nat * @Call TestKit.World TestKit.FillModel) :=
  [(5%nat, DoSubmitAtomicOrder TestKit.submit_bracket);
   (5%nat, DoSubmitAtomicOrder second_bracket)].

Definition shared_stop_loss : @State TestKit.World TestKit.FillModel :=
  run two_brackets (TestKit.engine false []).

(** What is called on the day of the first tick once its rollover is due. *)
Definition evening : list (nat * @Call TestKit.World TestKit.FillModel) :=
  [(5%nat, ProcessTick (TestKit.tick 11000 11002 81000));
   (5%nat, DoSubmitOrder (TestKit.submit TestKit.buy_stop));
   (5%nat, ProcessTick (TestKit.tick 11018 11020 82000))].

End Bench.

(** * Properties *)

(** ** Dictionaries *)

Section odict_facts.
Context {K V : Type} `{EqDecision K}.
Implicit Types (d : odict K V) (k : K) (v : V).

Lemma od_get_set_eq d k v : od_get k (od_set k v d) = Some v.
Proof.
  induction d as [|[k' v'] d IH]; simpl.
  - now rewrite decide_True.
  - destruct (decide (k = k')) as [->|Hne]; simpl.
    + now rewrite decide_True.
    + now rewrite decide_False.
Qed.

Lemma od_get_set_ne d k k' v : k <> k' -> od_get k' (od_set k v d) = od_get k' d.
Proof.
  intros Hne. induction d as [|[k0 v0] d IH]; simpl.
  - rewrite decide_False; congruence.
  - destruct (decide (k = k0)) as [->|Hk]; simpl.
    + rewrite !decide_False; congruence.
    + destruct (decide (k' = k0)); auto.
Qed.

Lemma od_get_del_eq d k : od_get k (od_del k d) = None.
Proof.
  induction d as [|[k' v'] d IH]; simpl; auto.
  destruct (decide (k = k')) as [->|Hne]; simpl; auto.
  now rewrite decide_False.
Qed.

Lemma od_get_del_ne d k k' : k <> k' -> od_get k' (od_del k d) = od_get k' d.
Proof.
  intros Hne. induction d as [|[k0 v0] d IH]; simpl; auto.
  destruct (decide (k = k0)) as [->|Hk]; simpl.
  - rewrite IH. rewrite decide_False; congruence.
  - destruct (decide (k' = k0)); auto.
Qed.

Lemma od_get_del_Some d k k' v :
  od_get k' (od_del k d) = Some v -> od_get k' d = Some v.
Proof.
  destruct (decide (k = k')) as [->|Hne].
  - now rewrite od_get_del_eq.
  - now rewrite od_get_del_ne.
Qed.

Lemma od_mem_true d k : od_mem k d = true <-> exists v, od_get k d = Some v.
Proof.
  unfold od_mem. destruct (od_get k d); split; eauto; try discriminate.
  intros [? ?]; discriminate.
Qed.

Lemma od_mem_del d k k' : od_mem k' (od_del k d) = true -> od_mem k' d = true.
Proof.
  rewrite !od_mem_true. intros [v Hv]. eauto using od_get_del_Some.
Qed.

Lemma od_mem_set d k k' v :
  od_mem k' (od_set k v d) = true -> k' = k \/ od_mem k' d = true.
Proof.
  destruct (decide (k = k')) as [->|Hne]; auto.
  unfold od_mem. rewrite od_get_set_ne by done. auto.
Qed.

End odict_facts.

(** ** Rules of the program logic *)

Section rules.
Context {S : Type}.
Implicit Types (P E : S -> Prop).

Lemma hoare_ret {A} P E (Q : A -> S -> Prop) (a : A) :
  (forall s, P s -> Q a s) -> hoare P (ret a) Q E.
Proof. intros H s Hs. simpl. auto. Qed.

Lemma hoare_raise {A} P E (Q : A -> S -> Prop) e :
  (forall s, P s -> E s) -> hoare P (raise e) Q E.
Proof. intros H s Hs. simpl. auto. Qed.

Lemma hoare_bind {A B} P E (Q : A -> S -> Prop) (R : B -> S -> Prop)
    (m : M S A) (f : A -> M S B) :
  hoare P m Q E -> (forall a, hoare (Q a) (f a) R E) ->
  hoare P (bind m f) R E.
Proof.
  intros Hm Hf s Hs. unfold bind. specialize (Hm s Hs).
  destruct (m s) as [[a|e] s']; auto. now apply Hf.
Qed.

Lemma hoare_gets {A} P E (f : S -> A) :
  hoare P (gets f) (fun a s => P s /\ a = f s) E.
Proof. intros s Hs. simpl. auto. Qed.

Lemma hoare_modify P E (Q : unit -> S -> Prop) (f : S -> S) :
  (forall s, P s -> Q tt (f s)) -> hoare P (modify f) Q E.
Proof. intros H s Hs. simpl. auto. Qed.

Lemma hoare_conseq {A} (P P' E E' : S -> Prop) (Q Q' : A -> S -> Prop) m :
  hoare P m Q E ->
  (forall s, P' s -> P s) -> (forall a s, Q a s -> Q' a s) ->
  (forall s, E s -> E' s) ->
  hoare P' m Q' E'.
Proof.
  intros H HP HQ HE s Hs. specialize (H s (HP s Hs)).
  destruct (m s) as [[a|e] s']; auto.
Qed.

Lemma hoare_pre {A} (P P' E : S -> Prop) (Q : A -> S -> Prop) m :
  hoare P m Q E -> (forall s, P' s -> P s) -> hoare P' m Q E.
Proof. intros H HP. eapply hoare_conseq; eauto. Qed.

Lemma preserves_ret {A} (I : S -> Prop) (a : A) : preserves I (ret a).
Proof. now apply hoare_ret. Qed.

Lemma preserves_raise {A} (I : S -> Prop) e : preserves I (@raise S A e).
Proof. now apply hoare_raise. Qed.

Lemma preserves_bind {A B} (I : S -> Prop) (m : M S A) (f : A -> M S B) :
  preserves I m -> (forall a, preserves I (f a)) -> preserves I (bind m f).
Proof. intros Hm Hf. eapply hoare_bind; [exact Hm|exact Hf]. Qed.

Lemma preserves_gets {A} (I : S -> Prop) (f : S -> A) : preserves I (gets f).
Proof. intros s Hs. simpl. auto. Qed.

(** A read followed by its continuation: the continuation may use what was
    read. *)
Lemma hoare_gets_bind {A B} P E (R : B -> S -> Prop) (f : S -> A)
    (k : A -> M S B) :
  (forall v, hoare (fun s => P s /\ f s = v) (k v) R E) ->
  hoare P (bind (gets f) k) R E.
Proof. intros H s Hs. unfold bind, gets. now apply (H (f s) s). Qed.

Lemma preserves_modify (I : S -> Prop) (f : S -> S) :
  (forall s, I s -> I (f s)) -> preserves I (modify f).
Proof. intros H. now apply hoare_modify. Qed.

Lemma preserves_unraisable (I : S -> Prop) (m : M S bool) :
  preserves I m -> preserves I (unraisable m).
Proof.
  intros Hm s Hs. specialize (Hm s Hs). unfold unraisable.
  now destruct (m s) as [[b|e] s'].
Qed.

Lemma preserves_getitem {A} (I : S -> Prop) (o : option A) :
  preserves I (getitem o).
Proof. destruct o; [apply preserves_ret|apply preserves_raise]. Qed.

Lemma preserves_not_none {A} (I : S -> Prop) (o : option A) :
  preserves I (not_none o).
Proof. destruct o; [apply preserves_ret|apply preserves_raise]. Qed.

Lemma preserves_for_each {A} (I : S -> Prop) (l : list A) body :
  (forall x, x ∈ l -> preserves I (body x)) -> preserves I (for_each l body).
Proof.
  induction l as [|x l IH]; intros Hb; simpl.
  - apply preserves_ret.
  - apply preserves_bind.
    + apply Hb, list_elem_of_here.
    + intros _. apply IH. intros y Hy. apply Hb. now apply list_elem_of_further.
Qed.

Lemma preserves_fold_each {A B} (I : S -> Prop) (l : list A)
    (body : B -> A -> M S B) b :
  (forall b x, preserves I (body b x)) -> preserves I (fold_each l body b).
Proof.
  intros Hb. revert b. induction l as [|x l IH]; intros b; simpl.
  - apply preserves_ret.
  - apply preserves_bind; auto.
Qed.

End rules.

(** ** Preservation of an invariant by the engine *)

Ltac pres_step :=
  lazymatch goal with
  | |- preserves _ (bind _ _) => apply preserves_bind; [|intros ?]
  | |- preserves _ (ret _) => apply preserves_ret
  | |- preserves _ (raise _) => apply preserves_raise
  | |- preserves _ (unraisable _) => apply preserves_unraisable
  | |- preserves _ (gets _) => apply preserves_gets
  | |- preserves _ (getitem _) => apply preserves_getitem
  | |- preserves _ (not_none _) => apply preserves_not_none
  | |- preserves _ (for_each _ _) => apply preserves_for_each; intros ? ?
  | |- preserves _ (fold_each _ _ _) => apply preserves_fold_each; intros ? ?
  | |- preserves _ (match ?x with _ => _ end) => destruct x
  | |- hoare _ ?m (fun _ => ?J) ?J => change (preserves J m)
  end.

Create HintDb pres discriminated.

Ltac pres := repeat pres_step; eauto with pres.

Section preservation.
Context {W FM : Type}.
Context `{EXEC : !ExecEngineOps W, FILL : !FillModelOps FM}.
Context `{CALC : !Calculators, CAL : !Calendar, NUM : !Numerics}.
Abbreviation State' := (@State W FM).

(** [I] is the invariant; [A o] permits [o] to become a working order. *)
Context (I : State' -> Prop) (A : Order.t -> Prop).
Hypothesis HI : harmless I.
Hypothesis H_book_closing_fill :
  forall pnl commission, preserves I (book_closing_fill pnl commission).
Hypothesis H_book_rollover :
  forall amount, preserves I (book_rollover amount).
Hypothesis H_unlink : forall a b,
  hoare (fun s => I s /\ _oco_orders s !! a = Some b) (unlink_oco a b)
        (fun _ => I) I.
Hypothesis H_work : forall o, A o -> preserves I (work_order o).

Lemma time_now_pres : preserves I time_now.
Proof. apply preserves_gets. Qed.

Lemma the_account_pres : preserves I the_account.
Proof. apply preserves_gets. Qed.

Lemma generate_pres : preserves I generate.
Proof. intros s Hs. simpl. now apply HI. Qed.

Lemma handle_event_pres e : preserves I (exec_engine_handle_event e).
Proof. apply preserves_modify. intros s Hs. now apply (harmless_emitted _ HI). Qed.

Lemma is_slipped_pres : preserves I fill_model_is_slipped.
Proof.
  intros s Hs. unfold fill_model_is_slipped.
  destruct (is_slipped (fill_model s)). now apply HI.
Qed.

Lemma is_stop_filled_pres : preserves I fill_model_is_stop_filled.
Proof.
  intros s Hs. unfold fill_model_is_stop_filled.
  destruct (is_stop_filled (fill_model s)). now apply HI.
Qed.

Lemma is_limit_filled_pres : preserves I fill_model_is_limit_filled.
Proof.
  intros s Hs. unfold fill_model_is_limit_filled.
  destruct (is_limit_filled (fill_model s)). now apply HI.
Qed.

Lemma del_working_orders_pres k : preserves I (del_working_orders k).
Proof.
  unfold del_working_orders. apply hoare_gets_bind. intros d.
  destruct (od_mem k d).
  - intros s [Hs <-]. simpl. now apply HI.
  - apply hoare_raise. tauto.
Qed.

Lemma del_atomic_child_orders_pres k : preserves I (del_atomic_child_orders k).
Proof.
  unfold del_atomic_child_orders. apply hoare_gets_bind. intros d.
  destruct (od_mem k d).
  - intros s [Hs <-]. simpl. now apply HI.
  - apply hoare_raise. tauto.
Qed.

Hint Resolve time_now_pres the_account_pres generate_pres handle_event_pres
  is_slipped_pres is_stop_filled_pres is_limit_filled_pres
  del_working_orders_pres del_atomic_child_orders_pres : pres.

Lemma order_price_pres o : preserves I (order_price o).
Proof. unfold order_price. pres. Qed.

Lemma _reject_oco_order_pres o k : preserves I (_reject_oco_order o k).
Proof. unfold _reject_oco_order. pres. Qed.

Lemma _cancel_oco_order_pres o k : preserves I (_cancel_oco_order o k).
Proof. unfold _cancel_oco_order. pres. Qed.

Hint Resolve order_price_pres _reject_oco_order_pres _cancel_oco_order_pres
  : pres.

Lemma _check_oco_order_pres k : preserves I (_check_oco_order k).
Proof.
  unfold _check_oco_order. apply hoare_gets_bind. intros oco.
  destruct (oco !! k) as [partner|] eqn:Hk.
  - apply hoare_gets_bind. intros oco_order.
    eapply hoare_bind.
    + eapply hoare_pre; [apply (H_unlink k partner)|].
      intros s [[Hs Heq] _]. split; [assumption|]. now rewrite Heq.
    + intros ?. pres.
  - apply hoare_ret. tauto.
Qed.

Lemma _clean_up_child_orders_pres k : preserves I (_clean_up_child_orders k).
Proof. unfold _clean_up_child_orders. pres. Qed.

Hint Resolve _check_oco_order_pres _clean_up_child_orders_pres : pres.

Lemma _reject_order_pres o r : preserves I (_reject_order o r).
Proof. unfold _reject_order. pres. Qed.

Lemma _cancel_reject_order_pres a r1 r2 :
  preserves I (_cancel_reject_order a r1 r2).
Proof. unfold _cancel_reject_order. pres. Qed.

Lemma _expire_order_pres o : preserves I (_expire_order o).
Proof.
  unfold _expire_order. do 4 (apply preserves_bind; [pres|intros ?]).
  apply preserves_bind; [pres|intros atomic].
  apply preserves_bind; [|intros ?; pres].
  destruct (od_get (Order.id o) atomic) as [children|]; [|pres].
  apply preserves_bind; [pres|intros first_child].
  apply hoare_gets_bind. intros oco.
  destruct (oco !! Order.id first_child) as [other|] eqn:Hk.
  - eapply hoare_pre; [apply H_unlink|]. intros s [Hs Heq].
    split; [assumption|]. rewrite Heq. exact Hk.
  - apply hoare_ret. tauto.
Qed.

Hint Resolve _reject_order_pres _cancel_reject_order_pres _expire_order_pres
  : pres.

Lemma invalid_price_pres b o r : preserves I (invalid_price b o r).
Proof. unfold invalid_price. pres. Qed.

Hint Resolve invalid_price_pres : pres.

Lemma _check_valid_price_pres o t b : preserves I (_check_valid_price o t b).
Proof. unfold _check_valid_price. pres. Qed.

Lemma _is_marginal_buy_stop_fill_pres p t :
  preserves I (_is_marginal_buy_stop_fill p t).
Proof. unfold _is_marginal_buy_stop_fill. pres. Qed.

Lemma _is_marginal_buy_limit_fill_pres p t :
  preserves I (_is_marginal_buy_limit_fill p t).
Proof. unfold _is_marginal_buy_limit_fill. pres. Qed.

Lemma _is_marginal_sell_stop_fill_pres p t :
  preserves I (_is_marginal_sell_stop_fill p t).
Proof. unfold _is_marginal_sell_stop_fill. pres. Qed.

Lemma _is_marginal_sell_limit_fill_pres p t :
  preserves I (_is_marginal_sell_limit_fill p t).
Proof. unfold _is_marginal_sell_limit_fill. pres. Qed.

Lemma _accept_order_pres o : preserves I (_accept_order o).
Proof. unfold _accept_order. pres. Qed.

Lemma is_completed_pres o : preserves I (is_completed o).
Proof. apply preserves_gets. Qed.

Hint Resolve _check_valid_price_pres _is_marginal_buy_stop_fill_pres
  _is_marginal_buy_limit_fill_pres _is_marginal_sell_stop_fill_pres
  _is_marginal_sell_limit_fill_pres _accept_order_pres is_completed_pres
  : pres.

Lemma calculate_pnl_pres d o c q x : preserves I (calculate_pnl d o c q x).
Proof. unfold calculate_pnl. pres. Qed.

Hint Resolve calculate_pnl_pres : pres.

Lemma adjust_account_pres e p : preserves I (adjust_account e p).
Proof. unfold adjust_account. pres. Qed.

Lemma rollover_position_pres t acc p : preserves I (rollover_position t acc p).
Proof. unfold rollover_position. pres. Qed.

Hint Resolve adjust_account_pres rollover_position_pres : pres.

Lemma apply_rollover_interest_pres t d :
  preserves I (apply_rollover_interest t d).
Proof. unfold apply_rollover_interest. pres. Qed.

Lemma fill_and_report_pres o p : preserves I (fill_and_report o p).
Proof. unfold fill_and_report. pres. Qed.

Hint Resolve apply_rollover_interest_pres fill_and_report_pres : pres.

Lemma _process_order_with_pres fill o :
  (forall o' p, preserves I (fill o' p)) -> A o ->
  preserves I (_process_order_with fill o).
Proof. intros Hfill HA. unfold _process_order_with. pres. Qed.

Lemma work_atomic_children_pres (HA : forall o, A o) fill o :
  (forall o' p, preserves I (fill o' p)) ->
  preserves I (work_atomic_children (_process_order_with fill) o).
Proof.
  intros Hfill. unfold work_atomic_children. pres.
  apply _process_order_with_pres; auto.
Qed.

(** When every order may become working, the mutual recursion preserves the
    invariant at every depth. *)
Lemma _fill_order_pres (HA : forall o, A o) fuel o p :
  preserves I (_fill_order fuel o p).
Proof.
  revert o p. induction fuel as [|fuel IH]; intros o p; simpl.
  - apply preserves_raise.
  - pres. now apply work_atomic_children_pres.
Qed.

(** *** The callers of [_fill_order] *)

Hypothesis H_fill : forall fuel o p, preserves I (_fill_order fuel o p).
Hypothesis H_day : day_blind I.

Lemma _process_order_pres fuel o : A o -> preserves I (_process_order fuel o).
Proof. intros HA. now apply _process_order_with_pres. Qed.

Lemma fill_working_order_pres fuel o p f :
  preserves I (fill_working_order fuel o p f).
Proof. unfold fill_working_order. pres. Qed.

Hint Resolve fill_working_order_pres : pres.

Lemma check_order_fill_pres fuel t o : preserves I (check_order_fill fuel t o).
Proof. unfold check_order_fill, or_else. pres. Qed.

Lemma check_order_expiry_pres t o : preserves I (check_order_expiry t o).
Proof. unfold check_order_expiry. pres. Qed.

Hint Resolve check_order_fill_pres check_order_expiry_pres : pres.

Lemma simulate_order_pres fuel t now o :
  preserves I (simulate_order fuel t now o).
Proof. unfold simulate_order. pres. Qed.

Lemma new_day_pres now : preserves I (new_day now).
Proof.
  unfold new_day.
  pres; apply preserves_modify; intros s Hs; (now apply HI) || now apply H_day.
Qed.

Hint Resolve simulate_order_pres new_day_pres : pres.

Lemma process_tick_pres fuel t : preserves I (process_tick fuel t).
Proof.
  unfold process_tick.
  pres; apply preserves_modify; intros s Hs; (now apply HI) || now apply H_day.
Qed.

Lemma account_inquiry_pres c : preserves I (account_inquiry c).
Proof. unfold account_inquiry. pres. Qed.

Lemma submit_order_pres fuel c :
  A (SubmitOrder.order c) -> preserves I (submit_order fuel c).
Proof. intros HA. unfold submit_order. pres. now apply _process_order_pres. Qed.

Lemma cancel_order_pres c : preserves I (cancel_order c).
Proof. unfold cancel_order. pres. Qed.

Lemma modify_order_pres c : preserves I (modify_order c).
Proof. unfold modify_order. pres. Qed.

End preservation.

(** ** The callers of the leaves, and runs *)

Section runs.
Context {W FM : Type}.
Context `{EXEC : !ExecEngineOps W, FILL : !FillModelOps FM}.
Context `{CALC : !Calculators, CAL : !Calendar, NUM : !Numerics}.
Context (I : @State W FM -> Prop) (A : Order.t -> Prop).

Lemma preserves_snd {B} (m : M (@State W FM) B) s : preserves I m -> I s -> I (snd (m s)).
Proof.
  intros Hm Hs. specialize (Hm s Hs). destruct (m s) as [[a|e] s']; auto.
Qed.

Hypothesis HI : harmless I.
Hypothesis H_book_closing_fill :
  forall pnl commission, preserves I (book_closing_fill pnl commission).
Hypothesis H_book_rollover :
  forall amount, preserves I (book_rollover amount).
Hypothesis H_unlink : forall a b,
  hoare (fun s => I s /\ _oco_orders s !! a = Some b) (unlink_oco a b)
        (fun _ => I) I.
Hypothesis H_work : forall o, A o -> preserves I (work_order o).
Hypothesis H_fill : forall fuel o p, preserves I (_fill_order fuel o p).
Hypothesis H_reset : preserves I reset.
Hypothesis H_day : day_blind I.

Lemma submit_atomic_order_pres fuel c :
  call_ok I A (DoSubmitAtomicOrder c) ->
  preserves I (submit_atomic_order fuel c).
Proof.
  intros [HA Hreg]. unfold submit_atomic_order.
  apply preserves_bind; [exact Hreg|intros ?].
  apply preserves_bind; [now apply generate_pres|intros ?].
  apply preserves_bind; [apply preserves_gets|intros ?].
  eapply submit_order_pres; eauto.
Qed.

Lemma call_pres fuel c : call_ok I A c -> preserves I (call fuel c).
Proof.
  intros Hc. destruct c; simpl.
  - eapply process_tick_pres; eauto.
  - eapply adjust_account_pres; eauto.
  - eapply apply_rollover_interest_pres; eauto.
  - eapply account_inquiry_pres; eauto.
  - eapply submit_order_pres; eauto.
  - now apply submit_atomic_order_pres.
  - eapply cancel_order_pres; eauto.
  - eapply modify_order_pres; eauto.
  - exact H_reset.
  - apply preserves_modify. intros s Hs. now apply HI.
  - apply preserves_ret.
  - apply preserves_modify. intros s Hs. now apply HI.
Qed.

Lemma run_pres cs s :
  Forall (fun fc => call_ok I A (snd fc)) cs -> I s -> I (run cs s).
Proof.
  revert s. induction cs as [|[fuel c] cs IH]; intros s Hok Hs; simpl; auto.
  inversion Hok as [|? ? Hc Hcs]; subst. apply IH; auto.
  unfold after. apply preserves_snd; auto. now apply call_pres.
Qed.

End runs.

(** ** Leaves of invariants that ignore part of the state *)

Section blind.
Context {W FM : Type}.
Context `{EXEC : !ExecEngineOps W, FILL : !FillModelOps FM}.
Context `{CALC : !Calculators, CAL : !Calendar, NUM : !Numerics}.
Context (I : @State W FM -> Prop).
Hypothesis HI : harmless I.

Lemma book_to_account_blind amount :
  (forall v s, I s -> I (set_account_capital v s)) ->
  preserves I (book_to_account amount).
Proof.
  intros Hcap. unfold book_to_account.
  apply preserves_bind; [apply preserves_modify; auto|intros ?].
  apply preserves_bind; [apply preserves_modify; intros; now apply HI|intros ?].
  pres; eauto using the_account_pres, generate_pres, time_now_pres,
    handle_event_pres.
Qed.

Lemma book_closing_fill_blind pnl commission :
  (forall v s, I s -> I (set_account_capital v s)) ->
  (forall v s, I s -> I (set_total_commissions v s)) ->
  (forall v s, I s -> I (set_ledger v s)) ->
  preserves I (book_closing_fill pnl commission).
Proof.
  intros Hcap Hcom Hled. unfold book_closing_fill.
  apply preserves_bind; [apply preserves_modify; auto|intros ?].
  apply preserves_bind; [apply preserves_modify; auto|intros ?].
  pres; now apply book_to_account_blind.
Qed.

Lemma book_rollover_blind amount :
  (forall v s, I s -> I (set_account_capital v s)) ->
  (forall v s, I s -> I (set_total_rollover v s)) ->
  (forall v s, I s -> I (set_ledger v s)) ->
  preserves I (book_rollover amount).
Proof.
  intros Hcap Hrol Hled. unfold book_rollover.
  apply preserves_bind; [apply preserves_modify; auto|intros ?].
  apply preserves_bind; [apply preserves_modify; auto|intros ?].
  pres; now apply book_to_account_blind.
Qed.

Lemma del_oco_orders_blind k :
  (forall v s, I s -> I (set_oco_orders v s)) ->
  preserves I (del_oco_orders k).
Proof.
  intros Hoco. unfold del_oco_orders. pres.
  apply preserves_modify; auto.
Qed.

Lemma unlink_oco_blind a b :
  (forall v s, I s -> I (set_oco_orders v s)) ->
  hoare (fun s => I s /\ _oco_orders s !! a = Some b) (unlink_oco a b)
        (fun _ => I) I.
Proof.
  intros Hoco. eapply hoare_pre with (P := I); [|tauto].
  unfold unlink_oco. pres; now apply del_oco_orders_blind.
Qed.

Lemma work_order_blind o :
  (forall v s, I s -> I (set_working_orders v s)) ->
  preserves I (work_order o).
Proof.
  intros Hw. unfold work_order.
  apply preserves_bind; [now apply _accept_order_pres|intros ?].
  apply preserves_bind; [apply preserves_modify; auto|intros ?].
  pres; eauto using the_account_pres, generate_pres, time_now_pres,
    handle_event_pres.
Qed.

Lemma register_atomic_order_blind ao :
  (forall v s, I s -> I (set_oco_orders v s)) ->
  (forall v s, I s -> I (set_atomic_child_orders v s)) ->
  preserves I (register_atomic_order ao).
Proof.
  intros Hoco Hat. unfold register_atomic_order.
  pres; apply preserves_modify; auto.
Qed.

End blind.

(** ** C1: the capital identity *)

Section capital.
Context {W FM : Type}.
Context `{EXEC : !ExecEngineOps W, FILL : !FillModelOps FM}.
Context `{CALC : !Calculators, CAL : !Calendar, NUM : !Numerics}.
Implicit Types (s : @State W FM).

Lemma sum_closing_fills_app l l' :
  sum_closing_fills (l ++ l') = sum_closing_fills l + sum_closing_fills l'.
Proof. induction l as [|[]]; simpl; lia. Qed.

Lemma sum_rollovers_app l l' :
  sum_rollovers (l ++ l') = sum_rollovers l + sum_rollovers l'.
Proof. induction l as [|[]]; simpl; lia. Qed.

Lemma sum_commissions_app l l' :
  sum_commissions (l ++ l') = sum_commissions l + sum_commissions l'.
Proof. induction l as [|[]]; simpl; lia. Qed.

Lemma account_inv_harmless st : harmless (account_inv (W:=W) (FM:=FM) st).
Proof. split; intros; assumption. Qed.

Lemma account_inv_day_blind st : day_blind (account_inv (W:=W) (FM:=FM) st).
Proof. split; intros; assumption. Qed.

Lemma account_inv_book_closing_fill st pnl commission :
  preserves (account_inv st) (book_closing_fill (W:=W) (FM:=FM) pnl commission).
Proof.
  intros s (Hst & Hcap & Hrol & Hcom).
  unfold book_closing_fill, book_to_account, bind, modify, gets, the_account,
    generate, time_now, exec_engine_handle_event, account_inv,
    capital_identity, totals_agree in *.
  destruct (frozen_account (static s)) eqn:Hf; simpl; rewrite ?Hf; simpl;
    rewrite ?Hf; repeat split; auto;
    rewrite ?sum_closing_fills_app, ?sum_rollovers_app, ?sum_commissions_app;
    simpl; lia.
Qed.

Lemma account_inv_book_rollover st amount :
  preserves (account_inv st) (book_rollover (W:=W) (FM:=FM) amount).
Proof.
  intros s (Hst & Hcap & Hrol & Hcom).
  unfold book_rollover, book_to_account, bind, modify, gets, the_account,
    generate, time_now, exec_engine_handle_event, account_inv,
    capital_identity, totals_agree in *.
  destruct (frozen_account (static s)) eqn:Hf; simpl; rewrite ?Hf; simpl;
    rewrite ?Hf; repeat split; auto;
    rewrite ?sum_closing_fills_app, ?sum_rollovers_app, ?sum_commissions_app;
    simpl; lia.
Qed.

Lemma account_inv_reset st : preserves (account_inv st) (reset (W:=W) (FM:=FM)).
Proof.
  intros s (Hst & Hcap & Hrol & Hcom).
  unfold reset, modify, account_inv, capital_identity, totals_agree; simpl.
  destruct (frozen_account (static s)); repeat split; auto; lia.
Qed.

Lemma account_inv_call st fuel (c : @Call W FM) :
  preserves (account_inv st) (call fuel c).
Proof.
  set (Inv := account_inv (W:=W) (FM:=FM) st).
  assert (Hh : harmless Inv) by apply account_inv_harmless.
  assert (Hw : forall o : Order.t, True -> preserves Inv (work_order o)).
  { intros o _. apply work_order_blind; auto. }
  assert (Hu : forall a b,
             hoare (fun s => Inv s /\ _oco_orders s !! a = Some b)
               (unlink_oco a b) (fun _ => Inv) Inv).
  { intros. apply unlink_oco_blind; auto. }
  assert (Hbf : forall pnl commission,
             preserves Inv (book_closing_fill pnl commission))
    by apply account_inv_book_closing_fill.
  assert (Hbr : forall amount, preserves Inv (book_rollover amount))
    by apply account_inv_book_rollover.
  assert (Hf : forall fuel o p, preserves Inv (_fill_order fuel o p)).
  { intros. now apply (_fill_order_pres Inv (fun _ => True)). }
  apply (call_pres Inv (fun _ => True) Hh Hbf Hbr Hu Hw Hf).
  - apply account_inv_reset.
  - apply account_inv_day_blind.
  - destruct c; simpl; auto. split; auto.
    apply register_atomic_order_blind; auto.
Qed.

Lemma account_inv_run st cs s : account_inv st s -> account_inv st (run cs s).
Proof.
  revert s. induction cs as [|[fuel c] cs IH]; intros s Hs; simpl; auto.
  apply IH. unfold after. apply preserves_snd; auto. apply account_inv_call.
Qed.

Lemma account_inv_init ins config (fm : FM) clock0 guid0 db (w : W) :
  account_inv (static (init ins config fm clock0 guid0 db w))
    (init ins config fm clock0 guid0 db w).
Proof.
  unfold account_inv, capital_identity, totals_agree; simpl.
  destruct (BacktestConfig.frozen_account config); repeat split; lia.
Qed.

End capital.

(** ** C5: symmetry of the OCO map *)

Section oco.
Context {W FM : Type}.
Context `{EXEC : !ExecEngineOps W, FILL : !FillModelOps FM}.
Context `{CALC : !Calculators, CAL : !Calendar, NUM : !Numerics}.
Implicit Types (s : @State W FM) (m : gmap OrderId OrderId).
Local Abbreviation St := (@State W FM).

Lemma oco_symmetric_partner m a b :
  oco_symmetric m -> m !! a = Some b -> m !! b = Some a /\ a <> b.
Proof.
  intros [Hsym Hirr] Hab. split; [now apply Hsym|].
  intros ->. now apply (Hirr b).
Qed.

Lemma oco_symmetric_intro m :
  (forall a b, m !! a = Some b -> m !! b = Some a /\ a <> b) ->
  oco_symmetric m.
Proof.
  intros H. split.
  - intros a b; split; intros Hab; now apply H in Hab.
  - intros a Ha. apply H in Ha. tauto.
Qed.

Lemma oco_symmetric_empty : oco_symmetric ∅.
Proof. apply oco_symmetric_intro. intros a b. now rewrite lookup_empty. Qed.

(** Removing both ends of a pair. *)
Lemma oco_symmetric_unlink m a b :
  oco_symmetric m -> m !! a = Some b ->
  oco_symmetric (delete b (delete a m)).
Proof.
  intros Hm Hab. destruct (oco_symmetric_partner _ _ _ Hm Hab) as [Hba Hne].
  apply oco_symmetric_intro. intros x y Hxy.
  destruct (decide (x = b)) as [->|Hxb]; [now rewrite lookup_delete_eq in Hxy|].
  rewrite lookup_delete_ne in Hxy by congruence.
  destruct (decide (x = a)) as [->|Hxa]; [now rewrite lookup_delete_eq in Hxy|].
  rewrite lookup_delete_ne in Hxy by congruence.
  destruct (oco_symmetric_partner _ _ _ Hm Hxy) as [Hyx Hxy'].
  split; [|assumption].
  assert (y <> b) by (intros ->; congruence).
  assert (y <> a) by (intros ->; congruence).
  now rewrite !lookup_delete_ne by congruence.
Qed.

(** Entering a pair of two different identifiers that the map does not
    hold. *)
Lemma oco_symmetric_link m sl tp :
  oco_symmetric m -> sl <> tp -> m !! sl = None -> m !! tp = None ->
  oco_symmetric (<[sl := tp]> (<[tp := sl]> m)).
Proof.
  intros Hm Hne Hsl Htp. apply oco_symmetric_intro. intros x y Hxy.
  destruct (decide (x = sl)) as [->|Hxsl].
  - rewrite lookup_insert_eq in Hxy. injection Hxy as <-.
    rewrite lookup_insert_ne by congruence. rewrite lookup_insert_eq. auto.
  - rewrite lookup_insert_ne in Hxy by congruence.
    destruct (decide (x = tp)) as [->|Hxtp].
    + rewrite lookup_insert_eq in Hxy. injection Hxy as <-.
      rewrite lookup_insert_eq. auto.
    + rewrite lookup_insert_ne in Hxy by congruence.
      destruct (oco_symmetric_partner _ _ _ Hm Hxy) as [Hyx Hxy'].
      split; [|assumption].
      assert (y <> sl) by (intros ->; congruence).
      assert (y <> tp) by (intros ->; congruence).
      now rewrite !lookup_insert_ne by congruence.
Qed.

Lemma oco_inv_harmless X : harmless (oco_inv (W:=W) (FM:=FM) X).
Proof. split; intros; assumption. Qed.

Lemma oco_inv_day_blind X : day_blind (oco_inv (W:=W) (FM:=FM) X).
Proof. split; intros; assumption. Qed.

Lemma oco_inv_unlink X a b :
  hoare (S:=St) (fun s => oco_inv X s /\ _oco_orders s !! a = Some b)
        (unlink_oco a b) (fun _ => oco_inv X) (oco_inv X).
Proof.
  intros s [[Hm HX] Hab].
  destruct (oco_symmetric_partner _ _ _ Hm Hab) as [Hba Hne].
  unfold unlink_oco, del_oco_orders, bind, gets, modify. rewrite Hab. simpl.
  rewrite lookup_delete_ne by congruence. rewrite Hba. simpl. split.
  - now apply oco_symmetric_unlink.
  - intros k Hk. specialize (HX k Hk). simpl.
    destruct (decide (k = b)) as [->|]; [apply lookup_delete_eq|].
    rewrite lookup_delete_ne by congruence.
    destruct (decide (k = a)) as [->|]; [apply lookup_delete_eq|].
    now rewrite lookup_delete_ne by congruence.
Qed.

Lemma oco_inv_reset X : preserves (oco_inv X) (reset (W:=W) (FM:=FM)).
Proof.
  intros s _. unfold reset, modify, oco_inv; simpl. split.
  - apply oco_symmetric_empty.
  - intros. apply lookup_empty.
Qed.

Lemma oco_inv_weaken X Y s :
  (forall k, k ∈ Y -> k ∈ X) -> oco_inv X s -> oco_inv Y s.
Proof. intros Hsub [Hm HX]. split; auto. Qed.

(** Registering an atomic order whose OCO identifiers are new. *)
Lemma oco_inv_register X (command : SubmitAtomicOrder.t) :
  NoDup (oco_ids_of_atomic command ++ X) ->
  hoare (S:=St) (oco_inv (oco_ids_of_atomic command ++ X))
        (register_atomic_order (SubmitAtomicOrder.atomic_order command))
        (fun _ => oco_inv X) (oco_inv X).
Proof.
  intros Hnd s [Hm HX]. revert Hnd HX.
  unfold register_atomic_order, oco_ids_of_atomic, bind, modify, ret, oco_inv.
  destruct (AtomicOrder.take_profit (SubmitAtomicOrder.atomic_order command))
    as [tp|]; simpl; intros Hnd HX.
  - set (sl := AtomicOrder.stop_loss (SubmitAtomicOrder.atomic_order command))
      in *.
    apply NoDup_cons in Hnd as [Htp Hnd]. apply NoDup_cons in Hnd as [Hsl Hnd].
    assert (Hne : Order.id sl <> Order.id tp).
    { intros E. apply Htp. rewrite E. apply list_elem_of_here. }
    split.
    + apply oco_symmetric_link; auto.
      * apply HX. apply list_elem_of_further, list_elem_of_here.
      * apply HX. apply list_elem_of_here.
    + intros k Hk.
      assert (k <> Order.id tp).
      { intros ->. apply Htp. now apply list_elem_of_further. }
      assert (k <> Order.id sl) by (intros ->; auto).
      rewrite !lookup_insert_ne by congruence.
      apply HX. now do 2 apply list_elem_of_further.
  - split; auto.
Qed.

Section family.
Context (X : list OrderId).
Local Abbreviation Inv := (oco_inv (W:=W) (FM:=FM) X).

Lemma oco_inv_book_closing_fill pnl commission :
  preserves Inv (book_closing_fill pnl commission).
Proof. apply book_closing_fill_blind; auto. apply oco_inv_harmless. Qed.

Lemma oco_inv_book_rollover amount : preserves Inv (book_rollover amount).
Proof. apply book_rollover_blind; auto. apply oco_inv_harmless. Qed.

Lemma oco_inv_work_order (o : Order.t) : True -> preserves Inv (work_order o).
Proof. intros _. apply work_order_blind; auto. apply oco_inv_harmless. Qed.

Lemma oco_inv_check_oco_order k : preserves Inv (_check_oco_order k).
Proof.
  apply (_check_oco_order_pres Inv); auto using oco_inv_harmless, oco_inv_unlink.
Qed.

Lemma oco_inv_expire_order o : preserves Inv (_expire_order o).
Proof.
  apply (_expire_order_pres Inv); auto using oco_inv_harmless, oco_inv_unlink.
Qed.

Lemma oco_inv_fill_order fuel o p : preserves Inv (_fill_order fuel o p).
Proof.
  apply (_fill_order_pres Inv (fun _ => True));
    auto using oco_inv_harmless, oco_inv_unlink, oco_inv_book_closing_fill,
      oco_inv_book_rollover, oco_inv_work_order.
Qed.

Lemma oco_inv_submit_order fuel c : preserves Inv (submit_order fuel c).
Proof.
  apply (submit_order_pres Inv (fun _ => True));
    auto using oco_inv_harmless, oco_inv_unlink, oco_inv_work_order,
      oco_inv_fill_order.
Qed.

Lemma oco_inv_submit_atomic_rest fuel (command : SubmitAtomicOrder.t) :
  preserves Inv
    (command_id <- generate ;;
     now <- time_now ;;
     submit_order fuel
       {| SubmitOrder.trader_id := SubmitAtomicOrder.trader_id command;
          SubmitOrder.account_id := SubmitAtomicOrder.account_id command;
          SubmitOrder.strategy_id := SubmitAtomicOrder.strategy_id command;
          SubmitOrder.position_id := SubmitAtomicOrder.position_id command;
          SubmitOrder.order :=
            AtomicOrder.entry (SubmitAtomicOrder.atomic_order command);
          SubmitOrder.command_id := command_id;
          SubmitOrder.command_timestamp := now |}).
Proof.
  apply preserves_bind; [apply generate_pres, oco_inv_harmless|intros ?].
  apply preserves_bind; [apply preserves_gets|intros ?].
  apply oco_inv_submit_order.
Qed.

(** Every call other than an atomic submission keeps the invariant. *)
Lemma oco_inv_call fuel (c : @Call W FM) :
  match c with DoSubmitAtomicOrder _ => False | _ => True end ->
  preserves Inv (call fuel c).
Proof.
  intros Hc.
  apply (call_pres Inv (fun _ => True) (oco_inv_harmless X)
           oco_inv_book_closing_fill oco_inv_book_rollover (oco_inv_unlink X)
           oco_inv_work_order oco_inv_fill_order (oco_inv_reset X)
           (oco_inv_day_blind X)).
  destruct c; simpl; auto. contradiction.
Qed.

End family.

(** An atomic submission whose OCO identifiers are new. *)
Lemma oco_inv_submit_atomic_order X fuel (command : SubmitAtomicOrder.t) :
  NoDup (oco_ids_of_atomic command ++ X) ->
  hoare (S:=St) (oco_inv (oco_ids_of_atomic command ++ X))
        (submit_atomic_order fuel command) (fun _ => oco_inv X) (oco_inv X).
Proof.
  intros Hnd. unfold submit_atomic_order.
  eapply hoare_bind; [now apply oco_inv_register|intros ?].
  apply oco_inv_submit_atomic_rest.
Qed.

Lemma oco_inv_after fuel (c : @Call W FM) X s :
  NoDup (oco_ids_of c ++ X) -> oco_inv (oco_ids_of c ++ X) s ->
  oco_inv X (after fuel c s).
Proof.
  intros Hnd Hs. unfold after.
  destruct c;
    try (apply (preserves_snd (oco_inv X)); [now apply oco_inv_call|exact Hs]).
  simpl in *. pose proof (oco_inv_submit_atomic_order X fuel command Hnd s Hs) as H.
  destruct (submit_atomic_order fuel command s) as [[?|?] ?]; exact H.
Qed.

Lemma oco_inv_init X ins config (fm : FM) clock0 guid0 db (w : W) :
  oco_inv X (init ins config fm clock0 guid0 db w).
Proof.
  split; simpl; [apply oco_symmetric_empty|intros; apply lookup_empty].
Qed.

Lemma oco_inv_nil s : oco_inv [] s <-> oco_symmetric (_oco_orders s).
Proof.
  split; [now intros [? _]|]. intros Hm. split; auto.
  intros k Hk. now apply elem_of_nil in Hk.
Qed.

(** A run whose atomic submissions enter new identifiers keeps the OCO map
    symmetric. *)
Lemma oco_symmetric_run cs s :
  new_oco_ids cs s = true -> oco_symmetric (_oco_orders s) ->
  oco_symmetric (_oco_orders (run cs s)).
Proof.
  revert s. induction cs as [|[fuel c] cs IH]; intros s Hnew Hs; simpl; auto.
  simpl in Hnew. apply andb_prop in Hnew as [Hnew Hrest].
  apply andb_prop in Hnew as [Hnd Hfresh].
  apply bool_decide_eq_true in Hnd. apply IH; auto.
  apply oco_inv_nil. apply (oco_inv_after fuel c []).
  - now rewrite app_nil_r.
  - split; auto. intros k Hk. rewrite app_nil_r in Hk.
    apply list_elem_of_In in Hk.
    apply (proj1 (forallb_forall _ _) Hfresh) in Hk.
    now apply bool_decide_eq_true in Hk.
Qed.

(** Identifiers that are entered once in the whole run are new each time. *)
Lemma new_oco_ids_distinct cs s :
  NoDup (oco_ids cs) -> oco_inv (oco_ids cs) s -> new_oco_ids cs s = true.
Proof.
  revert s. induction cs as [|[fuel c] cs IH]; intros s Hnd Hs; simpl; auto.
  simpl in Hnd, Hs. rewrite IH.
  - rewrite andb_true_r. apply andb_true_intro. split.
    + apply bool_decide_eq_true. now apply NoDup_app in Hnd as (? & _ & _).
    + apply forallb_forall. intros k Hk. apply bool_decide_eq_true.
      apply Hs. apply elem_of_app. left. now apply list_elem_of_In.
  - now apply NoDup_app in Hnd as (_ & _ & Hnd).
  - now apply oco_inv_after.
Qed.

(** C5. OCO map symmetry.  When each atomic submission of a run enters a
    stop-loss and a take-profit identifier that differ and are not in the
    OCO map at that time, the OCO map of the state the run reaches is
    symmetric and has no self-pair.  The operations that change the map keep
    it so: [_check_oco_order] and [_expire_order] always,
    [submit_atomic_order] when its two identifiers differ and are not in the
    map. *)
Theorem oco_symmetry_reachable
    ins config (fm : FM) clock0 guid0 db (w : W) cs :
  new_oco_ids cs (init ins config fm clock0 guid0 db w) = true ->
  oco_symmetric (_oco_orders (run cs (init ins config fm clock0 guid0 db w)))
  /\ (forall order_id,
        preserves (S:=St) (fun s => oco_symmetric (_oco_orders s))
          (_check_oco_order order_id))
  /\ (forall order,
        preserves (S:=St) (fun s => oco_symmetric (_oco_orders s))
          (_expire_order order))
  /\ (forall fuel command,
        NoDup (oco_ids_of_atomic command) ->
        hoare (S:=St)
          (fun s => oco_symmetric (_oco_orders s)
                    /\ forall k, k ∈ oco_ids_of_atomic command ->
                                 _oco_orders s !! k = None)
          (submit_atomic_order fuel command)
          (fun _ s => oco_symmetric (_oco_orders s))
          (fun s => oco_symmetric (_oco_orders s))).
Proof.
  intros Hnew.
  split; [|split; [|split]].
  - apply oco_symmetric_run; auto. apply (oco_inv_init []).
  - intros order_id s Hs. apply oco_inv_nil in Hs.
    pose proof (oco_inv_check_oco_order [] order_id s Hs) as H.
    destruct (_check_oco_order order_id s) as [[?|?] ?];
      exact (proj1 H).
  - intros order s Hs. apply oco_inv_nil in Hs.
    pose proof (oco_inv_expire_order [] order s Hs) as H.
    destruct (_expire_order order s) as [[?|?] ?];
      exact (proj1 H).
  - intros fuel command Hnd' s [Hs Hfresh].
    assert (Hpre : oco_inv (oco_ids_of_atomic command ++ []) s).
    { split; auto. intros k Hk. rewrite app_nil_r in Hk. auto. }
    rewrite <- (app_nil_r (oco_ids_of_atomic command)) in Hnd'.
    pose proof (oco_inv_submit_atomic_order [] fuel command Hnd' s Hpre) as H.
    destruct (submit_atomic_order fuel command s) as [[?|?] ?];
      exact (proj1 H).
Qed.

End oco.
(** ** C6: confinement of atomic child orders *)

Section confinement.
Context {W FM : Type}.
Context `{EXEC : !ExecEngineOps W, FILL : !FillModelOps FM}.
Context `{CALC : !Calculators, CAL : !Calendar, NUM : !Numerics}.
Implicit Types (s : @State W FM) (F : list Event -> Prop).
Local Abbreviation St := (@State W FM).

Context (D : OrderId -> Prop) (PC : OrderId -> OrderId -> Prop).

Lemma filled_in_app l e p : filled_in l p -> filled_in (l ++ [e]) p.
Proof.
  intros (f & Hf & Hp). exists f. split; auto.
  apply elem_of_app. now left.
Qed.

Lemma allowed_app l e k : allowed D PC l k -> allowed D PC (l ++ [e]) k.
Proof.
  intros [Hd|(p & Hpc & Hf)]; [now left|right].
  exists p. split; auto using filled_in_app.
Qed.

Lemma lasting_and F p : lasting F -> lasting (fun l => F l /\ filled_in l p).
Proof. intros HF l e [Hl Hp]. split; auto using filled_in_app. Qed.

Lemma confined_harmless F : lasting F -> harmless (confined (W:=W) (FM:=FM) D PC F).
Proof.
  intros HF. split; try (intros; assumption).
  - intros e s (Hw & Hc & Hf). repeat split; simpl; auto using allowed_app.
  - intros k s (Hw & Hc & Hf). repeat split; simpl; auto.
    intros k' Hk'. apply Hw. eauto using od_mem_del.
  - intros k s (Hw & Hc & Hf). repeat split; simpl; auto.
    intros p children child Hp. apply Hc. eauto using od_get_del_Some.
Qed.

Lemma confined_day_blind F : day_blind (confined (W:=W) (FM:=FM) D PC F).
Proof. split; intros; assumption. Qed.

Lemma confined_weaken F F' s :
  (forall l, F l -> F' l) -> confined D PC F s -> confined D PC F' s.
Proof. intros HFF (Hw & Hc & Hf). repeat split; auto. Qed.

Section family.
Context (F : list Event -> Prop) (HF : lasting F).
Local Abbreviation Inv := (confined (W:=W) (FM:=FM) D PC F).

Lemma confined_book_closing_fill pnl commission :
  preserves Inv (book_closing_fill pnl commission).
Proof. apply book_closing_fill_blind; auto. now apply confined_harmless. Qed.

Lemma confined_book_rollover amount : preserves Inv (book_rollover amount).
Proof. apply book_rollover_blind; auto. now apply confined_harmless. Qed.

Lemma confined_unlink a b :
  hoare (S:=St) (fun s => Inv s /\ _oco_orders s !! a = Some b)
        (unlink_oco a b) (fun _ => Inv) Inv.
Proof. apply unlink_oco_blind; auto. Qed.

Lemma confined_work_order (o : Order.t) :
  admits D PC F o -> preserves Inv (work_order o).
Proof.
  intros Ho. pose proof (confined_harmless F HF) as Hh. unfold work_order.
  apply preserves_bind; [now apply _accept_order_pres|intros ?].
  apply preserves_bind.
  - apply preserves_modify. intros s (Hw & Hc & Hf). repeat split; simpl; auto.
    intros k Hk. apply od_mem_set in Hk as [->|Hk]; auto.
  - intros ?. pres; eauto using the_account_pres, generate_pres,
      time_now_pres, handle_event_pres.
Qed.

Lemma confined_reset : preserves Inv reset.
Proof.
  intros s (Hw & Hc & Hf). unfold reset, modify. repeat split; simpl; auto;
    discriminate.
Qed.

Lemma confined_process_order_with fill (o : Order.t) :
  (forall o' p, preserves Inv (fill o' p)) -> admits D PC F o ->
  preserves Inv (_process_order_with fill o).
Proof.
  intros Hfill Ho.
  apply (_process_order_with_pres Inv (admits D PC F));
    auto using confined_harmless, confined_book_closing_fill,
      confined_book_rollover, confined_unlink, confined_work_order.
Qed.

Lemma confined_fill_and_report_prefix (o : Order.t) (p : Price) :
  preserves Inv (_check_oco_order (Order.id o)).
Proof.
  apply (_check_oco_order_pres Inv);
    auto using confined_harmless, confined_unlink.
Qed.

Lemma confined_adjust_account e pos : preserves Inv (adjust_account e pos).
Proof.
  apply (adjust_account_pres Inv);
    auto using confined_harmless, confined_book_closing_fill.
Qed.

End family.

(** After [fill_and_report] the log holds the fill of the order. *)
Lemma confined_fill_and_report F (o : Order.t) (p : Price) :
  lasting F ->
  hoare (S:=St) (confined D PC F) (fill_and_report o p)
        (fun _ => confined D PC (fun l => F l /\ filled_in l (Order.id o)))
        (confined D PC F).
Proof.
  intros HF. pose proof (confined_harmless F HF) as Hh.
  set (F' := fun l => F l /\ filled_in l (Order.id o)).
  assert (HF' : lasting F') by now apply lasting_and.
  unfold fill_and_report.
  do 6 (eapply hoare_bind;
        [first [apply preserves_gets | now apply the_account_pres
               | apply preserves_getitem | now apply generate_pres]
        |intros ?]).
  eapply hoare_bind with (Q := fun _ => confined D PC F).
  { pres. now apply confined_adjust_account. }
  intros ?. eapply hoare_bind with (Q := fun _ => confined D PC F').
  - apply hoare_modify. intros s (Hw & Hc & Hf).
    repeat split; simpl; auto using allowed_app.
    eexists. split; [apply elem_of_app; right; apply list_elem_of_here|].
    reflexivity.
  - intros ?. eapply hoare_conseq.
    + now apply (confined_fill_and_report_prefix F' HF' o p).
    + auto.
    + auto.
    + intros s. apply confined_weaken. unfold F'. tauto.
Qed.

Lemma confined_fill_order fuel : forall F (o : Order.t) (p : Price),
  lasting F -> preserves (S:=St) (confined D PC F) (_fill_order fuel o p).
Proof.
  induction fuel as [|fuel IH]; intros F o p HF; simpl.
  - apply preserves_raise.
  - set (F' := fun l => F l /\ filled_in l (Order.id o)).
    assert (HF' : lasting F') by now apply lasting_and.
    pose proof (confined_harmless F' HF') as Hh'.
    eapply hoare_bind; [now apply confined_fill_and_report|intros ?].
    eapply hoare_conseq with (P := confined D PC F')
      (Q := fun _ => confined D PC F') (E := confined D PC F'); auto;
      try (intros; eapply confined_weaken; [|eassumption]; unfold F'; tauto).
    unfold work_atomic_children. apply hoare_gets_bind. intros atomic.
    destruct (od_get (Order.id o) atomic) as [children|] eqn:Hget.
    + eapply hoare_bind with (Q := fun _ => confined D PC F').
      * intros s [Hs Hat]. revert s Hs Hat.
        assert (Hch : forall child, child ∈ children ->
                  PC (Order.id o) (Order.id child) ->
                  preserves (S:=St) (confined D PC F')
                    (completed <- is_completed child ;;
                     if negb completed
                     then _process_order_with (_fill_order fuel) child
                     else ret tt)).
        { intros child Hin Hpc. pres; [now apply is_completed_pres|].
          apply confined_process_order_with; auto.
          intros l [_ Hfilled]. right. eauto. }
        intros s Hs Hat.
        assert (Hall : forall child, child ∈ children ->
                  PC (Order.id o) (Order.id child)).
        { intros child Hin. destruct Hs as (_ & Hc & _).
          eapply Hc; eauto. now rewrite Hat. }
        apply (preserves_for_each (confined D PC F') children); auto.
      * intros ?. now apply del_atomic_child_orders_pres.
    + apply hoare_ret. tauto.
Qed.

End confinement.
Section confinement_runs.
Context {W FM : Type}.
Context `{EXEC : !ExecEngineOps W, FILL : !FillModelOps FM}.
Context `{CALC : !Calculators, CAL : !Calendar, NUM : !Numerics}.
Implicit Types (s : @State W FM).
Local Abbreviation St := (@State W FM).

Lemma lasting_True : lasting (fun _ => True).
Proof. intros l e _. exact Logic.I. Qed.

Section of_a_run.
Context (cs : list (nat * @Call W FM)).
Local Abbreviation D := (fun k => k ∈ direct_ids cs).
Local Abbreviation PC := (fun p k => (p, k) ∈ parent_child cs).
Local Abbreviation Inv := (confined (W:=W) (FM:=FM) D PC (fun _ => True)).

Lemma direct_ids_intro fc k : fc ∈ cs -> k ∈ direct_ids_of (snd fc) -> D k.
Proof.
  intros Hfc Hk. unfold direct_ids. apply list_elem_of_In, in_flat_map.
  exists fc. split; now apply list_elem_of_In.
Qed.

Lemma parent_child_intro fc pk :
  fc ∈ cs -> pk ∈ parent_child_of (snd fc) -> pk ∈ parent_child cs.
Proof.
  intros Hfc Hk. unfold parent_child. apply list_elem_of_In, in_flat_map.
  exists fc. split; now apply list_elem_of_In.
Qed.

Lemma confined_register fuel command :
  (fuel, DoSubmitAtomicOrder command) ∈ cs ->
  preserves Inv
    (register_atomic_order (SubmitAtomicOrder.atomic_order command)).
Proof.
  intros Hin. unfold register_atomic_order.
  assert (Hch : forall child, child ∈ children_of command ->
            PC (Order.id (AtomicOrder.entry
                            (SubmitAtomicOrder.atomic_order command)))
               (Order.id child)).
  { intros child Hc. apply (parent_child_intro _ _ Hin).
    cbn [snd parent_child_of]. apply list_elem_of_In, in_map_iff.
    exists child. split; [reflexivity|now apply list_elem_of_In]. }
  intros s (Hw & Hc & Hf). unfold bind, modify, ret.
  destruct (AtomicOrder.take_profit (SubmitAtomicOrder.atomic_order command))
    as [tp|] eqn:Htp; simpl; repeat split; auto;
    intros p children child Hp Hchild; simpl in Hp;
    (destruct (decide (Order.id (AtomicOrder.entry
                 (SubmitAtomicOrder.atomic_order command)) = p)) as [<-|Hne];
     [rewrite od_get_set_eq in Hp; injection Hp as <-; apply Hch;
      unfold children_of; rewrite Htp; exact Hchild
     |rewrite od_get_set_ne in Hp by assumption; eauto]).
Qed.

Lemma confined_call_ok fc :
  fc ∈ cs -> call_ok Inv (admits D PC (fun _ => True)) (snd fc).
Proof.
  intros Hin. destruct fc as [fuel c]. destruct c; simpl; auto.
  - intros l _. left. apply (direct_ids_intro _ _ Hin). simpl.
    apply list_elem_of_here.
  - split.
    + intros l _. left. apply (direct_ids_intro _ _ Hin). simpl.
      apply list_elem_of_here.
    + now apply (confined_register fuel).
Qed.

Lemma confined_run cs1 s :
  (forall fc, fc ∈ cs1 -> fc ∈ cs) -> Inv s -> Inv (run cs1 s).
Proof.
  intros Hsub. pose proof lasting_True as HT.
  apply (run_pres Inv (admits D PC (fun _ => True)));
    auto using confined_harmless, confined_book_closing_fill,
      confined_book_rollover, confined_unlink, confined_work_order,
      confined_reset, confined_fill_order, confined_day_blind.
  apply Forall_forall. intros fc Hfc. apply confined_call_ok. auto.
Qed.

End of_a_run.

(** When [_fill_order] returns, the bracket of the order is gone. *)
Lemma work_atomic_children_discards process (o : Order.t) :
  hoare (S:=St) (fun _ => True) (work_atomic_children process o)
        (fun _ s => od_mem (Order.id o) (_atomic_child_orders s) = false)
        (fun _ => True).
Proof.
  unfold work_atomic_children. apply hoare_gets_bind. intros atomic.
  destruct (od_get (Order.id o) atomic) as [children|] eqn:Hget.
  - eapply hoare_bind with (Q := fun _ _ => True).
    + intros s _. now destruct (for_each _ _ s) as [[?|?] ?].
    + intros ?. unfold del_atomic_child_orders. apply hoare_gets_bind.
      intros d. destruct (od_mem (Order.id o) d).
      * apply hoare_modify. intros s _. simpl. unfold od_mem.
        now rewrite od_get_del_eq.
      * now apply hoare_raise.
  - apply hoare_ret. intros s [_ ->]. unfold od_mem. now rewrite Hget.
Qed.

Lemma _fill_order_discards fuel (o : Order.t) (p : Price) s :
  fst (_fill_order fuel o p s) = Ok tt ->
  od_mem (Order.id o) (_atomic_child_orders (snd (_fill_order fuel o p s)))
  = false.
Proof.
  destruct fuel as [|fuel]; [discriminate|].
  replace (_fill_order (S fuel) o p s) with
    (match fill_and_report o p s with
     | (Ok _, s1) =>
         work_atomic_children (_process_order_with (_fill_order fuel)) o s1
     | (Raise e, s1) => (Raise e, s1)
     end) by reflexivity.
  destruct (fill_and_report o p s) as [[[]|e] s1]; [|discriminate].
  pose proof (work_atomic_children_discards
                (_process_order_with (_fill_order fuel)) o s1 Logic.I) as H.
  destruct (work_atomic_children _ o s1) as [[[]|e] s2]; simpl;
    [intros _; exact H|discriminate].
Qed.

(** C6. Atomic child confinement.  Take a run in which no child of an atomic
    submission is also submitted in its own right (as the order of
    [submit_order] or as the entry of [submit_atomic_order]).  In every state
    the run passes through, a working order that is such a child has a parent
    whose [OrderFilled] event was already delivered.  When the parent fills,
    [_fill_order] hands each child that is not completed to [_process_order],
    the function [submit_order] uses, and if it returns the bracket is no
    longer in [_atomic_child_orders]. *)
Theorem atomic_child_confinement
    ins config (fm : FM) clock0 guid0 db (w : W) cs1 cs2 :
  let cs := cs1 ++ cs2 in
  let s := run cs1 (init ins config fm clock0 guid0 db w) in
  (forall k, k ∈ child_ids cs -> k ∉ direct_ids cs) ->
  (forall k, k ∈ child_ids cs -> od_mem k (_working_orders s) = true ->
     exists p, (p, k) ∈ parent_child cs /\ filled_in (events s) p)
  /\ (forall fuel o p,
        _fill_order (W:=W) (FM:=FM) (S fuel) o p
        = (fill_and_report o p ;;
           atomic <- gets _atomic_child_orders ;;
           match od_get (Order.id o) atomic with
           | Some children =>
               for_each children (fun child_order =>
                 completed <- is_completed child_order ;;
                 if negb completed then _process_order fuel child_order
                 else ret tt) ;;
               del_atomic_child_orders (Order.id o)
           | None => ret tt
           end))
  /\ (forall fuel o p s0,
        fst (_fill_order (W:=W) (FM:=FM) fuel o p s0) = Ok tt ->
        od_mem (Order.id o)
          (_atomic_child_orders (snd (_fill_order fuel o p s0))) = false).
Proof.
  intros cs s Hsep. repeat split.
  - intros k Hchild Hworking.
    assert (Hinv : confined (fun k => k ∈ direct_ids cs)
                     (fun p k => (p, k) ∈ parent_child cs) (fun _ => True) s).
    { apply confined_run.
      - intros fc Hfc. apply elem_of_app. now left.
      - repeat split; simpl; auto; discriminate. }
    destruct Hinv as (Hw & _ & _).
    destruct (Hw k Hworking) as [Hd|Hp]; [|exact Hp].
    now apply Hsep in Hd.
  - intros. apply _fill_order_discards. assumption.
Qed.

End confinement_runs.
(** ** The event log only grows *)

Section log.
Context {W FM : Type}.
Context `{EXEC : !ExecEngineOps W, FILL : !FillModelOps FM}.
Context `{CALC : !Calculators, CAL : !Calendar, NUM : !Numerics}.
Implicit Types (s : @State W FM).
Local Abbreviation St := (@State W FM).

Lemma emitted_first_harmless base e :
  harmless (emitted_first (W:=W) (FM:=FM) base e).
Proof.
  split; try (intros; assumption).
  intros e' s [l Hl]. exists (l ++ [e']). simpl. rewrite Hl.
  now rewrite <- app_assoc.
Qed.

Section family.
Context (base : list Event) (e : Event).
Local Abbreviation Inv := (emitted_first (W:=W) (FM:=FM) base e).

Lemma emitted_first_unlink a b :
  hoare (S:=St) (fun s => Inv s /\ _oco_orders s !! a = Some b)
        (unlink_oco a b) (fun _ => Inv) Inv.
Proof. apply unlink_oco_blind; auto. Qed.

Lemma emitted_first_check_oco_order k : preserves Inv (_check_oco_order k).
Proof.
  apply (_check_oco_order_pres Inv);
    auto using emitted_first_harmless, emitted_first_unlink.
Qed.

Lemma emitted_first_clean_up k : preserves Inv (_clean_up_child_orders k).
Proof.
  apply (_clean_up_child_orders_pres Inv); auto using emitted_first_harmless.
Qed.

Lemma emitted_first_book_closing_fill pnl commission :
  preserves Inv (book_closing_fill pnl commission).
Proof.
  apply book_closing_fill_blind; auto using emitted_first_harmless.
Qed.

Lemma emitted_first_book_rollover amount :
  preserves Inv (book_rollover amount).
Proof. apply book_rollover_blind; auto using emitted_first_harmless. Qed.

Lemma emitted_first_work_order (o : Order.t) :
  True -> preserves Inv (work_order o).
Proof. intros _. apply work_order_blind; auto using emitted_first_harmless. Qed.

Lemma emitted_first_fill_order fuel o p : preserves Inv (_fill_order fuel o p).
Proof.
  apply (_fill_order_pres Inv (fun _ => True));
    auto using emitted_first_harmless, emitted_first_unlink,
      emitted_first_book_closing_fill, emitted_first_book_rollover,
      emitted_first_work_order.
Qed.

End family.

(** A rejection delivers its [OrderRejected] event before anything else. *)
Lemma _reject_order_emits (o : Order.t) reason s :
  emitted_first (events s)
    (OrderRejected (Account.id (account (world s))) (Order.id o) (clock s)
       reason (guid_count s) (clock s))
    (snd (_reject_order o reason s)).
Proof.
  set (e := OrderRejected _ _ _ _ _ _).
  unfold _reject_order, the_account, time_now, generate.
  unfold bind at 1 2 3 4. unfold gets at 1 2. simpl.
  fold e.
  set (s1 := set_events _ _).
  assert (H1 : emitted_first (events s) e s1) by (exists []; reflexivity).
  pose proof (emitted_first_check_oco_order (events s) e (Order.id o) s1 H1) as H2.
  unfold bind.
  destruct (_check_oco_order (Order.id o) s1) as [[[]|x] s2]; simpl; auto.
  pose proof (emitted_first_clean_up (events s) e (Order.id o) s2 H2) as H3.
  destruct (_clean_up_child_orders (Order.id o) s2) as [[[]|x] s3]; auto.
Qed.

End log.
(** ** C4 and C10: price validation *)

Section validation.
Context {W FM : Type}.
Context `{EXEC : !ExecEngineOps W, FILL : !FillModelOps FM}.
Context `{CALC : !Calculators, CAL : !Calendar, NUM : !Numerics}.
Implicit Types (s : @State W FM).
Local Abbreviation St := (@State W FM).

(** A rejection under a function that drops exceptions: the result is
    [False], the effects are those of the rejection. *)
Lemma unraisable_invalid_price reject (o : Order.t) reason s :
  unraisable (invalid_price reject o reason) s
  = (Ok false, if reject then snd (_reject_order o reason s) else s).
Proof.
  unfold unraisable, invalid_price, bind, ret. destruct reject; [|reflexivity].
  now destruct (_reject_order o reason s) as [[[]|e] s'].
Qed.

Lemma _check_valid_price_buy_stop (o : Order.t) (market : Tick.t)
    (reject : bool) (price min_stop : Z) s :
  Order.side o = BUY -> in_STOP_ORDER_TYPES (Order.type o) = true ->
  Order.price o = Some price ->
  _min_stops (static s) !! Order.symbol o = Some min_stop ->
  _check_valid_price o market reject s
  = if price <? Tick.ask market + min_stop
    then unraisable
           (invalid_price reject o
              (too_far "BUY STOP" o "ask" (Tick.ask market))) s
    else (Ok true, s).
Proof.
  intros Hside Hstop Hprice Hmin.
  unfold _check_valid_price, order_price, unraisable, bind, gets.
  rewrite Hside, Hstop, Hprice. simpl. rewrite Hmin. simpl.
  now destruct (price <? Tick.ask market + min_stop).
Qed.

(** C4. Price validation of a BUY order of a STOP kind rejects exactly when
    the order price is strictly below ask plus the minimum stop distance of
    the symbol: below, validation returns [False] and the order is rejected
    (the effects are those of [_reject_order], [OrderRejected] being the
    first event delivered); at or above, and so at equality, validation
    returns [True] and nothing else happens. *)
Theorem buy_stop_validation (o : Order.t) (market : Tick.t)
    (price min_stop : Z) s :
  Order.side o = BUY -> in_STOP_ORDER_TYPES (Order.type o) = true ->
  Order.price o = Some price ->
  _min_stops (static s) !! Order.symbol o = Some min_stop ->
  let reason := too_far "BUY STOP" o "ask" (Tick.ask market) in
  let r := _check_valid_price o market true s in
  (price < Tick.ask market + min_stop ->
     fst r = Ok false
     /\ snd r = snd (_reject_order o reason s)
     /\ emitted_first (events s)
          (OrderRejected (Account.id (account (world s))) (Order.id o)
             (clock s) reason (guid_count s) (clock s))
          (snd r)
     /\ _check_valid_price o market false s = (Ok false, s))
  /\ (Tick.ask market + min_stop <= price ->
        forall reject, _check_valid_price o market reject s = (Ok true, s))
  /\ (price = Tick.ask market + min_stop ->
        forall reject, _check_valid_price o market reject s = (Ok true, s)).
Proof.
  intros Hside Hstop Hprice Hmin reason r.
  assert (Hge : Tick.ask market + min_stop <= price ->
                forall reject, _check_valid_price o market reject s = (Ok true, s)).
  { intros Hle reject.
    rewrite (_check_valid_price_buy_stop o market reject price min_stop); auto.
    apply Z.ltb_ge in Hle. now rewrite Hle. }
  assert (Hlt : price < Tick.ask market + min_stop ->
                forall reject,
                  _check_valid_price o market reject s
                  = (Ok false,
                     if reject then snd (_reject_order o reason s) else s)).
  { intros H reject.
    rewrite (_check_valid_price_buy_stop o market reject price min_stop); auto.
    apply Z.ltb_lt in H. rewrite H. apply unraisable_invalid_price. }
  split; [|split]; auto.
  - intros H. subst r. rewrite !(Hlt H). simpl. repeat split.
    apply _reject_order_emits.
  - intros ->. apply Hge. lia.
Qed.

(** Orders that are neither of a STOP kind nor LIMIT pass validation and
    leave the engine as it was. *)
Lemma _check_valid_price_other (o : Order.t) (market : Tick.t) reject s :
  in_STOP_ORDER_TYPES (Order.type o) = false -> Order.type o <> LIMIT ->
  _check_valid_price o market reject s = (Ok true, s).
Proof.
  intros Hstop Hlimit. unfold _check_valid_price, unraisable, bind, gets.
  rewrite Hstop. destruct (Order.side o); now rewrite decide_False.
Qed.

End validation.
Section market_orders.
Context {W FM : Type}.
Context `{EXEC : !ExecEngineOps W, FILL : !FillModelOps FM}.
Context `{CALC : !Calculators, CAL : !Calendar, NUM : !Numerics}.
Implicit Types (s : @State W FM).
Local Abbreviation St := (@State W FM).

(** C10. A MARKET order is never rejected for its price.
    [_check_valid_price] returns [True], changing nothing, for every order
    that is neither of a STOP kind nor LIMIT; and [_process_order] on a
    MARKET order does one of six things: it fails on a duplicate identifier,
    it fails on an unknown instrument, it rejects the order for a quantity
    above the maximum trade size, or below the minimum trade size, or for
    the missing market, or it accepts the order and fills it. *)
Theorem market_order_rejections fuel (o : Order.t) s :
  Order.type o = MARKET ->
  (forall market reject, _check_valid_price o market reject s = (Ok true, s))
  /\ let r := _process_order fuel o s in
     r = (Raise ValueError, s)
     \/ r = (Raise KeyError, s)
     \/ (exists instrument,
           instruments (static s) !! Order.symbol o = Some instrument
           /\ Order.quantity o > Instrument.max_trade_size instrument
           /\ r = _reject_order o
                    ("order quantity of " +:+ str_Quantity (Order.quantity o)
                     +:+ " exceeds the maximum trade size of "
                     +:+ str_Quantity (Instrument.max_trade_size instrument))
                    s)
     \/ (exists instrument,
           instruments (static s) !! Order.symbol o = Some instrument
           /\ Order.quantity o < Instrument.min_trade_size instrument
           /\ r = _reject_order o
                    ("order quantity of " +:+ str_Quantity (Order.quantity o)
                     +:+ " is less than the minimum trade size of "
                     +:+ str_Quantity (Instrument.min_trade_size instrument))
                    s)
     \/ (od_get (Order.symbol o) (_market s) = None
         /\ r = _reject_order o
                  ("no market for " +:+ str_Symbol (Order.symbol o)) s)
     \/ (exists current_market,
           od_get (Order.symbol o) (_market s) = Some current_market
           /\ r = (_accept_order o ;;
                   slipped <- fill_model_is_slipped ;;
                   match Order.side o with
                   | BUY =>
                       if slipped then
                         slippage <-
                           getitem (_slippages (static s) !! Order.symbol o) ;;
                         _fill_order fuel o (Tick.ask current_market + slippage)
                       else _fill_order fuel o (Tick.ask current_market)
                   | SELL =>
                       if slipped then
                         slippage <-
                           getitem (_slippages (static s) !! Order.symbol o) ;;
                         _fill_order fuel o (Tick.bid current_market - slippage)
                       else _fill_order fuel o (Tick.bid current_market)
                   end) s).
Proof.
  intros Htype.
  assert (Hvalid : forall market reject,
            _check_valid_price o market reject s = (Ok true, s)).
  { intros. apply _check_valid_price_other; rewrite Htype; [reflexivity|].
    discriminate. }
  split; [exact Hvalid|]. intros r.
  assert (Hr : r = _process_order fuel o s) by reflexivity. clearbody r.
  unfold _process_order, _process_order_with in Hr.
  unfold bind at 1 in Hr. unfold gets at 1 in Hr.
  destruct (od_mem (Order.id o) (_working_orders s)); [now left|].
  unfold bind at 1 in Hr. unfold gets at 1 in Hr. unfold bind at 1 in Hr.
  destruct (instruments (static s) !! Order.symbol o) as [instrument|] eqn:Hins;
    simpl in Hr; [|right; now left].
  destruct (Order.quantity o >? Instrument.max_trade_size instrument) eqn:Hmax.
  { do 2 right. left. exists instrument. repeat split; auto.
    now apply Z.gtb_gt. }
  destruct (Order.quantity o <? Instrument.min_trade_size instrument) eqn:Hmin.
  { do 3 right. left. exists instrument. repeat split; auto.
    now apply Z.ltb_lt. }
  unfold bind at 1 in Hr. unfold gets at 1 in Hr.
  destruct (od_get (Order.symbol o) (_market s)) as [current_market|] eqn:Hmkt.
  2: { do 4 right. left. split; auto. }
  do 5 right. exists current_market. split; auto.
  unfold bind at 1 in Hr. rewrite Hvalid in Hr. simpl in Hr.
  rewrite decide_True in Hr by assumption. rewrite Hr.
  destruct (Order.side o); [reflexivity|].
  rewrite decide_True by assumption. reflexivity.
Qed.

End market_orders.
(** ** C2, C8 and C9: the matching loop and [modify_order] *)

Section matching.
Context {W FM : Type}.
Context `{EXEC : !ExecEngineOps W, FILL : !FillModelOps FM}.
Context `{CALC : !Calculators, CAL : !Calendar, NUM : !Numerics}.
Implicit Types (s : @State W FM).
Local Abbreviation St := (@State W FM).

(** The fill test comes down to the comparisons of [triggered]: where the
    comparison fails the touch price differs from the order price, so the
    marginal test is false without asking the fill model. *)
Lemma check_order_fill_triggered fuel (tick : Tick.t) (o : Order.t) p s :
  Order.price o = Some p ->
  check_order_fill fuel tick o s
  = if triggered tick o p
    then (fill_working_order fuel o p (slip_of (Order.side o)) ;; ret true) s
    else (Ok false, s).
Proof.
  intros Hp.
  unfold check_order_fill, triggered, order_price, or_else,
    _is_marginal_buy_stop_fill, _is_marginal_buy_limit_fill,
    _is_marginal_sell_stop_fill, _is_marginal_sell_limit_fill.
  rewrite Hp.
  assert (Hge : forall a, (a >=? p) = false -> (a =? p) = false) by lia.
  assert (Hle : forall a, (a <=? p) = false -> (a =? p) = false) by lia.
  destruct (Order.side o); destruct (in_STOP_ORDER_TYPES (Order.type o));
    [|destruct (decide (Order.type o = LIMIT)); [|reflexivity]
     | |destruct (decide (Order.type o = LIMIT)); [|reflexivity]];
    unfold bind at 1; simpl not_none; unfold ret at 1; unfold bind at 1.
  - destruct (Tick.ask tick >=? p) eqn:Hc; [reflexivity|].
    now rewrite (Hge _ Hc).
  - destruct (Tick.ask tick <=? p) eqn:Hc; [reflexivity|].
    now rewrite (Hle _ Hc).
  - destruct (Tick.bid tick <=? p) eqn:Hc; [reflexivity|].
    now rewrite (Hle _ Hc).
  - destruct (Tick.bid tick >=? p) eqn:Hc; [reflexivity|].
    now rewrite (Hge _ Hc).
Qed.

Lemma fill_working_order_run fuel (o : Order.t) p slip slippage s :
  od_mem (Order.id o) (_working_orders s) = true ->
  _slippages (static s) !! Order.symbol o = Some slippage ->
  fill_working_order fuel o p slip s
  = let '(slipped, fm) := is_slipped (fill_model s) in
    _fill_order fuel o (if slipped then slip p slippage else p)
      (set_fill_model fm
         (set_working_orders (od_del (Order.id o) (_working_orders s)) s)).
Proof.
  intros Hmem Hslip.
  unfold fill_working_order, del_working_orders, fill_model_is_slipped.
  unfold bind at 1. unfold gets at 1. unfold bind at 1. unfold bind at 1.
  unfold gets at 1. rewrite Hmem. unfold modify at 1. unfold bind at 1.
  simpl fill_model.
  destruct (is_slipped (fill_model s)) as [[] fm]; simpl.
  - unfold bind at 1. rewrite Hslip. reflexivity.
  - reflexivity.
Qed.

Lemma bind_ret_tt (m : M St unit) s : (m ;; ret tt) s = m s.
Proof. unfold bind, ret. now destruct (m s) as [[[]|e] s']. Qed.

(** The fill of an order for which no position is held delivers
    [OrderFilled] at the fill price before anything else. *)
Lemma _fill_order_emits fuel (o : Order.t) (fill_price : Price) instrument s :
  instruments (static s) !! Order.symbol o = Some instrument ->
  get_position_for_order (world s) (Order.id o) = None ->
  emitted_first (events s)
    (OrderFilled
       (order_filled (account (world s)) o fill_price
          (Instrument.quote_currency instrument) (clock s) (guid_count s)))
    (snd (_fill_order (S fuel) o fill_price s)).
Proof.
  intros Hins Hpos. set (e := OrderFilled _).
  cbn [_fill_order]. unfold fill_and_report, the_account, time_now, generate.
  unfold bind at 1 2 3 4 5 6 7 8 9. unfold gets at 1 2. rewrite Hins.
  simpl. rewrite Hpos. simpl. fold e.
  set (s1 := set_events _ _).
  assert (H1 : emitted_first (events s) e s1) by (exists []; reflexivity).
  pose proof (emitted_first_check_oco_order (events s) e (Order.id o) s1 H1)
    as H2.
  destruct (_check_oco_order (Order.id o) s1) as [[[]|x] s2]; simpl; auto.
  assert (H3 : preserves (emitted_first (events s) e)
                 (work_atomic_children
                    (_process_order_with (_fill_order (W:=W) (FM:=FM) fuel)) o)).
  { apply (work_atomic_children_pres _ (fun _ => True));
      auto using emitted_first_harmless, emitted_first_unlink,
        emitted_first_book_closing_fill, emitted_first_book_rollover,
        emitted_first_work_order, emitted_first_fill_order. }
  specialize (H3 s2 H2).
  destruct (work_atomic_children _ o s2) as [[[]|x] s3]; auto.
Qed.

(** C2. A working BUY order of a STOP kind whose symbol is the tick's fills
    in the matching loop exactly when [tick.ask >= order.price] or
    ([tick.ask == order.price] and the fill model's [is_stop_filled]):
    then the order leaves the working orders and [_fill_order] runs at
    [order.price + slippage[symbol]] if [is_slipped] says so, else at
    [order.price] (delivering [OrderFilled] at that price when no position
    is held for the order); otherwise the loop goes on to the expiry check. *)
Theorem buy_stop_matching fuel (tick : Tick.t) now (o : Order.t) p slippage
    instrument s :
  Order.side o = BUY -> in_STOP_ORDER_TYPES (Order.type o) = true ->
  Order.symbol o = Tick.symbol tick ->
  order_state (world s) o = WORKING ->
  od_mem (Order.id o) (_working_orders s) = true ->
  Order.price o = Some p ->
  instruments (static s) !! Order.symbol o = Some instrument ->
  _slippages (static s) !! Order.symbol o = Some slippage ->
  let fills :=
    (Tick.ask tick >=? p)
    || ((Tick.ask tick =? p) && fst (is_stop_filled (fill_model s))) in
  let slipped := fst (is_slipped (fill_model s)) in
  let fill_price := if slipped then p + slippage else p in
  let s1 :=
    set_fill_model (snd (is_slipped (fill_model s)))
      (set_working_orders (od_del (Order.id o) (_working_orders s)) s) in
  simulate_order fuel tick now o s
  = (if fills then _fill_order fuel o fill_price s1
     else check_order_expiry now o s)
  /\ od_mem (Order.id o) (_working_orders s1) = false
  /\ (fills = true ->
      get_position_for_order (world s) (Order.id o) = None ->
      forall fuel', fuel = S fuel' ->
      emitted_first (events s)
        (OrderFilled
           (order_filled (account (world s)) o fill_price
              (Instrument.quote_currency instrument) (clock s) (guid_count s)))
        (snd (simulate_order fuel tick now o s))).
Proof.
  intros Hside Hstop Hsym Hstate Hmem Hp Hins Hslip fills slipped fill_price s1.
  assert (Hfills : fills = triggered tick o p).
  { unfold fills, triggered. rewrite Hside, Hstop.
    destruct (Tick.ask tick >=? p) eqn:Hc; [reflexivity|].
    replace (Tick.ask tick =? p) with false by lia. reflexivity. }
  assert (Hrun : simulate_order fuel tick now o s
                 = if fills then _fill_order fuel o fill_price s1
                   else check_order_expiry now o s).
  { unfold simulate_order. rewrite <- Hsym, String.eqb_refl. cbn [negb].
    cbv iota. unfold bind at 1. unfold gets at 1. cbv beta iota.
    rewrite Hstate. rewrite decide_False by (intros H; now apply H).
    unfold bind at 1. unfold gets at 1. cbv beta iota. unfold bind at 1.
    rewrite Hins. simpl getitem. unfold ret at 1. cbv beta iota.
    unfold bind at 1.
    rewrite (check_order_fill_triggered fuel tick o p s Hp), <- Hfills.
    destruct fills; [|reflexivity].
    rewrite Hside. simpl slip_of.
    unfold bind at 1.
    rewrite (fill_working_order_run fuel o p Z.add slippage s Hmem Hslip).
    unfold fill_price, slipped, s1.
    destruct (is_slipped (fill_model s)) as [b fm]. simpl.
    destruct (_fill_order fuel o _ _) as [[[]|e] s']; reflexivity. }
  repeat split.
  - exact Hrun.
  - unfold s1, od_mem. simpl. now rewrite od_get_del_eq.
  - intros Hf Hpos fuel' ->. rewrite Hrun, Hf.
    apply (_fill_order_emits fuel' o fill_price instrument s1); auto.
Qed.

End matching.
Section modify.
Context {W FM : Type}.
Context `{EXEC : !ExecEngineOps W, FILL : !FillModelOps FM}.
Context `{CALC : !Calculators, CAL : !Calendar, NUM : !Numerics}.
Implicit Types (s : @State W FM).
Local Abbreviation St := (@State W FM).

Lemma modify_order_run (command : ModifyOrder.t) (o : Order.t) instrument s :
  od_get (ModifyOrder.order_id command) (_working_orders s) = Some o ->
  instruments (static s) !! Order.symbol o = Some instrument ->
  modify_order command s
  = if (Quantity_as_double (ModifyOrder.modified_quantity command) =? 0)%float
    then
      _cancel_reject_order (PyOrder o) "modify order"
        ("modified quantity "
         +:+ str_Quantity (ModifyOrder.modified_quantity command)
         +:+ " invalid") s
    else
      (market <- getitem (od_get (Order.symbol o) (_market s)) ;;
       valid <- _check_valid_price o market true ;;
       if negb valid then ret tt
       else
         id_broker <- gets (fun s => order_id_broker (world s) o) ;;
         now <- time_now ;;
         event_id <- generate ;;
         exec_engine_handle_event
           (OrderModified (ModifyOrder.account_id command) (Order.id o)
              id_broker (ModifyOrder.modified_quantity command)
              (ModifyOrder.modified_price command) now event_id now)) s.
Proof.
  intros Hget Hins. unfold modify_order.
  unfold bind at 1. unfold gets at 1. cbv beta iota. rewrite Hget.
  unfold bind at 1. unfold gets at 1. cbv beta iota.
  unfold bind at 1. rewrite Hins. simpl getitem. unfold ret at 1.
  cbv beta iota.
  destruct (_ =? _)%float; reflexivity.
Qed.


(** The zero-quantity path hands the order itself to
    [_cancel_reject_order], whose parameter is an [OrderId]: the call fails
    its type test, no event is delivered and the engine is left as it was. *)
Lemma modify_order_zero_quantity (command : ModifyOrder.t) (o : Order.t)
    instrument s :
  od_get (ModifyOrder.order_id command) (_working_orders s) = Some o ->
  instruments (static s) !! Order.symbol o = Some instrument ->
  (Quantity_as_double (ModifyOrder.modified_quantity command) =? 0)%float
  = true ->
  modify_order command s = (Raise TypeError, s).
Proof.
  intros Hget Hins Hq.
  rewrite (modify_order_run command o instrument s Hget Hins), Hq.
  reflexivity.
Qed.

End modify.

(** ** C7: rollover interest *)

Section rollover.
Context {W FM : Type}.
Context `{EXEC : !ExecEngineOps W, FILL : !FillModelOps FM}.
Context `{CALC : !Calculators, CAL : !Calendar, NUM : !Numerics}.
Implicit Types (s : @State W FM) (cache : gmap Symbol float).
Local Abbreviation St := (@State W FM).

Lemma rollover_loop timestamp s positions : forall acc cache total,
  (forall symbol v, cache !! symbol = Some v ->
     exists market, od_get symbol (_market s) = Some market
       /\ v = ((Price_as_double (Tick.ask market)
                + Price_as_double (Tick.bid market)) / 2)%float) ->
  spec_rollover_sum timestamp s positions acc = Some total ->
  exists cache',
    fold_each positions (rollover_position timestamp) (acc, cache) s
    = (Ok (total, cache'), s).
Proof.
  induction positions as [|position rest IH]; intros acc cache total Hcache;
    simpl.
  - intros [= <-]. now exists cache.
  - destruct (instruments (static s) !! Position.symbol position)
      as [instrument|] eqn:Hins; [|discriminate].
    unfold bind at 1. unfold rollover_position at 1.
    unfold bind at 1. unfold gets at 1. cbv beta iota.
    unfold bind at 1. rewrite Hins. simpl getitem. unfold ret at 1.
    cbv beta iota.
    destruct (decide (Instrument.security_type instrument = FOREX)).
    2: { unfold ret at 1. cbv beta iota. intros Hsum. now apply IH. }
    destruct (od_get (Instrument.symbol instrument) (_market s))
      as [market|] eqn:Hmkt; [|discriminate].
    intros Hsum.
    cbv zeta. unfold bind at 1.
    destruct (default 0%float (cache !! Instrument.symbol instrument) =? 0)%float
      eqn:Hz.
    + unfold bind at 1. unfold gets at 1. cbv beta iota.
      unfold bind at 1. rewrite Hmkt. simpl getitem. unfold ret at 1 2.
      cbv beta iota.
      unfold the_account. unfold bind at 1. unfold gets at 1. cbv beta iota.
      unfold bind at 1. unfold gets at 1. cbv beta iota.
      unfold bind at 1. unfold gets at 1. cbv beta iota.
      unfold ret at 1. cbv beta iota.
      apply IH; [|exact Hsum].
      intros symbol v.
      destruct (decide (Instrument.symbol instrument = symbol)) as [<-|Hne].
      * rewrite lookup_insert_eq. intros [= <-]. eauto.
      * rewrite lookup_insert_ne by assumption. apply Hcache.
    + destruct (cache !! Instrument.symbol instrument) as [v|] eqn:Hv;
        [|discriminate Hz].
      destruct (Hcache _ _ Hv) as (market' & Hm' & ->).
      rewrite Hmkt in Hm'. injection Hm' as <-.
      simpl default. unfold ret at 1. cbv beta iota.
      unfold the_account. unfold bind at 1. unfold gets at 1. cbv beta iota.
      unfold bind at 1. unfold gets at 1. cbv beta iota.
      unfold bind at 1. unfold gets at 1. cbv beta iota.
      unfold ret at 1. cbv beta iota.
      apply IH; [exact Hcache|exact Hsum].
Qed.

Lemma book_to_account_run amount s :
  book_to_account amount s
  = (Ok tt,
     emitted
       (AccountStateEvent
          {| AccountState.account_id := Account.id (account (world s));
             AccountState.currency := Account.currency (account (world s));
             AccountState.cash_balance := account_capital s + amount;
             AccountState.cash_start_day := account_cash_start_day s;
             AccountState.cash_activity_day :=
               account_cash_activity_day s + amount;
             AccountState.margin_used_liquidation := 0;
             AccountState.margin_used_maintenance := 0;
             AccountState.margin_ratio := 0;
             AccountState.margin_call_status := "N";
             AccountState.event_id := guid_count s;
             AccountState.event_timestamp := clock s |})
       (set_guid_count (S (guid_count s))
          (set_account_cash_activity_day (account_cash_activity_day s + amount)
             (set_account_capital (account_capital s + amount) s)))).
Proof. reflexivity. Qed.

(** C7. Rollover interest.  With an execution database registered and the
    instruments and markets of the open positions known,
    [apply_rollover_interest] returns; the amount is the sum over the open
    FX positions of mid price times quantity times overnight rate times
    exchange rate less the [rollover_spread] markup, times 3 when the ISO
    weekday is 3 or 5; [total_rollover] grows by the amount in every case;
    when the account is frozen neither [account_capital] nor
    [account_cash_activity_day] changes and no event is delivered; otherwise
    both grow by the amount and one [AccountStateEvent] with the new values
    is delivered. *)
Theorem rollover_booking timestamp iso_week_day total s :
  exec_db (static s) = true ->
  spec_rollover_sum timestamp s (get_positions_open (world s)) 0%float
  = Some total ->
  let amount :=
    Money_of_double (spec_weekday_factor iso_week_day total)
      (account_currency (static s)) in
  let r := apply_rollover_interest timestamp iso_week_day s in
  fst r = Ok tt
  /\ total_rollover (snd r) = total_rollover s + amount
  /\ (frozen_account (static s) = true ->
      account_capital (snd r) = account_capital s
      /\ account_cash_activity_day (snd r) = account_cash_activity_day s
      /\ events (snd r) = events s)
  /\ (frozen_account (static s) = false ->
      account_capital (snd r) = account_capital s + amount
      /\ account_cash_activity_day (snd r)
         = account_cash_activity_day s + amount
      /\ events (snd r)
         = events s
           ++ [AccountStateEvent
                 {| AccountState.account_id := Account.id (account (world s));
                    AccountState.currency :=
                      Account.currency (account (world s));
                    AccountState.cash_balance := account_capital s + amount;
                    AccountState.cash_start_day := account_cash_start_day s;
                    AccountState.cash_activity_day :=
                      account_cash_activity_day s + amount;
                    AccountState.margin_used_liquidation := 0;
                    AccountState.margin_used_maintenance := 0;
                    AccountState.margin_ratio := 0;
                    AccountState.margin_call_status := "N";
                    AccountState.event_id := guid_count s;
                    AccountState.event_timestamp := clock s |}]).
Proof.
  intros Hdb Hsum amount r.
  destruct (rollover_loop timestamp s (get_positions_open (world s))
              0%float ∅ total) as (cache' & Hloop); auto.
  { intros symbol v. now rewrite lookup_empty. }
  assert (Hr : r = book_rollover amount s).
  { subst r. unfold apply_rollover_interest.
    unfold bind at 1. unfold gets at 1. cbv beta iota. rewrite Hdb.
    cbn [negb]. cbv iota.
    unfold bind at 1. unfold gets at 1. cbv beta iota.
    unfold bind at 1. rewrite Hloop. cbv beta iota.
    unfold amount, spec_weekday_factor.
    destruct (iso_week_day =? 3); [reflexivity|].
    destruct (iso_week_day =? 5); reflexivity. }
  set (s1 := set_ledger (ledger s ++ [Rollover amount])
               (set_total_rollover (total_rollover s + amount) s)).
  assert (Hr' : r = if frozen_account (static s) then (Ok tt, s1)
                    else book_to_account amount s1).
  { rewrite Hr. unfold book_rollover, bind, modify, gets. simpl.
    now destruct (frozen_account (static s)). }
  rewrite Hr'. clear Hr Hr'.
  destruct (frozen_account (static s)) eqn:Hf.
  - repeat split; try discriminate; reflexivity.
  - rewrite book_to_account_run. repeat split; try discriminate; reflexivity.
Qed.

End rollover.
(** ** C1: the capital identity and the history it sums over *)

Section history.
Context {W FM : Type}.
Context `{EXEC : !ExecEngineOps W, FILL : !FillModelOps FM}.
Context `{CALC : !Calculators, CAL : !Calendar, NUM : !Numerics}.
Implicit Types (s : @State W FM).
Local Abbreviation St := (@State W FM).

Lemma adjust_account_run (event : OrderFillEvent.t) (position : Position.t)
    instrument s :
  instruments (static s) !! OrderFillEvent.symbol event = Some instrument ->
  Position.market_position position <> FLAT ->
  adjust_account event position s
  = book_closing_fill (closing_pnl event position instrument s)
      (closing_commission event instrument s) s.
Proof.
  intros Hins Hflat.
  unfold adjust_account, calculate_pnl, closing_pnl, closing_commission,
    closing_points, fill_exchange_rate.
  unfold bind at 1. unfold gets at 1. cbv beta iota.
  unfold bind at 1. rewrite Hins. simpl getitem. unfold ret at 1.
  cbv beta iota.
  unfold the_account. unfold bind at 1. unfold gets at 1. cbv beta iota.
  unfold bind at 1. unfold gets at 1. cbv beta iota.
  unfold bind at 1. unfold gets at 1. cbv beta iota.
  unfold bind at 1.
  destruct (Position.market_position position); [contradiction| |];
    reflexivity.
Qed.

Lemma book_closing_fill_run pnl commission s :
  book_closing_fill pnl commission s
  = let s1 :=
      set_ledger (ledger s ++ [ClosingFill pnl commission])
        (set_total_commissions (total_commissions s - commission) s) in
    if frozen_account (static s) then (Ok tt, s1)
    else book_to_account (pnl - commission) s1.
Proof.
  unfold book_closing_fill, bind, modify, gets. simpl.
  now destruct (frozen_account (static s)).
Qed.

(** A closing fill that [adjust_account] accepts enters the history with
    the pnl and the commission of the fill. *)
Lemma adjust_account_records (event : OrderFillEvent.t)
    (position : Position.t) instrument s :
  instruments (static s) !! OrderFillEvent.symbol event = Some instrument ->
  Position.market_position position <> FLAT ->
  exists s',
    adjust_account event position s = (Ok tt, s')
    /\ ledger s'
       = ledger s
         ++ [ClosingFill (closing_pnl event position instrument s)
               (closing_commission event instrument s)].
Proof.
  intros Hins Hflat.
  rewrite (adjust_account_run event position instrument s Hins Hflat).
  rewrite book_closing_fill_run. cbv zeta.
  destruct (frozen_account (static s)).
  - eexists. split; reflexivity.
  - rewrite book_to_account_run. eexists. split; reflexivity.
Qed.

Lemma book_rollover_run amount s :
  book_rollover amount s
  = let s1 :=
      set_ledger (ledger s ++ [Rollover amount])
        (set_total_rollover (total_rollover s + amount) s) in
    if frozen_account (static s) then (Ok tt, s1)
    else book_to_account amount s1.
Proof.
  unfold book_rollover, bind, modify, gets. simpl.
  now destruct (frozen_account (static s)).
Qed.

Lemma apply_rollover_interest_run timestamp iso_week_day total s :
  exec_db (static s) = true ->
  spec_rollover_sum timestamp s (get_positions_open (world s)) 0%float
  = Some total ->
  apply_rollover_interest timestamp iso_week_day s
  = book_rollover
      (Money_of_double (spec_weekday_factor iso_week_day total)
         (account_currency (static s))) s.
Proof.
  intros Hdb Hsum.
  destruct (rollover_loop timestamp s (get_positions_open (world s))
              0%float ∅ total) as (cache' & Hloop); auto.
  { intros symbol v. now rewrite lookup_empty. }
  unfold apply_rollover_interest.
  unfold bind at 1. unfold gets at 1. cbv beta iota. rewrite Hdb.
  cbn [negb]. cbv iota.
  unfold bind at 1. unfold gets at 1. cbv beta iota.
  unfold bind at 1. rewrite Hloop. cbv beta iota.
  unfold spec_weekday_factor.
  destruct (iso_week_day =? 3); [reflexivity|].
  destruct (iso_week_day =? 5); reflexivity.
Qed.

Lemma apply_rollover_interest_records timestamp iso_week_day total s :
  exec_db (static s) = true ->
  spec_rollover_sum timestamp s (get_positions_open (world s)) 0%float
  = Some total ->
  exists s',
    apply_rollover_interest timestamp iso_week_day s = (Ok tt, s')
    /\ ledger s'
       = ledger s
         ++ [Rollover
               (Money_of_double (spec_weekday_factor iso_week_day total)
                  (account_currency (static s)))].
Proof.
  intros Hdb Hsum.
  rewrite (apply_rollover_interest_run timestamp iso_week_day total s Hdb Hsum).
  rewrite book_rollover_run. cbv zeta.
  destruct (frozen_account (static s)).
  - eexists. split; reflexivity.
  - rewrite book_to_account_run. eexists. split; reflexivity.
Qed.

(** *** The history only grows *)

Lemma ledger_from_harmless base : harmless (ledger_from (W:=W) (FM:=FM) base).
Proof. split; intros; assumption. Qed.

Lemma ledger_from_book_closing_fill base pnl commission :
  preserves (ledger_from (W:=W) (FM:=FM) base)
    (book_closing_fill pnl commission).
Proof.
  intros s [l Hl]. rewrite book_closing_fill_run. cbv zeta.
  assert (Hl' : ledger_from base
                  (set_ledger (ledger s ++ [ClosingFill pnl commission])
                     (set_total_commissions (total_commissions s - commission)
                        s))).
  { exists (l ++ [ClosingFill pnl commission]). simpl. rewrite Hl.
    now rewrite <- app_assoc. }
  destruct (frozen_account (static s)); [exact Hl'|].
  rewrite book_to_account_run. exact Hl'.
Qed.

Lemma ledger_from_book_rollover base amount :
  preserves (ledger_from (W:=W) (FM:=FM) base) (book_rollover amount).
Proof.
  intros s [l Hl]. rewrite book_rollover_run. cbv zeta.
  assert (Hl' : ledger_from base
                  (set_ledger (ledger s ++ [Rollover amount])
                     (set_total_rollover (total_rollover s + amount) s))).
  { exists (l ++ [Rollover amount]). simpl. rewrite Hl.
    now rewrite <- app_assoc. }
  destruct (frozen_account (static s)); [exact Hl'|].
  rewrite book_to_account_run. exact Hl'.
Qed.

Lemma ledger_from_unlink base a b :
  hoare (S:=St) (fun s => ledger_from base s /\ _oco_orders s !! a = Some b)
        (unlink_oco a b) (fun _ => ledger_from base) (ledger_from base).
Proof. apply unlink_oco_blind; auto using ledger_from_harmless. Qed.

Lemma ledger_from_work_order base (o : Order.t) :
  True -> preserves (ledger_from (W:=W) (FM:=FM) base) (work_order o).
Proof. intros _. apply work_order_blind; auto using ledger_from_harmless. Qed.

Lemma ledger_from_fill_order base fuel (o : Order.t) p :
  preserves (ledger_from (W:=W) (FM:=FM) base) (_fill_order fuel o p).
Proof.
  apply (_fill_order_pres (ledger_from base) (fun _ => True));
    auto using ledger_from_harmless, ledger_from_book_closing_fill,
      ledger_from_unlink, ledger_from_work_order.
Qed.

(** The fill of an order that closes a position enters the history before
    anything else the fill leads to. *)
Lemma _fill_order_records fuel (o : Order.t) (fill_price : Price)
    (position : Position.t) instrument s :
  instruments (static s) !! Order.symbol o = Some instrument ->
  get_position_for_order (world s) (Order.id o) = Some position ->
  Position.entry_direction position <> Order.side o ->
  Position.market_position position <> FLAT ->
  let filled :=
    order_filled (account (world s)) o fill_price
      (Instrument.quote_currency instrument) (clock s) (guid_count s) in
  ledger_from
    (ledger s
     ++ [ClosingFill (closing_pnl filled position instrument s)
           (closing_commission filled instrument s)])
    (snd (_fill_order (S fuel) o fill_price s)).
Proof.
  intros Hins Hpos Hdir Hflat filled.
  set (base := ledger s ++ _).
  set (s1 := set_guid_count (S (guid_count s)) s).
  destruct (adjust_account_records filled position instrument s1 Hins Hflat)
    as (s2 & Hadj & Hled).
  assert (H2 : ledger_from base s2) by (exists []; now rewrite app_nil_r).
  assert (Hrun : _fill_order (S fuel) o fill_price s
                 = ((exec_engine_handle_event (OrderFilled filled) ;;
                     _check_oco_order (Order.id o)) ;;
                    work_atomic_children
                      (_process_order_with (_fill_order fuel)) o) s2).
  { cbn [_fill_order]. unfold fill_and_report, the_account, time_now, generate.
    unfold bind at 1. unfold bind at 1. unfold gets at 1. cbv beta iota.
    unfold bind at 1. unfold gets at 1. cbv beta iota.
    unfold bind at 1. rewrite Hins. simpl getitem. unfold ret at 1.
    cbv beta iota.
    unfold bind at 1. unfold gets at 1. cbv beta iota.
    unfold bind at 1. cbv beta iota.
    unfold bind at 1. unfold gets at 1. cbv beta iota.
    change (world (set_guid_count (S (guid_count s)) s)) with (world s).
    rewrite Hpos. rewrite decide_True by exact Hdir.
    unfold bind at 1. fold filled. fold s1. rewrite Hadj.
    unfold bind at 2. reflexivity. }
  rewrite Hrun. apply (preserves_snd (ledger_from base)); [|exact H2].
  apply preserves_bind; [|intros ?].
  - apply preserves_bind; [|intros ?].
    + apply handle_event_pres, ledger_from_harmless.
    + apply _check_oco_order_pres;
        auto using ledger_from_harmless, ledger_from_unlink.
  - apply (work_atomic_children_pres (ledger_from base) (fun _ => True));
      auto using ledger_from_harmless, ledger_from_book_closing_fill,
        ledger_from_unlink, ledger_from_work_order, ledger_from_fill_order.
Qed.

(** The fill of an order for which no position is held, or one entered in
    the direction of the order, enters nothing. *)
Lemma fill_and_report_records_nothing (o : Order.t) (fill_price : Price) s :
  match get_position_for_order (world s) (Order.id o) with
  | Some position => Position.entry_direction position = Order.side o
  | None => True
  end ->
  ledger (snd (fill_and_report o fill_price s)) = ledger s.
Proof.
  intros Hpos.
  assert (HI : harmless (ledger_is (W:=W) (FM:=FM) (ledger s)))
    by (split; intros; assumption).
  assert (Hu : forall a b,
             hoare (S:=St)
               (fun s' => ledger_is (ledger s) s'
                          /\ _oco_orders s' !! a = Some b)
               (unlink_oco a b) (fun _ => ledger_is (ledger s))
               (ledger_is (ledger s)))
    by (intros; apply unlink_oco_blind; auto).
  unfold fill_and_report, the_account, time_now, generate.
  unfold bind at 1. unfold gets at 1. cbv beta iota.
  unfold bind at 1. unfold gets at 1. cbv beta iota.
  unfold bind at 1.
  destruct (instruments (static s) !! Order.symbol o) as [instrument|];
    [|reflexivity].
  simpl getitem. unfold ret at 1. cbv beta iota.
  unfold bind at 1. unfold gets at 1. cbv beta iota.
  unfold bind at 1. cbv beta iota.
  unfold bind at 1. unfold gets at 1. cbv beta iota.
  change (world (set_guid_count (S (guid_count s)) s)) with (world s).
  set (tail := exec_engine_handle_event _ ;; _check_oco_order _).
  assert (Htail : preserves (ledger_is (ledger s)) tail).
  { apply preserves_bind; [now apply handle_event_pres|intros ?].
    now apply _check_oco_order_pres. }
  assert (Hskip : (ret tt ;; tail) (set_guid_count (S (guid_count s)) s)
                  = tail (set_guid_count (S (guid_count s)) s))
    by reflexivity.
  destruct (get_position_for_order (world s) (Order.id o)) as [position|].
  - rewrite decide_False by (intros H; now apply H).
    rewrite Hskip. now apply (preserves_snd (ledger_is (ledger s))).
  - rewrite Hskip. now apply (preserves_snd (ledger_is (ledger s))).
Qed.

(** C1. Capital identity.  In every state reached from the constructed
    engine by any sequence of calls (ticks, commands, [adjust_account],
    [apply_rollover_interest], [reset], steps of the collaborators), returning
    or raising: when the account is not frozen, [account_capital] is the
    starting capital plus the sum over the closing fills of pnl minus
    commission plus the sum of the applied rollover amounts; when it is
    frozen, [account_capital] is the starting capital; and the engine's
    [total_rollover] and [total_commissions] are the sums of the rollovers
    and of the commissions.  The sums run over the history since the last
    [reset], and the history is that of the fills and rollovers that
    occurred: the fill of an order against a position entered in the other
    direction enters it, first of all that the fill leads to, with the pnl
    and the commission of the fill; a fill with no position, or with one
    entered in the direction of the order, enters nothing; an
    [adjust_account] that is accepted enters its closing fill and an
    [apply_rollover_interest] that finds its instruments and markets enters
    the rollover amount, and without an execution database it does
    nothing. *)
Theorem capital_identity_reachable
    ins config (fm : FM) clock0 guid0 db (w : W) cs :
  let s := run cs (init ins config fm clock0 guid0 db w) in
  ((BacktestConfig.frozen_account config = false ->
      account_capital s
      = BacktestConfig.starting_capital config
        + sum_closing_fills (ledger s) + sum_rollovers (ledger s))
   /\ (BacktestConfig.frozen_account config = true ->
         account_capital s = BacktestConfig.starting_capital config)
   /\ total_rollover s = sum_rollovers (ledger s)
   /\ total_commissions s = - sum_commissions (ledger s))
  /\ (forall fuel (o : Order.t) (fill_price : Price) (position : Position.t)
         instrument (s0 : St),
        instruments (static s0) !! Order.symbol o = Some instrument ->
        get_position_for_order (world s0) (Order.id o) = Some position ->
        Position.entry_direction position <> Order.side o ->
        Position.market_position position <> FLAT ->
        let filled :=
          order_filled (account (world s0)) o fill_price
            (Instrument.quote_currency instrument) (clock s0)
            (guid_count s0) in
        exists later,
          ledger (snd (_fill_order (S fuel) o fill_price s0))
          = (ledger s0
             ++ [ClosingFill (closing_pnl filled position instrument s0)
                   (closing_commission filled instrument s0)])
            ++ later)
  /\ (forall (o : Order.t) (fill_price : Price) (s0 : St),
        match get_position_for_order (world s0) (Order.id o) with
        | Some position => Position.entry_direction position = Order.side o
        | None => True
        end ->
        ledger (snd (fill_and_report o fill_price s0)) = ledger s0)
  /\ (forall (event : OrderFillEvent.t) (position : Position.t) instrument
         (s0 : St),
        instruments (static s0) !! OrderFillEvent.symbol event
        = Some instrument ->
        Position.market_position position <> FLAT ->
        fst (adjust_account event position s0) = Ok tt
        /\ ledger (snd (adjust_account event position s0))
           = ledger s0
             ++ [ClosingFill (closing_pnl event position instrument s0)
                   (closing_commission event instrument s0)])
  /\ (forall timestamp iso_week_day total (s0 : St),
        exec_db (static s0) = true ->
        spec_rollover_sum timestamp s0 (get_positions_open (world s0)) 0%float
        = Some total ->
        fst (apply_rollover_interest timestamp iso_week_day s0) = Ok tt
        /\ ledger (snd (apply_rollover_interest timestamp iso_week_day s0))
           = ledger s0
             ++ [Rollover
                   (Money_of_double (spec_weekday_factor iso_week_day total)
                      (account_currency (static s0)))])
  /\ (forall timestamp iso_week_day (s0 : St),
        exec_db (static s0) = false ->
        apply_rollover_interest timestamp iso_week_day s0 = (Ok tt, s0)).
Proof.
  intros s. split; [|split; [|split; [|split; [|split]]]].
  - destruct (account_inv_run _ cs _
                (account_inv_init ins config fm clock0 guid0 db w))
      as (Hst & Hcap & Hrol & Hcom).
    fold s in Hst, Hcap, Hrol, Hcom. unfold capital_identity in Hcap.
    rewrite Hst in Hcap. simpl in Hcap.
    repeat split; try assumption; intros Hf; rewrite Hf in Hcap; exact Hcap.
  - intros fuel o fill_price position instrument s0 Hins Hpos Hdir Hflat.
    exact (_fill_order_records fuel o fill_price position instrument s0
             Hins Hpos Hdir Hflat).
  - apply fill_and_report_records_nothing.
  - intros event position instrument s0 Hins Hflat.
    destruct (adjust_account_records event position instrument s0 Hins Hflat)
      as (s' & -> & Hled).
    split; [reflexivity|exact Hled].
  - intros timestamp iso_week_day total s0 Hdb Hsum.
    destruct (apply_rollover_interest_records timestamp iso_week_day total s0
                Hdb Hsum) as (s' & -> & Hled).
    split; [reflexivity|exact Hled].
  - intros timestamp iso_week_day s0 Hdb. unfold apply_rollover_interest.
    unfold bind at 1. unfold gets at 1. cbv beta iota. now rewrite Hdb.
Qed.

End history.
(** ** The scenarios of the test kit *)

Section touch.
Context {W FM : Type}.
Context `{EXEC : !ExecEngineOps W, FILL : !FillModelOps FM}.
Context `{CALC : !Calculators, CAL : !Calendar, NUM : !Numerics}.

(** At the touch every STOP kind and every LIMIT triggers, and by
    [check_order_fill_triggered] the fill model's marginal predicates are
    not asked. *)
Lemma triggered_at_touch (tick : Tick.t) (o : Order.t) p :
  in_STOP_ORDER_TYPES (Order.type o) = true \/ Order.type o = LIMIT ->
  match Order.side o with BUY => Tick.ask tick | SELL => Tick.bid tick end = p ->
  triggered tick o p = true.
Proof.
  intros Hkind Htouch. unfold triggered.
  destruct (Order.side o); subst p;
    destruct (in_STOP_ORDER_TYPES (Order.type o)); try lia;
    destruct Hkind as [?|Hl]; try discriminate; rewrite decide_True by exact Hl;
    lia.
Qed.

End touch.

(** C3 (the code at the failing input).  A BUY STOP at 1.1020 is working;
    the fill model answers [False] to [is_stop_filled] and to [is_slipped];
    a tick arrives with ask 1.1020 exactly.  The order fills at 1.1020. *)
Theorem stop_at_touch_fills_without_fill_model :
  fst (is_stop_filled TestKit.strict) = false
  /\ TestKit.fill_prices "O-1"
       (events (run TestKit.stop_is_touched (TestKit.engine false [])))
     = [11020].
Proof. split; vm_compute; reflexivity. Qed.

(** C9 (the code at the failing input).  The BUY STOP "O-1" is working and
    a [ModifyOrder] for it arrives with quantity zero: [modify_order] raises
    [TypeError], no event is delivered and the engine is unchanged. *)
Theorem modify_zero_quantity_raises :
  od_mem "O-1" (_working_orders TestKit.working_state) = true
  /\ modify_order (TestKit.modify_to 0 11030) TestKit.working_state
     = (Raise TypeError, TestKit.working_state).
Proof.
  split; [vm_compute; reflexivity|].
  apply (modify_order_zero_quantity _ TestKit.buy_stop TestKit.EURUSD);
    vm_compute; reflexivity.
Qed.

(** The matching theorem on the working BUY STOP when the ask reaches it. *)
Lemma buy_stop_matching_witness :
  TestKit.fill_prices "O-1"
    (events (snd (simulate_order 5 (TestKit.tick 11018 11020 2000) 2000
                    TestKit.buy_stop TestKit.working_state)))
  = [11020].
Proof.
  destruct (buy_stop_matching 5 (TestKit.tick 11018 11020 2000) 2000
              TestKit.buy_stop 11020 1 TestKit.EURUSD TestKit.working_state)
    as (Hrun & _ & _); [vm_compute; reflexivity ..|].
  rewrite Hrun. vm_compute. reflexivity.
Defined.

(** The validation theorem on a BUY STOP exactly at the minimum distance. *)
Lemma buy_stop_validation_witness :
  _check_valid_price TestKit.buy_stop_at_distance (TestKit.tick 11000 11002 1000)
    true TestKit.after_first_tick
  = (Ok true, TestKit.after_first_tick).
Proof.
  refine (proj2 (proj2 (buy_stop_validation TestKit.buy_stop_at_distance
            (TestKit.tick 11000 11002 1000) 11012 10 TestKit.after_first_tick
            _ _ _ _)) _ true); vm_compute; reflexivity.
Defined.

(** The capital identity on the run that closes the long position opened
    at 1.0990: the pnl of 100.00 less the commission of 0.02 has been
    booked. *)
Lemma capital_identity_reachable_witness :
  account_capital
    (run TestKit.position_is_closed
       (TestKit.engine false [("C-1", TestKit.cheap_long)]))
  = 100000000 + 9998 + 0.
Proof.
  destruct (capital_identity_reachable {["EURUSD" := TestKit.EURUSD]}
              (TestKit.config false) TestKit.strict 0 0 true
              (TestKit.database [("C-1", TestKit.cheap_long)])
              TestKit.position_is_closed)
    as ((Hopen & _) & _).
  etransitivity; [apply Hopen; reflexivity|]. vm_compute. reflexivity.
Defined.

(** C5, as stated, fails.  Two atomic submissions, each with a stop-loss and
    a take-profit of different identifiers, that name the same stop-loss:
    after both, with no market yet (each entry is rejected, which leaves the
    OCO map as it is), the take-profit of the first still points to the
    stop-loss, which now points to the take-profit of the second. *)
Lemma oco_symmetry_needs_new_identifiers :
  NoDup (oco_ids_of_atomic TestKit.submit_bracket)
  /\ NoDup (oco_ids_of_atomic Bench.second_bracket)
  /\ Order.id TestKit.stop_loss <> Order.id TestKit.take_profit
  /\ oco_ids_of_atomic Bench.second_bracket = ["TP-2"; "SL-1"]
  /\ _oco_orders Bench.shared_stop_loss !! "TP-1" = Some "SL-1"
  /\ _oco_orders Bench.shared_stop_loss !! "SL-1" = Some "TP-2"
  /\ ~ oco_symmetric (_oco_orders Bench.shared_stop_loss)
  /\ new_oco_ids Bench.two_brackets (TestKit.engine false []) = false.
Proof.
  assert (H1 : _oco_orders Bench.shared_stop_loss !! "TP-1" = Some "SL-1")
    by (vm_compute; reflexivity).
  assert (H2 : _oco_orders Bench.shared_stop_loss !! "SL-1" = Some "TP-2")
    by (vm_compute; reflexivity).
  split; [apply (bool_decide_unpack (NoDup _)); vm_compute; exact Logic.I|].
  split; [apply (bool_decide_unpack (NoDup _)); vm_compute; exact Logic.I|].
  repeat split; try assumption; try discriminate;
    try (vm_compute; reflexivity).
  intros [Hsym _]. apply Hsym in H1. vm_compute in H1. discriminate H1.
Qed.

(** The symmetry theorem on the run that submits the bracket. *)
Lemma oco_symmetry_reachable_witness :
  oco_symmetric
    (_oco_orders (run TestKit.bracket_is_submitted (TestKit.engine false []))).
Proof.
  refine (proj1 (oco_symmetry_reachable _ _ _ _ _ _ _
                   TestKit.bracket_is_submitted _)).
  vm_compute. reflexivity.
Defined.

(** The confinement theorem on the bracket: the stop-loss is working and
    its parent has filled. *)
Lemma atomic_child_confinement_witness :
  exists p,
    (p, "SL-1") ∈ parent_child (TestKit.bracket_is_submitted ++ [])
    /\ filled_in
         (events (run TestKit.bracket_is_submitted (TestKit.engine false [])))
         p.
Proof.
  refine (proj1 (atomic_child_confinement _ _ _ _ _ _ _
                   TestKit.bracket_is_submitted [] _) "SL-1" _ _).
  - intros k. revert k. apply Forall_forall.
    apply (bool_decide_unpack (Forall _ _)). vm_compute. exact Logic.I.
  - apply (bool_decide_unpack (_ ∈ _)). vm_compute. exact Logic.I.
  - vm_compute. reflexivity.
Defined.

(** The rollover theorem on a Wednesday with one open position: 33.00 is
    booked, and the frozen account keeps its capital. *)
Lemma rollover_booking_witness :
  total_rollover
    (snd (apply_rollover_interest 5000 3 (TestKit.holding_state false)))
  = 3300
  /\ account_capital
       (snd (apply_rollover_interest 5000 3 (TestKit.holding_state false)))
     = 100003300
  /\ account_capital
       (snd (apply_rollover_interest 5000 3 (TestKit.holding_state true)))
     = 100000000.
Proof.
  destruct (rollover_booking 5000 3 TestKit.open_rollover
              (TestKit.holding_state false))
    as (_ & Htotal & _ & Hopen); [vm_compute; reflexivity ..|].
  destruct (rollover_booking 5000 3 TestKit.open_rollover
              (TestKit.holding_state true))
    as (_ & _ & Hfrozen & _); [vm_compute; reflexivity ..|].
  destruct (Hopen eq_refl) as (Hcap & _).
  destruct (Hfrozen eq_refl) as (Hcap' & _).
  rewrite Htotal, Hcap, Hcap'. vm_compute. repeat split.
Defined.


(** The theorem on MARKET orders at the market BUY of the bracket. *)
Lemma market_order_rejections_witness :
  _check_valid_price TestKit.market_buy (TestKit.tick 11000 11002 1000) true
    TestKit.after_first_tick
  = (Ok true, TestKit.after_first_tick).
Proof.
  exact (proj1 (market_order_rejections 1 TestKit.market_buy
                  TestKit.after_first_tick eq_refl) _ _).
Defined.

(** ** The scenarios of the specification, run on the embedding *)

(** An order submitted before any tick of its symbol is rejected. *)
Example scenario_no_market :
  events (run [(5%nat, DoSubmitOrder (TestKit.submit TestKit.market_buy))]
            (TestKit.engine false []))
  = [OrderSubmitted "SIM-000" "E-1" 0 1%nat 0;
     OrderRejected "SIM-000" "E-1" 0 "no market for EURUSD" 2%nat 0].
Proof. vm_compute. reflexivity. Qed.

(** Market BUY without slippage: filled at the ask. *)
Example scenario_market_buy :
  TestKit.fill_prices "E-1"
    (events (run [(5%nat, ProcessTick (TestKit.tick 11000 11002 1000));
                  (5%nat, DoSubmitOrder (TestKit.submit TestKit.market_buy))]
               (TestKit.engine false [])))
  = [11002].
Proof. vm_compute. reflexivity. Qed.

(** SELL LIMIT at 1.1030, bid 1.1031, slipped by one tick: filled at 1.1029. *)
Example scenario_limit_sell_slipped :
  TestKit.fill_prices "L-1"
    (events (run TestKit.limit_is_crossed (TestKit.engine false [])))
  = [11029].
Proof. vm_compute. reflexivity. Qed.

(** OCO cascade: the stop-loss fills at 1.0980, the take-profit is
    cancelled, and both leave the working orders and the OCO map. *)
Example scenario_oco_cascade :
  let s := run TestKit.stop_loss_is_hit (TestKit.engine false []) in
  TestKit.fill_prices "SL-1" (events s) = [10980]
  /\ last (events s) = Some (OrderCancelled "SIM-000" "TP-1" 2000 10%nat 2000)
  /\ _working_orders s = []
  /\ _oco_orders s = ∅
  /\ _atomic_child_orders s = [].
Proof. vm_compute. repeat split. Qed.

(** Expiry: the tick after the expire time expires the order. *)
Example scenario_expiry :
  let s := run TestKit.limit_expires (TestKit.engine false []) in
  last (events s) = Some (OrderExpired "SIM-000" "X-1" (Some 1060) 4%nat 1070)
  /\ _working_orders s = [].
Proof. vm_compute. repeat split. Qed.

(** A closing fill books pnl minus commission: (1.1000 - 1.0990) x 100,000
    less the commission of 0.02, unless the account is frozen. *)
Example scenario_closing_fill :
  let open_ := run TestKit.position_is_closed
                 (TestKit.engine false [("C-1", TestKit.cheap_long)]) in
  let frozen := run TestKit.position_is_closed
                  (TestKit.engine true [("C-1", TestKit.cheap_long)]) in
  ledger open_ = [ClosingFill 10000 2]
  /\ account_capital open_ = 100000000 + (10000 - 2)
  /\ ledger frozen = [ClosingFill 10000 2]
  /\ account_capital frozen = 100000000
  /\ total_commissions frozen = -2.
Proof. vm_compute. repeat split. Qed.
(** ** Bar structures: the two conversions *)

(** X1. Converting a bar structure to its name and back gives the bar
    structure again, for every member of the enum ([UNDEFINED] included). *)
Theorem bar_structure_round_trip (b : BarStructure.t) :
  bar_structure_from_string (bar_structure_to_string (BarStructure.value b))
  = b.
Proof. destruct b; reflexivity. Qed.

Lemma bar_structure_from_string_unknown name :
  name ∉ bar_structure_names ->
  bar_structure_from_string name = BarStructure.UNDEFINED.
Proof.
  intros Hn. unfold bar_structure_from_string.
  repeat lazymatch goal with
  | |- context [String.eqb name ?c] =>
      destruct (String.eqb_spec name c) as [->|_];
      [exfalso; apply Hn; unfold bar_structure_names; set_solver|]
  end.
  reflexivity.
Qed.

(** X2. A name [bar_structure_from_string] knows is read back unchanged by
    [bar_structure_to_string]; every other string is read as [UNDEFINED] and
    comes back as the name UNDEFINED. *)
Theorem bar_structure_name_round_trip (name : string) :
  bar_structure_to_string
    (BarStructure.value (bar_structure_from_string name))
  = if bool_decide (name ∈ bar_structure_names) then name else "UNDEFINED".
Proof.
  destruct (bool_decide (name ∈ bar_structure_names)) eqn:Hd.
  - apply bool_decide_eq_true in Hd. unfold bar_structure_names in Hd.
    repeat (apply elem_of_cons in Hd; destruct Hd as [->|Hd];
            [reflexivity|]).
    now apply elem_of_nil in Hd.
  - apply bool_decide_eq_false in Hd.
    now rewrite bar_structure_from_string_unknown.
Qed.

(** X3. [bar_structure_to_string] gives the name UNDEFINED exactly for the
    integers outside 1..10: no member of the enum other than [UNDEFINED]
    is given that name. *)
Theorem bar_structure_to_string_undefined (v : Z) :
  bar_structure_to_string v = "UNDEFINED" <-> ~ (1 <= v <= 10).
Proof.
  unfold bar_structure_to_string.
  repeat lazymatch goal with
  | |- context [?a =? ?c] => destruct (Z.eqb_spec a c) as [->|?]
  end; split; intros H; try lia; try discriminate H.
  reflexivity.
Qed.
(** ** Further invariants of runs *)

Section more_runs.
Context {W FM : Type}.
Context `{EXEC : !ExecEngineOps W, FILL : !FillModelOps FM}.
Context `{CALC : !Calculators, CAL : !Calendar, NUM : !Numerics}.
Implicit Types (s : @State W FM).
Local Abbreviation St := (@State W FM).

(** An invariant that only the working orders can falsify is kept by every
    call, once [work_order] and [reset] keep it. *)
Lemma working_only_call (I : St -> Prop) fuel (c : @Call W FM) :
  harmless I ->
  (forall v s, I s -> I (set_account_capital v s)) ->
  (forall v s, I s -> I (set_total_commissions v s)) ->
  (forall v s, I s -> I (set_total_rollover v s)) ->
  (forall v s, I s -> I (set_ledger v s)) ->
  (forall v s, I s -> I (set_oco_orders v s)) ->
  (forall v s, I s -> I (set_atomic_child_orders v s)) ->
  (forall o, preserves I (work_order o)) ->
  preserves I reset ->
  day_blind I ->
  preserves I (call fuel c).
Proof.
  intros Hh Hcap Hcom Hrol Hled Hoco Hat Hwork Hreset Hday.
  assert (Hw : forall o : Order.t, True -> preserves I (work_order o))
    by (intros o _; apply Hwork).
  assert (Hu : forall a b,
             hoare (fun s => I s /\ _oco_orders s !! a = Some b)
               (unlink_oco a b) (fun _ => I) I)
    by (intros; apply unlink_oco_blind; auto).
  assert (Hbf : forall pnl commission,
             preserves I (book_closing_fill pnl commission))
    by (intros; apply book_closing_fill_blind; auto).
  assert (Hbr : forall amount, preserves I (book_rollover amount))
    by (intros; apply book_rollover_blind; auto).
  assert (Hf : forall fuel o p, preserves I (_fill_order fuel o p))
    by (intros; now apply (_fill_order_pres I (fun _ => True))).
  apply (call_pres I (fun _ => True) Hh Hbf Hbr Hu Hw Hf Hreset Hday).
  destruct c; simpl; auto. split; auto.
  apply register_atomic_order_blind; auto.
Qed.

Lemma working_only_run (I : St -> Prop) cs s :
  (forall fuel c, preserves I (call fuel c)) -> I s -> I (run cs s).
Proof.
  intros Hc. revert s. induction cs as [|[fuel c] cs IH]; intros s Hs; simpl;
    auto.
  apply IH. unfold after. apply preserves_snd; auto.
Qed.

(** *** The working orders *)

Lemma keyed_by_id_harmless : harmless (keyed_by_id (W:=W) (FM:=FM)).
Proof.
  split; try (intros; assumption).
  intros k s Hs k' o. simpl. intros Hg. apply Hs.
  eapply od_get_del_Some; eauto.
Qed.

Lemma keyed_by_id_work_order (o : Order.t) :
  preserves (keyed_by_id (W:=W) (FM:=FM)) (work_order o).
Proof.
  unfold work_order.
  apply preserves_bind;
    [apply _accept_order_pres, keyed_by_id_harmless|intros ?].
  apply preserves_bind; [|intros ?].
  - apply preserves_modify. intros s Hs k o'. simpl.
    destruct (decide (Order.id o = k)) as [<-|Hne].
    + rewrite od_get_set_eq. now intros [= <-].
    + rewrite od_get_set_ne by exact Hne. apply Hs.
  - pres; eauto using the_account_pres, generate_pres, time_now_pres,
      handle_event_pres, keyed_by_id_harmless.
Qed.

Lemma keyed_by_id_call fuel (c : @Call W FM) :
  preserves keyed_by_id (call fuel c).
Proof.
  apply working_only_call; auto using keyed_by_id_harmless,
    keyed_by_id_work_order.
  - intros s _ k o. simpl. discriminate.
  - split; intros; assumption.
Qed.

(** X5. In every state reached from the constructed engine, each working
    order is stored under its own identifier: the order a command finds
    under an identifier carries that identifier. *)
Theorem working_orders_keyed_by_id
    ins config (fm : FM) clock0 guid0 db (w : W) cs k (o : Order.t) :
  od_get k (_working_orders (run cs (init ins config fm clock0 guid0 db w)))
  = Some o ->
  Order.id o = k.
Proof.
  revert k o.
  apply (working_only_run keyed_by_id); [apply keyed_by_id_call|].
  intros k o. simpl. discriminate.
Qed.

Lemma reported_working_app l e k :
  reported_working l k -> reported_working (l ++ [e]) k.
Proof.
  intros (e' & Hin & He'). exists e'. split; [|exact He'].
  apply elem_of_app. now left.
Qed.

Lemma working_reported_harmless : harmless (working_reported (W:=W) (FM:=FM)).
Proof.
  split; try (intros; assumption).
  - intros e s Hs k. simpl. intros Hk. apply reported_working_app. now apply Hs.
  - intros k s Hs k'. simpl. intros Hk. apply Hs. eapply od_mem_del; eauto.
Qed.

Lemma work_order_run (o : Order.t) s :
  exists accepted working s',
    work_order o s = (Ok tt, s')
    /\ events s' = events s ++ [accepted; working]
    /\ match working with
       | OrderWorking _ order_id _ _ _ _ _ _ _ _ _ _ _ _ =>
           order_id = Order.id o
       | _ => False
       end
    /\ _working_orders s' = od_set (Order.id o) o (_working_orders s).
Proof.
  do 3 eexists. split; [reflexivity|]. simpl.
  rewrite <- app_assoc. repeat split.
Qed.

Lemma working_reported_work_order (o : Order.t) :
  preserves (working_reported (W:=W) (FM:=FM)) (work_order o).
Proof.
  intros s Hs.
  destruct (work_order_run o s) as (a & w & s' & -> & Hev & Hw & Hwo).
  intros k. rewrite Hwo, Hev. intros Hk.
  destruct (decide (Order.id o = k)) as [<-|Hne].
  - exists w. split; [set_solver|]. destruct w; auto.
  - replace (events s ++ [a; w]) with ((events s ++ [a]) ++ [w])
      by now rewrite <- app_assoc.
    do 2 apply reported_working_app. apply Hs.
    unfold od_mem in *. now rewrite od_get_set_ne in Hk.
Qed.

Lemma working_reported_call fuel (c : @Call W FM) :
  preserves working_reported (call fuel c).
Proof.
  apply working_only_call; auto using working_reported_harmless,
    working_reported_work_order.
  - intros s _ k. simpl. discriminate.
  - split; intros; assumption.
Qed.

(** X6. In every state reached from the constructed engine, an
    [OrderWorking] event has been delivered for every working order. *)
Theorem working_orders_reported
    ins config (fm : FM) clock0 guid0 db (w : W) cs k :
  let s := run cs (init ins config fm clock0 guid0 db w) in
  od_mem k (_working_orders s) = true ->
  reported_working (events s) k.
Proof.
  intros s. revert k.
  apply (working_only_run working_reported); [apply working_reported_call|].
  intros k. simpl. discriminate.
Qed.

End more_runs.
(** ** Exact effects of the event handlers *)

Ltac run_monad :=
  cbv beta iota delta [bind gets ret raise modify getitem not_none time_now
                       generate the_account exec_engine_handle_event].

Section handlers.
Context {W FM : Type}.
Context `{EXEC : !ExecEngineOps W, FILL : !FillModelOps FM}.
Context `{CALC : !Calculators, CAL : !Calendar, NUM : !Numerics}.
Implicit Types (s : @State W FM).
Local Abbreviation St := (@State W FM).

(** The OCO check on one order of a pair when no bracket is held: the pair
    leaves the OCO map and the partner, if it is working, is cancelled. *)
Lemma _check_oco_order_pair a b s :
  _oco_orders s !! a = Some b -> is_Some (_oco_orders s !! b) -> a <> b ->
  _atomic_child_orders s = [] ->
  _check_oco_order a s
  = let s1 := set_oco_orders (delete b (delete a (_oco_orders s))) s in
    match od_get b (_working_orders s) with
    | Some partner =>
        (Ok tt,
         set_working_orders (od_del b (_working_orders s))
           (emitted
              (OrderCancelled (Account.id (account (world s)))
                 (Order.id partner) (clock s) (guid_count s) (clock s))
              (set_guid_count (S (guid_count s)) s1)))
    | None => (Ok tt, s1)
    end.
Proof.
  intros Hab [a' Hba] Hne Hat.
  unfold _check_oco_order, unlink_oco, del_oco_orders, _cancel_oco_order,
    del_working_orders.
  run_monad. rewrite Hab. run_monad. rewrite Hab. simpl.
  rewrite lookup_delete_ne by exact Hne. rewrite Hba. simpl. rewrite Hat. simpl.
  unfold od_mem.
  destruct (od_get b (_working_orders s)) as [partner|] eqn:Hw; simpl;
    rewrite ?Hw; reflexivity.
Qed.


(** X8. Cancelling one order of a working OCO pair cancels both: with no
    bracket held, [cancel_order] returns having delivered [OrderCancelled]
    for the order and then for its partner, both have left the working
    orders and neither is in the OCO map any more. *)
Theorem cancel_order_cancels_partner (command : CancelOrder.t)
    (o partner : Order.t) b s :
  let a := CancelOrder.order_id command in
  od_get a (_working_orders s) = Some o ->
  od_get b (_working_orders s) = Some partner ->
  _oco_orders s !! a = Some b -> is_Some (_oco_orders s !! b) -> a <> b ->
  _atomic_child_orders s = [] ->
  let cancelled :=
    OrderCancelled (CancelOrder.account_id command) (Order.id o) (clock s)
      (guid_count s) (clock s) in
  let s' := snd (cancel_order command s) in
  fst (cancel_order command s) = Ok tt
  /\ events s'
     = events s
       ++ [cancelled;
           OrderCancelled
             (Account.id (account (handle_event cancelled (world s))))
             (Order.id partner) (clock s) (S (guid_count s)) (clock s)]
  /\ _working_orders s' = od_del b (od_del a (_working_orders s))
  /\ _oco_orders s' = delete b (delete a (_oco_orders s))
  /\ od_mem a (_working_orders s') = false
  /\ od_mem b (_working_orders s') = false.
Proof.
  intros a Ho Hp Hab Hba Hne Hat cancelled s'.
  assert (Hrun : cancel_order command s
                 = _check_oco_order a
                     (emitted cancelled
                        (set_working_orders (od_del a (_working_orders s))
                           (set_guid_count (S (guid_count s)) s)))).
  { unfold cancel_order, del_working_orders. run_monad. fold a. rewrite Ho.
    simpl. unfold od_mem. rewrite Ho. reflexivity. }
  unfold s'. rewrite Hrun.
  rewrite (_check_oco_order_pair a b) by assumption.
  cbn [emitted set_events set_world set_working_orders set_guid_count
       _working_orders].
  rewrite od_get_del_ne by exact Hne. rewrite Hp. simpl.
  rewrite <- app_assoc. unfold od_mem.
  rewrite od_get_del_eq.
  rewrite od_get_del_ne, od_get_del_eq by (intros H; now apply Hne).
  repeat split.
Qed.

(** X9. The fill of one order of a working OCO pair cancels the other:
    with no position held for the order and no bracket held, [_fill_order]
    returns having delivered [OrderFilled] at the fill price and then
    [OrderCancelled] for the partner, which has left the working orders;
    the pair has left the OCO map. *)
Theorem fill_cancels_oco_partner fuel (o partner : Order.t) (fill_price : Price)
    instrument b s :
  instruments (static s) !! Order.symbol o = Some instrument ->
  get_position_for_order (world s) (Order.id o) = None ->
  od_get b (_working_orders s) = Some partner ->
  _oco_orders s !! Order.id o = Some b -> is_Some (_oco_orders s !! b) ->
  Order.id o <> b ->
  _atomic_child_orders s = [] ->
  let filled :=
    OrderFilled
      (order_filled (account (world s)) o fill_price
         (Instrument.quote_currency instrument) (clock s) (guid_count s)) in
  let s' := snd (_fill_order (S fuel) o fill_price s) in
  fst (_fill_order (S fuel) o fill_price s) = Ok tt
  /\ events s'
     = events s
       ++ [filled;
           OrderCancelled
             (Account.id (account (handle_event filled (world s))))
             (Order.id partner) (clock s) (S (guid_count s)) (clock s)]
  /\ _working_orders s' = od_del b (_working_orders s)
  /\ _oco_orders s' = delete b (delete (Order.id o) (_oco_orders s)).
Proof.
  intros Hins Hpos Hp Hab Hba Hne Hat filled s'.
  assert (Hrun : fill_and_report o fill_price s
                 = _check_oco_order (Order.id o)
                     (emitted filled (set_guid_count (S (guid_count s)) s))).
  { unfold fill_and_report. run_monad. rewrite Hins. simpl. rewrite Hpos.
    reflexivity. }
  assert (Hfull : exists sf,
             _fill_order (S fuel) o fill_price s = (Ok tt, sf)
             /\ events sf
                = (events s ++ [filled])
                  ++ [OrderCancelled
                        (Account.id (account (handle_event filled (world s))))
                        (Order.id partner) (clock s) (S (guid_count s))
                        (clock s)]
             /\ _working_orders sf = od_del b (_working_orders s)
             /\ _oco_orders sf
                = delete b (delete (Order.id o) (_oco_orders s))).
  { cbn [_fill_order]. unfold bind at 1. rewrite Hrun.
    rewrite (_check_oco_order_pair (Order.id o) b) by assumption.
    cbn [emitted set_events set_world set_working_orders set_guid_count
         _working_orders].
    rewrite Hp. unfold work_atomic_children. run_monad. simpl. rewrite Hat.
    simpl. eexists. split; [reflexivity|]. repeat split. }
  destruct Hfull as (sf & Hfull & Hev & Hw & Hoco).
  unfold s'. rewrite Hfull. simpl. rewrite Hev, <- app_assoc.
  repeat split; assumption.
Qed.

Lemma od_del_absent {K V} `{EqDecision K} (k : K) (d : odict K V) :
  od_mem k d = false -> od_del k d = d.
Proof.
  unfold od_mem. induction d as [|[k' v] d IH]; simpl; [reflexivity|].
  destruct (decide (k = k')) as [->|Hne]; [discriminate|].
  intros H. now rewrite IH.
Qed.

(** The rejection of an order that is in no OCO pair: one event, and the
    bracket held for the order, if any, is discarded. *)
Lemma _reject_order_run (o : Order.t) reason s :
  _oco_orders s !! Order.id o = None ->
  _reject_order o reason s
  = (Ok tt,
     set_atomic_child_orders
       (od_del (Order.id o) (_atomic_child_orders s))
       (emitted
          (OrderRejected (Account.id (account (world s))) (Order.id o)
             (clock s) reason (guid_count s) (clock s))
          (set_guid_count (S (guid_count s)) s))).
Proof.
  intros Hoco.
  unfold _reject_order, _check_oco_order, _clean_up_child_orders,
    del_atomic_child_orders.
  run_monad. simpl. rewrite Hoco. simpl.
  destruct (od_mem (Order.id o) (_atomic_child_orders s)) eqn:Hm; simpl.
  - rewrite Hm. reflexivity.
  - rewrite (od_del_absent _ _ Hm). reflexivity.
Qed.


(** X10. When an order expires while its bracket is still held, the OCO
    pair of the children is removed with the bracket: [_expire_order]
    returns having delivered [OrderExpired] only, the first child and its
    partner have left the OCO map, and no bracket is held for the order. *)
Theorem expired_entry_unlinks_children (o first : Order.t) rest other s :
  od_get (Order.id o) (_atomic_child_orders s) = Some (first :: rest) ->
  _oco_orders s !! Order.id first = Some other ->
  is_Some (_oco_orders s !! other) -> Order.id first <> other ->
  let s' := snd (_expire_order o s) in
  fst (_expire_order o s) = Ok tt
  /\ events s'
     = events s
       ++ [OrderExpired (Account.id (account (world s))) (Order.id o)
             (Order.expire_time o) (guid_count s) (clock s)]
  /\ _oco_orders s' = delete other (delete (Order.id first) (_oco_orders s))
  /\ _oco_orders s' !! Order.id first = None
  /\ _oco_orders s' !! other = None
  /\ od_mem (Order.id o) (_atomic_child_orders s') = false
  /\ _working_orders s' = _working_orders s.
Proof.
  intros Hat Hab [a' Hba] Hne s'.
  assert (Hfull : exists sf,
             _expire_order o s = (Ok tt, sf)
             /\ events sf
                = events s
                  ++ [OrderExpired (Account.id (account (world s)))
                        (Order.id o) (Order.expire_time o) (guid_count s)
                        (clock s)]
             /\ _oco_orders sf
                = delete other (delete (Order.id first) (_oco_orders s))
             /\ _atomic_child_orders sf
                = od_del (Order.id o) (_atomic_child_orders s)
             /\ _working_orders sf = _working_orders s).
  { unfold _expire_order, unlink_oco, del_oco_orders, _clean_up_child_orders,
      del_atomic_child_orders.
    run_monad. simpl. rewrite Hat. simpl. rewrite Hab. simpl. rewrite Hab.
    simpl. rewrite lookup_delete_ne by exact Hne. rewrite Hba. simpl.
    unfold od_mem. rewrite Hat. simpl. rewrite Hat.
    eexists. split; [reflexivity|]. repeat split. }
  destruct Hfull as (sf & Hfull & Hev & Hoco & Hatomic & Hw).
  unfold s'. rewrite Hfull. simpl. rewrite Hoco, Hatomic. unfold od_mem.
  rewrite od_get_del_eq, lookup_delete_eq.
  rewrite lookup_delete_ne, lookup_delete_eq by (intros H; now apply Hne).
  repeat split; assumption.
Qed.

(** An order that is not working, of a known instrument and an admissible
    quantity, is rejected when no tick has been seen for its symbol. *)
Lemma _process_order_no_market fill (o : Order.t) instrument s :
  od_mem (Order.id o) (_working_orders s) = false ->
  instruments (static s) !! Order.symbol o = Some instrument ->
  Instrument.min_trade_size instrument <= Order.quantity o
    <= Instrument.max_trade_size instrument ->
  od_get (Order.symbol o) (_market s) = None ->
  _process_order_with fill o s
  = _reject_order o ("no market for " +:+ str_Symbol (Order.symbol o)) s.
Proof.
  intros Hw Hins [Hmin Hmax] Hm. unfold _process_order_with.
  unfold bind at 1. unfold gets at 1. cbv beta iota. rewrite Hw.
  unfold bind at 1. unfold gets at 1. cbv beta iota.
  unfold bind at 1. rewrite Hins. simpl getitem. unfold ret at 1.
  cbv beta iota.
  replace (Order.quantity o >? Instrument.max_trade_size instrument)
    with false by lia.
  replace (Order.quantity o <? Instrument.min_trade_size instrument)
    with false by lia.
  unfold bind at 1. unfold gets at 1. cbv beta iota. rewrite Hm.
  reflexivity.
Qed.

Lemma submit_order_no_market_run fuel (command : SubmitOrder.t) instrument s :
  let o := SubmitOrder.order command in
  od_mem (Order.id o) (_working_orders s) = false ->
  instruments (static s) !! Order.symbol o = Some instrument ->
  Instrument.min_trade_size instrument <= Order.quantity o
    <= Instrument.max_trade_size instrument ->
  od_get (Order.symbol o) (_market s) = None ->
  _oco_orders s !! Order.id o = None ->
  let submitted :=
    OrderSubmitted (SubmitOrder.account_id command) (Order.id o) (clock s)
      (guid_count s) (clock s) in
  let s1 := emitted submitted (set_guid_count (S (guid_count s)) s) in
  submit_order fuel command s
  = (Ok tt,
     set_atomic_child_orders
       (od_del (Order.id o) (_atomic_child_orders s))
       (emitted
          (OrderRejected (Account.id (account (world s1))) (Order.id o)
             (clock s) ("no market for " +:+ str_Symbol (Order.symbol o))
             (S (guid_count s)) (clock s))
          (set_guid_count (S (S (guid_count s))) s1))).
Proof.
  intros o Hw Hins Hq Hm Hoco submitted s1.
  assert (Hrun : submit_order fuel command s = _process_order fuel o s1)
    by reflexivity.
  rewrite Hrun. unfold _process_order.
  rewrite (_process_order_no_market _ o instrument) by assumption.
  rewrite _reject_order_run by assumption. reflexivity.
Qed.

(** X11. An order submitted before any tick has been seen for its symbol
    is rejected for the missing market: [submit_order] returns having
    delivered [OrderSubmitted] and then [OrderRejected]; the working orders
    and the OCO map are as before and no bracket is held for the order. *)
Theorem submit_order_without_market fuel (command : SubmitOrder.t)
    instrument s :
  let o := SubmitOrder.order command in
  od_mem (Order.id o) (_working_orders s) = false ->
  instruments (static s) !! Order.symbol o = Some instrument ->
  Instrument.min_trade_size instrument <= Order.quantity o
    <= Instrument.max_trade_size instrument ->
  od_get (Order.symbol o) (_market s) = None ->
  _oco_orders s !! Order.id o = None ->
  let submitted :=
    OrderSubmitted (SubmitOrder.account_id command) (Order.id o) (clock s)
      (guid_count s) (clock s) in
  let s' := snd (submit_order fuel command s) in
  fst (submit_order fuel command s) = Ok tt
  /\ events s'
     = events s
       ++ [submitted;
           OrderRejected
             (Account.id (account (handle_event submitted (world s))))
             (Order.id o) (clock s)
             ("no market for " +:+ str_Symbol (Order.symbol o))
             (S (guid_count s)) (clock s)]
  /\ _working_orders s' = _working_orders s
  /\ _oco_orders s' = _oco_orders s
  /\ od_mem (Order.id o) (_atomic_child_orders s') = false.
Proof.
  intros o Hw Hins Hq Hm Hoco submitted s'.
  unfold s'. rewrite (submit_order_no_market_run fuel command instrument)
    by assumption.
  simpl. rewrite <- app_assoc. unfold od_mem. rewrite od_get_del_eq.
  repeat split.
Qed.

(** X12. When the entry of a bracket with a take-profit is rejected, the
    bracket is discarded but the OCO pair of its children stays in the OCO
    map (unlike on expiry): here the entry is rejected for the missing
    market, and after [submit_atomic_order] has returned the stop-loss and
    the take-profit are still each other's partner. *)
Theorem rejected_entry_keeps_oco_pair fuel (command : SubmitAtomicOrder.t)
    (take_profit : Order.t) instrument s :
  let entry := AtomicOrder.entry (SubmitAtomicOrder.atomic_order command) in
  let stop_loss :=
    AtomicOrder.stop_loss (SubmitAtomicOrder.atomic_order command) in
  AtomicOrder.take_profit (SubmitAtomicOrder.atomic_order command)
  = Some take_profit ->
  od_mem (Order.id entry) (_working_orders s) = false ->
  instruments (static s) !! Order.symbol entry = Some instrument ->
  Instrument.min_trade_size instrument <= Order.quantity entry
    <= Instrument.max_trade_size instrument ->
  od_get (Order.symbol entry) (_market s) = None ->
  _oco_orders s !! Order.id entry = None ->
  Order.id entry <> Order.id stop_loss ->
  Order.id entry <> Order.id take_profit ->
  let s' := snd (submit_atomic_order fuel command s) in
  fst (submit_atomic_order fuel command s) = Ok tt
  /\ od_mem (Order.id entry) (_atomic_child_orders s') = false
  /\ _oco_orders s'
     = <[Order.id stop_loss := Order.id take_profit]>
         (<[Order.id take_profit := Order.id stop_loss]> (_oco_orders s))
  /\ _oco_orders s' !! Order.id stop_loss = Some (Order.id take_profit)
  /\ _working_orders s' = _working_orders s.
Proof.
  intros entry stop_loss Htp Hw Hins Hq Hm Hoco Hsl Htpne s'.
  set (s1 := set_guid_count (S (guid_count s))
               (set_atomic_child_orders
                  (od_set (Order.id entry) [stop_loss; take_profit]
                     (_atomic_child_orders s))
                  (set_oco_orders
                     (<[Order.id stop_loss := Order.id take_profit]>
                        (<[Order.id take_profit := Order.id stop_loss]>
                           (_oco_orders s))) s))).
  assert (Hrun : submit_atomic_order fuel command s
                 = submit_order fuel
                     {| SubmitOrder.trader_id :=
                          SubmitAtomicOrder.trader_id command;
                        SubmitOrder.account_id :=
                          SubmitAtomicOrder.account_id command;
                        SubmitOrder.strategy_id :=
                          SubmitAtomicOrder.strategy_id command;
                        SubmitOrder.position_id :=
                          SubmitAtomicOrder.position_id command;
                        SubmitOrder.order := entry;
                        SubmitOrder.command_id := guid_count s;
                        SubmitOrder.command_timestamp := clock s |} s1).
  { unfold submit_atomic_order, register_atomic_order. rewrite Htp.
    reflexivity. }
  set (c := SubmitOrder.mk _ _ _ _ _ _ _) in Hrun.
  unfold s'. rewrite Hrun.
  rewrite (submit_order_no_market_run fuel c instrument s1); try assumption.
  - simpl. unfold od_mem. rewrite od_get_del_eq, lookup_insert_eq.
    repeat split.
  - simpl. rewrite !lookup_insert_ne by (intros H; now auto). exact Hoco.
Qed.

End handlers.
(** ** Commands *)

Section commands.
Context {W FM : Type}.
Context `{EXEC : !ExecEngineOps W, FILL : !FillModelOps FM}.
Context `{CALC : !Calculators, CAL : !Calendar, NUM : !Numerics}.
Implicit Types (s : @State W FM).
Local Abbreviation St := (@State W FM).

(** X13. A command for an order that is not working is refused and changes
    nothing else: [cancel_order] and [modify_order] return having delivered
    one [OrderCancelReject] event, with the response cancel order or modify
    order and the reason order not found. *)
Theorem unknown_order_is_refused (cancel : CancelOrder.t)
    (modification : ModifyOrder.t) s :
  od_get (CancelOrder.order_id cancel) (_working_orders s) = None ->
  od_get (ModifyOrder.order_id modification) (_working_orders s) = None ->
  cancel_order cancel s
  = (Ok tt,
     emitted
       (OrderCancelReject (Account.id (account (world s)))
          (CancelOrder.order_id cancel) (clock s) "cancel order"
          "order not found" (guid_count s) (clock s))
       (set_guid_count (S (guid_count s)) s))
  /\ modify_order modification s
     = (Ok tt,
        emitted
          (OrderCancelReject (Account.id (account (world s)))
             (ModifyOrder.order_id modification) (clock s) "modify order"
             "order not found" (guid_count s) (clock s))
          (set_guid_count (S (guid_count s)) s)).
Proof.
  intros Hc Hm. split.
  - unfold cancel_order. unfold bind at 1. unfold gets at 1. cbv beta iota.
    rewrite Hc. reflexivity.
  - unfold modify_order. unfold bind at 1. unfold gets at 1. cbv beta iota.
    rewrite Hm. reflexivity.
Qed.

Lemma not_working_harmless k : harmless (not_working (W:=W) (FM:=FM) k).
Proof.
  split; try (intros; assumption).
  intros k' s Hs. unfold not_working in *. simpl.
  destruct (od_mem k (od_del k' (_working_orders s))) eqn:Hm; [|reflexivity].
  apply od_mem_del in Hm. congruence.
Qed.

Lemma not_working_unlink k a b :
  hoare (S:=St) (fun s => not_working k s /\ _oco_orders s !! a = Some b)
        (unlink_oco a b) (fun _ => not_working k) (not_working k).
Proof. apply unlink_oco_blind; auto using not_working_harmless. Qed.

Lemma not_working_check_oco_order k a :
  preserves (not_working (W:=W) (FM:=FM) k) (_check_oco_order a).
Proof.
  apply (_check_oco_order_pres (not_working k));
    auto using not_working_harmless, not_working_unlink.
Qed.

Lemma not_working_expire_order k (o : Order.t) :
  preserves (not_working (W:=W) (FM:=FM) k) (_expire_order o).
Proof.
  apply (_expire_order_pres (not_working k));
    auto using not_working_harmless, not_working_unlink.
Qed.

Lemma emitted_first_expire_order base e (o : Order.t) :
  preserves (emitted_first (W:=W) (FM:=FM) base e) (_expire_order o).
Proof.
  apply (_expire_order_pres (emitted_first base e));
    auto using emitted_first_harmless, emitted_first_unlink.
Qed.

(** X14. [cancel_order] on a working order always removes it: however the
    call ends, the order is no longer working and [OrderCancelled] for it
    is the first event delivered; when the order is in no OCO pair this is
    the whole effect. *)
Theorem cancel_order_removes (command : CancelOrder.t) (o : Order.t) s :
  let a := CancelOrder.order_id command in
  od_get a (_working_orders s) = Some o ->
  let cancelled :=
    OrderCancelled (CancelOrder.account_id command) (Order.id o) (clock s)
      (guid_count s) (clock s) in
  let s' := snd (cancel_order command s) in
  od_mem a (_working_orders s') = false
  /\ emitted_first (events s) cancelled s'
  /\ (_oco_orders s !! a = None ->
      cancel_order command s
      = (Ok tt,
         emitted cancelled
           (set_working_orders (od_del a (_working_orders s))
              (set_guid_count (S (guid_count s)) s)))).
Proof.
  intros a Ho cancelled s'.
  set (s1 := emitted cancelled
               (set_working_orders (od_del a (_working_orders s))
                  (set_guid_count (S (guid_count s)) s))).
  assert (Hrun : cancel_order command s = _check_oco_order a s1).
  { unfold cancel_order, del_working_orders. run_monad. fold a. rewrite Ho.
    simpl. unfold od_mem. rewrite Ho. reflexivity. }
  unfold s'. rewrite Hrun. split; [|split].
  - apply (preserves_snd (not_working a));
      [apply not_working_check_oco_order|].
    unfold not_working, od_mem. simpl. now rewrite od_get_del_eq.
  - apply (preserves_snd (emitted_first (events s) cancelled));
      [apply emitted_first_check_oco_order|].
    exists []. reflexivity.
  - intros Hoco. unfold _check_oco_order. run_monad. simpl. rewrite Hoco.
    reflexivity.
Qed.

(** *** Price validation *)

Lemma _check_valid_price_table (o : Order.t) (market : Tick.t) reject
    (p min_stop min_limit : Z) s :
  Order.price o = Some p ->
  _min_stops (static s) !! Order.symbol o = Some min_stop ->
  _min_limits (static s) !! Order.symbol o = Some min_limit ->
  _check_valid_price o market reject s
  = if keeps_distance o p min_stop min_limit market then (Ok true, s)
    else (Ok false,
          if reject then snd (_reject_order o (distance_reason o market) s)
          else s).
Proof.
  intros Hp Hs Hl.
  assert (Hrun : _check_valid_price o market reject s
                 = if keeps_distance o p min_stop min_limit market
                   then (Ok true, s)
                   else unraisable
                          (invalid_price reject o (distance_reason o market))
                          s).
  { unfold _check_valid_price, keeps_distance, distance_reason, order_price,
      unraisable.
    run_monad. rewrite Hp, Hs, Hl.
    destruct (Order.side o); destruct (in_STOP_ORDER_TYPES (Order.type o));
      [|destruct (decide (Order.type o = LIMIT)); [|reflexivity]
       | |destruct (decide (Order.type o = LIMIT)); [|reflexivity]];
      repeat match goal with
      | |- context [if ?c then _ else _] =>
          lazymatch c with
          | (_ <? _) => destruct c eqn:?
          | (_ >? _) => destruct c eqn:?
          | (_ <=? _) => destruct c eqn:?
          end
      end; try reflexivity; lia. }
  rewrite Hrun. destruct (keeps_distance o p min_stop min_limit market);
    [reflexivity|apply unraisable_invalid_price].
Qed.

(** X15. Price validation follows the table of minimum distances for all
    four kinds of priced order: without rejection it is a pure test that
    returns whether the price keeps its distance; a price that keeps its
    distance (equality included) passes and nothing happens; a price that
    does not is rejected with the reason of its kind, [OrderRejected]
    being the first event delivered. *)
Theorem price_validation_table (o : Order.t) (market : Tick.t)
    (p min_stop min_limit : Z) s :
  Order.price o = Some p ->
  _min_stops (static s) !! Order.symbol o = Some min_stop ->
  _min_limits (static s) !! Order.symbol o = Some min_limit ->
  let ok := keeps_distance o p min_stop min_limit market in
  _check_valid_price o market false s = (Ok ok, s)
  /\ (ok = true ->
      forall reject, _check_valid_price o market reject s = (Ok true, s))
  /\ (ok = false ->
      fst (_check_valid_price o market true s) <> Ok true
      /\ emitted_first (events s)
           (OrderRejected (Account.id (account (world s))) (Order.id o)
              (clock s) (distance_reason o market) (guid_count s) (clock s))
           (snd (_check_valid_price o market true s))).
Proof.
  intros Hp Hs Hl ok.
  pose proof (fun reject =>
                _check_valid_price_table o market reject p min_stop min_limit
                  s Hp Hs Hl) as Hrun.
  fold ok in Hrun. split; [|split].
  - rewrite Hrun. now destruct ok.
  - intros Hok reject. rewrite Hrun, Hok. reflexivity.
  - intros Hok. rewrite Hrun, Hok. split.
    + discriminate.
    + apply _reject_order_emits.
Qed.

(** X16. A priced order that passes the checks becomes a working order:
    for an order that is not MARKET, not yet working, of a known instrument
    and an admissible quantity, with a market for its symbol and a price
    that keeps its distance, [submit_order] returns having delivered
    [OrderSubmitted], [OrderAccepted] and [OrderWorking]; the order is then
    found among the working orders under its identifier, after those that
    were working before. *)
Theorem accepted_order_becomes_working fuel (command : SubmitOrder.t)
    instrument (market : Tick.t) (p min_stop min_limit : Z) s :
  let o := SubmitOrder.order command in
  od_mem (Order.id o) (_working_orders s) = false ->
  instruments (static s) !! Order.symbol o = Some instrument ->
  Instrument.min_trade_size instrument <= Order.quantity o
    <= Instrument.max_trade_size instrument ->
  od_get (Order.symbol o) (_market s) = Some market ->
  Order.type o <> MARKET ->
  Order.price o = Some p ->
  _min_stops (static s) !! Order.symbol o = Some min_stop ->
  _min_limits (static s) !! Order.symbol o = Some min_limit ->
  keeps_distance o p min_stop min_limit market = true ->
  let submitted :=
    OrderSubmitted (SubmitOrder.account_id command) (Order.id o) (clock s)
      (guid_count s) (clock s) in
  let w1 := handle_event submitted (world s) in
  let accepted :=
    OrderAccepted (Account.id (account w1)) (Order.id o)
      ("B" +:+ Order.id o) (Order.label o) (clock s) (S (guid_count s))
      (clock s) in
  let w2 := handle_event accepted w1 in
  let working :=
    OrderWorking (Account.id (account w2)) (Order.id o)
      ("B" +:+ Order.id o) (Order.symbol o) (Order.label o) (Order.side o)
      (Order.type o) (Order.quantity o) (Order.price o)
      (Order.time_in_force o) (clock s) (S (S (guid_count s))) (clock s)
      (Order.expire_time o) in
  let s' := snd (submit_order fuel command s) in
  fst (submit_order fuel command s) = Ok tt
  /\ events s' = events s ++ [submitted; accepted; working]
  /\ _working_orders s' = _working_orders s ++ [(Order.id o, o)]
  /\ od_get (Order.id o) (_working_orders s') = Some o
  /\ _oco_orders s' = _oco_orders s
  /\ _atomic_child_orders s' = _atomic_child_orders s.
Proof.
  intros o Hw Hins [Hmin Hmax] Hm Hty Hp Hs Hl Hok submitted w1 accepted w2
    working s'.
  set (s1 := emitted submitted (set_guid_count (S (guid_count s)) s)).
  assert (Hrun : submit_order fuel command s = work_order o s1).
  { change (submit_order fuel command s) with (_process_order fuel o s1).
    unfold _process_order, _process_order_with.
    unfold bind at 1. unfold gets at 1. cbv beta iota.
    change (_working_orders s1) with (_working_orders s). rewrite Hw.
    unfold bind at 1. unfold gets at 1. cbv beta iota.
    unfold bind at 1. change (static s1) with (static s). rewrite Hins.
    simpl getitem. unfold ret at 1. cbv beta iota.
    replace (Order.quantity o >? Instrument.max_trade_size instrument)
      with false by lia.
    replace (Order.quantity o <? Instrument.min_trade_size instrument)
      with false by lia.
    unfold bind at 1. unfold gets at 1. cbv beta iota.
    change (_market s1) with (_market s). rewrite Hm.
    unfold bind at 1.
    rewrite (_check_valid_price_table o market true p min_stop min_limit s1)
      by assumption.
    rewrite Hok. cbn [negb]. cbv iota.
    rewrite decide_False by exact Hty. reflexivity. }
  assert (Hset : od_set (Order.id o) o (_working_orders s)
                 = _working_orders s ++ [(Order.id o, o)]).
  { revert Hw. unfold od_mem. generalize (_working_orders s).
    intros l. induction l as [|[k v] l IH]; simpl; [reflexivity|].
    destruct (decide (Order.id o = k)); [discriminate|].
    intros H. now rewrite IH. }
  unfold s'. rewrite Hrun.
  assert (Hfull : exists sf,
             work_order o s1 = (Ok tt, sf)
             /\ events sf = ((events s ++ [submitted]) ++ [accepted])
                            ++ [working]
             /\ _working_orders sf
                = od_set (Order.id o) o (_working_orders s)
             /\ _oco_orders sf = _oco_orders s
             /\ _atomic_child_orders sf = _atomic_child_orders s).
  { eexists. split; [reflexivity|]. repeat split. }
  destruct Hfull as (sf & -> & Hev & Hwo & Hoco & Hat). simpl.
  rewrite Hev, Hwo, Hoco, Hat, <- !app_assoc. rewrite od_get_set_eq.
  rewrite Hset. repeat split.
Qed.

End commands.
(** ** The matching loop on any priced order *)

Section matching_all.
Context {W FM : Type}.
Context `{EXEC : !ExecEngineOps W, FILL : !FillModelOps FM}.
Context `{CALC : !Calculators, CAL : !Calendar, NUM : !Numerics}.
Implicit Types (s : @State W FM).
Local Abbreviation St := (@State W FM).

Lemma simulate_order_priced fuel (tick : Tick.t) now (o : Order.t) p
    instrument s :
  Order.symbol o = Tick.symbol tick ->
  order_state (world s) o = WORKING ->
  Order.price o = Some p ->
  instruments (static s) !! Order.symbol o = Some instrument ->
  simulate_order fuel tick now o s
  = if triggered tick o p
    then fill_working_order fuel o p (slip_of (Order.side o)) s
    else check_order_expiry now o s.
Proof.
  intros Hsym Hstate Hp Hins.
  unfold simulate_order. rewrite <- Hsym, String.eqb_refl. cbn [negb].
  cbv iota. unfold bind at 1. unfold gets at 1. cbv beta iota.
  rewrite Hstate. rewrite decide_False by (intros H; now apply H).
  unfold bind at 1. unfold gets at 1. cbv beta iota. unfold bind at 1.
  rewrite Hins. simpl getitem. unfold ret at 1. cbv beta iota.
  unfold bind at 1.
  rewrite (check_order_fill_triggered fuel tick o p s Hp).
  destruct (triggered tick o p); [|reflexivity].
  unfold bind at 1.
  destruct (fill_working_order fuel o p _ s) as [[[]|e] s']; reflexivity.
Qed.

(** X17. Matching of a working order of any priced kind.  A BUY STOP
    triggers when the ask is at or above its price, a BUY LIMIT when the ask
    is at or below, a SELL STOP when the bid is at or below, a SELL LIMIT
    when the bid is at or above, whatever the fill model says about marginal
    fills.  A triggered order leaves the working orders and [_fill_order]
    runs at its price, moved up for a BUY and down for a SELL by the
    slippage when the fill model slips, for limit orders as well;
    [OrderFilled] at that price is the first event when no position is held
    for the order.  An order that is not triggered goes to the expiry
    check. *)
Theorem priced_order_matching fuel (tick : Tick.t) now (o : Order.t) p
    slippage instrument s :
  Order.symbol o = Tick.symbol tick ->
  order_state (world s) o = WORKING ->
  od_mem (Order.id o) (_working_orders s) = true ->
  Order.price o = Some p ->
  instruments (static s) !! Order.symbol o = Some instrument ->
  _slippages (static s) !! Order.symbol o = Some slippage ->
  let slipped := fst (is_slipped (fill_model s)) in
  let fill_price :=
    if slipped
    then match Order.side o with BUY => p + slippage | SELL => p - slippage end
    else p in
  let s1 :=
    set_fill_model (snd (is_slipped (fill_model s)))
      (set_working_orders (od_del (Order.id o) (_working_orders s)) s) in
  simulate_order fuel tick now o s
  = (if triggered tick o p then _fill_order fuel o fill_price s1
     else check_order_expiry now o s)
  /\ (triggered tick o p = true ->
      get_position_for_order (world s) (Order.id o) = None ->
      forall fuel', fuel = S fuel' ->
      emitted_first (events s)
        (OrderFilled
           (order_filled (account (world s)) o fill_price
              (Instrument.quote_currency instrument) (clock s) (guid_count s)))
        (snd (simulate_order fuel tick now o s))).
Proof.
  intros Hsym Hstate Hmem Hp Hins Hslip slipped fill_price s1.
  assert (Hrun : simulate_order fuel tick now o s
                 = if triggered tick o p then _fill_order fuel o fill_price s1
                   else check_order_expiry now o s).
  { rewrite (simulate_order_priced fuel tick now o p instrument)
      by assumption.
    destruct (triggered tick o p); [|reflexivity].
    rewrite (fill_working_order_run fuel o p _ slippage s Hmem Hslip).
    unfold fill_price, slipped, s1.
    destruct (is_slipped (fill_model s)) as [b fm]. simpl.
    now destruct (Order.side o). }
  split; [exact Hrun|].
  intros Ht Hpos fuel' ->. rewrite Hrun, Ht.
  apply (_fill_order_emits fuel' o fill_price instrument s1); auto.
Qed.

(** An expiry delivers its [OrderExpired] event before anything else. *)
Lemma _expire_order_emits (o : Order.t) s :
  emitted_first (events s)
    (OrderExpired (Account.id (account (world s))) (Order.id o)
       (Order.expire_time o) (guid_count s) (clock s))
    (snd (_expire_order o s)).
Proof.
  set (e := OrderExpired _ _ _ _ _).
  unfold _expire_order, the_account, time_now, generate,
    exec_engine_handle_event.
  unfold bind at 1 2 3 4. unfold gets at 1 2. unfold modify at 1.
  cbv beta iota.
  apply (preserves_snd (emitted_first (events s) e));
    [|exists []; reflexivity].
  apply preserves_bind; [apply preserves_gets|intros atomic].
  apply preserves_bind; [|intros ?; apply emitted_first_clean_up].
  destruct (od_get (Order.id o) atomic) as [children|];
    [|apply emitted_first_check_oco_order].
  apply preserves_bind; [destruct children; pres|intros first_child].
  apply hoare_gets_bind. intros oco.
  destruct (oco !! Order.id first_child) as [other|] eqn:Hk.
  - eapply hoare_pre; [apply emitted_first_unlink|]. intros s0 [Hs Heq].
    split; [assumption|]. rewrite Heq. exact Hk.
  - apply hoare_ret. tauto.
Qed.

(** X18. Expiry of a working order that the tick does not trigger.  With
    an expiry time that the clock has reached, the order leaves the working
    orders and [OrderExpired] is the first event delivered, however the
    call ends; with no expiry time, or one still ahead, the loop body
    changes nothing. *)
Theorem untriggered_order_expiry fuel (tick : Tick.t) now (o : Order.t) p
    instrument s :
  Order.symbol o = Tick.symbol tick ->
  order_state (world s) o = WORKING ->
  od_mem (Order.id o) (_working_orders s) = true ->
  Order.price o = Some p ->
  instruments (static s) !! Order.symbol o = Some instrument ->
  triggered tick o p = false ->
  let r := simulate_order fuel tick now o s in
  match Order.expire_time o with
  | Some expire_time =>
      if now >=? expire_time then
        od_mem (Order.id o) (_working_orders (snd r)) = false
        /\ emitted_first (events s)
             (OrderExpired (Account.id (account (world s))) (Order.id o)
                (Some expire_time) (guid_count s) (clock s))
             (snd r)
      else r = (Ok tt, s)
  | None => r = (Ok tt, s)
  end.
Proof.
  intros Hsym Hstate Hmem Hp Hins Ht r. unfold r.
  rewrite (simulate_order_priced fuel tick now o p instrument) by assumption.
  rewrite Ht. unfold check_order_expiry.
  destruct (Order.expire_time o) as [expire_time|] eqn:He; [|reflexivity].
  destruct (now >=? expire_time); [|reflexivity].
  set (e := OrderExpired _ _ _ _ _).
  set (s1 := set_working_orders (od_del (Order.id o) (_working_orders s)) s).
  assert (Hrun : (working <- gets _working_orders ;;
                  if od_mem (Order.id o) working
                  then del_working_orders (Order.id o) ;; _expire_order o
                  else ret tt) s
                 = _expire_order o s1).
  { unfold del_working_orders. unfold bind at 1. unfold gets at 1.
    cbv beta iota. rewrite Hmem. unfold bind at 1. unfold bind at 1.
    unfold gets at 1. cbv beta iota. rewrite Hmem. reflexivity. }
  rewrite Hrun. split.
  - apply (preserves_snd (not_working (Order.id o)));
      [apply not_working_expire_order|].
    unfold not_working, od_mem, s1. simpl. now rewrite od_get_del_eq.
  - subst e. rewrite <- He. apply (_expire_order_emits o s1).
Qed.

End matching_all.
(** ** Ticks, days and rollover *)

Section ticks.
Context {W FM : Type}.
Context `{EXEC : !ExecEngineOps W, FILL : !FillModelOps FM}.
Context `{CALC : !Calculators, CAL : !Calendar, NUM : !Numerics}.
Implicit Types (s : @State W FM).
Local Abbreviation St := (@State W FM).

Lemma rolled_over_harmless d r : harmless (rolled_over (W:=W) (FM:=FM) d r).
Proof. split; intros; assumption. Qed.

Lemma rolled_over_unlink d r a b :
  hoare (S:=St) (fun s => rolled_over d r s /\ _oco_orders s !! a = Some b)
        (unlink_oco a b) (fun _ => rolled_over d r) (rolled_over d r).
Proof. apply unlink_oco_blind; auto using rolled_over_harmless. Qed.

Lemma rolled_over_book_closing_fill d r pnl commission :
  preserves (rolled_over (W:=W) (FM:=FM) d r)
    (book_closing_fill pnl commission).
Proof. apply book_closing_fill_blind; auto using rolled_over_harmless. Qed.

Lemma rolled_over_work_order d r (o : Order.t) :
  True -> preserves (rolled_over (W:=W) (FM:=FM) d r) (work_order o).
Proof. intros _. apply work_order_blind; auto using rolled_over_harmless. Qed.

Lemma rolled_over_fill_order d r fuel (o : Order.t) p :
  preserves (rolled_over (W:=W) (FM:=FM) d r) (_fill_order fuel o p).
Proof.
  apply (_fill_order_pres (rolled_over d r) (fun _ => True));
    auto using rolled_over_harmless, rolled_over_book_closing_fill,
      rolled_over_unlink, rolled_over_work_order.
Qed.

(** The matching loop leaves the day, its flag and the rollover total. *)
Lemma rolled_over_loop d r fuel (tick : Tick.t) now :
  preserves (rolled_over (W:=W) (FM:=FM) d r)
    (working <- gets _working_orders ;;
     match working with
     | [] => ret tt
     | _ => for_each (od_values working) (simulate_order fuel tick now)
     end).
Proof.
  apply preserves_bind; [apply preserves_gets|intros working].
  destruct working; [apply preserves_ret|].
  apply preserves_for_each. intros o _.
  apply simulate_order_pres; auto using rolled_over_harmless,
    rolled_over_unlink, rolled_over_fill_order.
Qed.

(** [process_tick] on a tick of the current day, after the clock and the
    market have been set. *)
Lemma process_tick_same_day fuel (tick : Tick.t) s :
  day_number s = day_of (Tick.timestamp tick) ->
  let now := Tick.timestamp tick in
  process_tick fuel tick s
  = ((if negb (rollover_applied s) then
        match rollover_time s with
        | None => raise TypeError
        | Some rollover_time =>
            if now >=? rollover_time then
              apply_rollover_interest now (isoweekday rollover_time) ;;
              modify (set_rollover_applied true)
            else ret tt
        end
      else ret tt) ;;
     working <- gets _working_orders ;;
     match working with
     | [] => ret tt
     | _ => for_each (od_values working) (simulate_order fuel tick now)
     end)
      (set_market (od_set (Tick.symbol tick) tick (_market s))
         (set_clock now s)).
Proof.
  intros Hday now.
  unfold process_tick, time_now. unfold bind at 1. unfold modify at 1.
  cbv beta iota. unfold bind at 1. unfold modify at 1. cbv beta iota.
  unfold bind at 1. unfold gets at 1. cbv beta iota.
  unfold bind at 1. unfold gets at 1. cbv beta iota.
  change (clock _) with now. change (day_number _) with (day_number s).
  rewrite decide_False by (intros H; now apply H).
  unfold bind at 1. unfold ret at 1. cbv beta iota.
  unfold bind at 1. unfold gets at 1. cbv beta iota.
  change (rollover_applied _) with (rollover_applied s).
  destruct (rollover_applied s); cbn [negb]; cbv iota; [reflexivity|].
  unfold bind at 1. unfold bind at 1. unfold gets at 1. cbv beta iota.
  change (rollover_time _) with (rollover_time s).
  unfold bind at 3. reflexivity.
Qed.

Lemma rolled_over_call d r fuel (c : @Call W FM) :
  within_day d c -> preserves (rolled_over d r) (call fuel c).
Proof.
  intros Hc.
  pose proof (rolled_over_harmless d r) as HI.
  pose proof (rolled_over_unlink d r) as Hu.
  pose proof (rolled_over_book_closing_fill d r) as Hbf.
  pose proof (rolled_over_work_order d r) as Hw.
  pose proof (rolled_over_fill_order d r) as Hf.
  destruct c; simpl in *; try contradiction.
  - intros s Hs.
    assert (Hday : day_number s = day_of (Tick.timestamp tick))
      by (destruct Hs as (_ & -> & _); now symmetry).
    rewrite (process_tick_same_day fuel tick s Hday).
    destruct Hs as (Happlied & Hd & Hr). rewrite Happlied. cbn [negb].
    apply (hoare_bind (fun s' : St => rolled_over d r s')
             (rolled_over d r) (fun _ => rolled_over d r)
             (fun _ => rolled_over d r));
      [apply hoare_ret; tauto|intros ?; apply rolled_over_loop|].
    repeat split; assumption.
  - now apply adjust_account_pres.
  - now apply account_inquiry_pres.
  - now apply (submit_order_pres (rolled_over d r) (fun _ => True)).
  - unfold submit_atomic_order.
    apply preserves_bind; [|intros ?].
    { apply register_atomic_order_blind; auto. }
    apply preserves_bind; [now apply generate_pres|intros ?].
    apply preserves_bind; [apply preserves_gets|intros ?].
    now apply (submit_order_pres (rolled_over d r) (fun _ => True)).
  - now apply cancel_order_pres.
  - now apply modify_order_pres.
  - apply preserves_modify. intros s Hs. now apply HI.
  - apply preserves_ret.
  - apply preserves_modify. intros s Hs. now apply HI.
Qed.

Lemma rolled_over_run d r cs s :
  Forall (fun fc => within_day d (snd fc)) cs ->
  rolled_over d r s -> rolled_over d r (run cs s).
Proof.
  revert s. induction cs as [|[fuel c] cs IH]; intros s Hcs Hs; simpl; auto.
  inversion Hcs as [|? ? Hc Hrest]; subst. apply IH; [exact Hrest|].
  unfold after. apply preserves_snd; [|exact Hs].
  now apply rolled_over_call.
Qed.

(** X19. Rollover is booked once a day.  On a tick of the current day on
    which the rollover is due (none applied yet, the rollover time reached)
    and [apply_rollover_interest], called with the ISO weekday of the
    rollover time, returns: after [process_tick], however its matching loop
    ends, [total_rollover] stands where [apply_rollover_interest] left it
    and [rollover_applied] is set; and whatever is called afterwards on
    that day (ticks of the day, commands, [adjust_account], changes of the
    fill model, steps of the collaborators; not [reset], not
    [apply_rollover_interest] from outside), [total_rollover] stays there
    and [rollover_applied] stays set. *)
Theorem rollover_once_a_day fuel (tick : Tick.t) due
    (cs : list (nat * @Call W FM)) s :
  let now := Tick.timestamp tick in
  let s0 :=
    set_market (od_set (Tick.symbol tick) tick (_market s))
      (set_clock now s) in
  day_number s = day_of now ->
  rollover_applied s = false ->
  rollover_time s = Some due -> due <= now ->
  fst (apply_rollover_interest now (isoweekday due) s0) = Ok tt ->
  Forall (fun fc => within_day (day_of now) (snd fc)) cs ->
  let s1 := snd (process_tick fuel tick s) in
  total_rollover s1
  = total_rollover (snd (apply_rollover_interest now (isoweekday due) s0))
  /\ rollover_applied s1 = true
  /\ day_number s1 = day_of now
  /\ total_rollover (run cs s1) = total_rollover s1
  /\ rollover_applied (run cs s1) = true
  /\ day_number (run cs s1) = day_of now.
Proof.
  intros now s0 Hday Happlied Htime Hdue Hok Hcs s1.
  set (r := total_rollover
              (snd (apply_rollover_interest now (isoweekday due) s0))).
  assert (H1 : rolled_over (day_of now) r s1).
  { unfold s1. rewrite (process_tick_same_day fuel tick s Hday).
    fold now. fold s0. rewrite Happlied, Htime. cbn [negb].
    replace (now >=? due) with true by lia.
    assert (Hkeep : preserves (fun s' : St => day_number s' = day_of now)
                      (apply_rollover_interest now (isoweekday due))).
    { apply apply_rollover_interest_pres. intros amount.
      apply book_rollover_blind; auto. split; intros; assumption. }
    specialize (Hkeep s0 Hday). unfold r.
    unfold bind at 1. unfold bind at 1.
    destruct (apply_rollover_interest now (isoweekday due) s0)
      as [[[]|e] s2]; [|discriminate Hok].
    unfold modify at 1.
    apply (preserves_snd (rolled_over (day_of now) (total_rollover s2)));
      [apply rolled_over_loop|].
    repeat split. exact Hkeep. }
  pose proof (rolled_over_run _ _ cs s1 Hcs H1) as H2.
  destruct H1 as (Ha1 & Hd1 & Hr1). destruct H2 as (Ha2 & Hd2 & Hr2).
  repeat split; try assumption. now rewrite Hr2, Hr1.
Qed.

(** X20. The bookkeeping of a new day.  On the first tick of a day,
    before the rollover time and with no working orders, [process_tick]
    returns having recorded the tick and its time, set [day_number], taken
    the account's cash balance as the cash at the start of the day, reset
    the day's activity to zero, and set the rollover time of the day with
    [rollover_applied] false; nothing is delivered or booked. *)
Theorem first_tick_of_a_day fuel (tick : Tick.t) s :
  let now := Tick.timestamp tick in
  day_number s <> day_of now ->
  now < rollover_time_of now ->
  _working_orders s = [] ->
  process_tick fuel tick s
  = (Ok tt,
     set_rollover_time (Some (rollover_time_of now))
       (set_rollover_applied false
          (set_account_cash_activity_day 0
             (set_account_cash_start_day
                (Account.cash_balance (account (world s)))
                (set_day_number (day_of now)
                   (set_market (od_set (Tick.symbol tick) tick (_market s))
                      (set_clock now s))))))).
Proof.
  intros now Hday Hbefore Hw.
  unfold process_tick, new_day, time_now, the_account. run_monad. simpl.
  rewrite decide_True by exact Hday. simpl.
  replace (Tick.timestamp tick >=? rollover_time_of (Tick.timestamp tick))
    with false by (unfold now in Hbefore; lia).
  simpl. rewrite Hw. reflexivity.
Qed.

(** *** Commands that book nothing *)

(** X21. Cancelling, modifying and inquiring book nothing: after
    [cancel_order], [modify_order] or [account_inquiry], however the call
    ends, the capital, the totals of commissions and rollover and the
    history of booked amounts are as before. *)
Theorem commands_book_nothing (cancel : CancelOrder.t)
    (modification : ModifyOrder.t) (inquiry : AccountInquiry.t) s :
  nothing_booked s (snd (cancel_order cancel s))
  /\ nothing_booked s (snd (modify_order modification s))
  /\ nothing_booked s (snd (account_inquiry inquiry s)).
Proof.
  assert (HI : harmless (nothing_booked s)) by (split; intros; assumption).
  assert (Hu : forall a b,
             hoare (fun s' => nothing_booked s s'
                              /\ _oco_orders s' !! a = Some b)
               (unlink_oco a b) (fun _ => nothing_booked s)
               (nothing_booked s))
    by (intros; apply unlink_oco_blind; auto).
  assert (Hs : nothing_booked s s) by (repeat split).
  split; [|split]; apply (preserves_snd (nothing_booked s)); auto.
  - now apply cancel_order_pres.
  - now apply modify_order_pres.
  - now apply account_inquiry_pres.
Qed.

End ticks.
(** ** Closing fills *)

Section closing_fills.
Context {W FM : Type}.
Context `{EXEC : !ExecEngineOps W, FILL : !FillModelOps FM}.
Context `{CALC : !Calculators, CAL : !Calendar, NUM : !Numerics}.
Implicit Types (s : @State W FM).
Local Abbreviation St := (@State W FM).

(** X22. The booking of a closing fill.  For a known instrument and a
    position that is long or short, [adjust_account] returns;
    [total_commissions] falls by the commission in every case; when the
    account is frozen neither the capital nor the day's activity changes and
    no event is delivered; otherwise both grow by the pnl less the
    commission and one [AccountStateEvent] with the new values is
    delivered.  The pnl is the close less the open for a long position and
    the open less the close for a short one, times quantity and exchange
    rate. *)
Theorem closing_fill_booking (event : OrderFillEvent.t)
    (position : Position.t) instrument s :
  instruments (static s) !! OrderFillEvent.symbol event = Some instrument ->
  Position.market_position position <> FLAT ->
  let amount :=
    closing_pnl event position instrument s
    - closing_commission event instrument s in
  let r := adjust_account event position s in
  fst r = Ok tt
  /\ total_commissions (snd r)
     = total_commissions s - closing_commission event instrument s
  /\ total_rollover (snd r) = total_rollover s
  /\ (frozen_account (static s) = true ->
      account_capital (snd r) = account_capital s
      /\ account_cash_activity_day (snd r) = account_cash_activity_day s
      /\ events (snd r) = events s)
  /\ (frozen_account (static s) = false ->
      account_capital (snd r) = account_capital s + amount
      /\ account_cash_activity_day (snd r)
         = account_cash_activity_day s + amount
      /\ events (snd r)
         = events s
           ++ [AccountStateEvent
                 {| AccountState.account_id := Account.id (account (world s));
                    AccountState.currency :=
                      Account.currency (account (world s));
                    AccountState.cash_balance := account_capital s + amount;
                    AccountState.cash_start_day := account_cash_start_day s;
                    AccountState.cash_activity_day :=
                      account_cash_activity_day s + amount;
                    AccountState.margin_used_liquidation := 0;
                    AccountState.margin_used_maintenance := 0;
                    AccountState.margin_ratio := 0;
                    AccountState.margin_call_status := "N";
                    AccountState.event_id := guid_count s;
                    AccountState.event_timestamp := clock s |}]).
Proof.
  intros Hins Hflat amount r. unfold r.
  rewrite (adjust_account_run event position instrument s Hins Hflat).
  rewrite book_closing_fill_run. cbv zeta.
  destruct (frozen_account (static s)) eqn:Hf.
  - repeat split; try discriminate; reflexivity.
  - rewrite book_to_account_run. repeat split; try discriminate; reflexivity.
Qed.

(** X23. [adjust_account] fails before it books anything.  When it
    raises, the engine is exactly as before the call, and the failure is
    either the [KeyError] of an unknown instrument or the [ValueError] of a
    position that is flat. *)
Theorem adjust_account_failure_is_atomic (event : OrderFillEvent.t)
    (position : Position.t) s x :
  fst (adjust_account event position s) = Raise x ->
  snd (adjust_account event position s) = s
  /\ ((x = KeyError
       /\ instruments (static s) !! OrderFillEvent.symbol event = None)
      \/ (x = ValueError /\ Position.market_position position = FLAT)).
Proof.
  destruct (instruments (static s) !! OrderFillEvent.symbol event)
    as [instrument|] eqn:Hins.
  - assert (Hcases : Position.market_position position = FLAT
                     \/ Position.market_position position <> FLAT)
      by (destruct (Position.market_position position); auto; right;
          discriminate).
    destruct Hcases as [Hflat|Hflat].
    + unfold adjust_account, calculate_pnl. run_monad. rewrite Hins, Hflat.
      simpl. intros [= <-]. auto.
    + rewrite (adjust_account_run event position instrument s Hins Hflat).
      rewrite book_closing_fill_run. cbv zeta.
      destruct (frozen_account (static s)); [discriminate|].
      rewrite book_to_account_run. discriminate.
  - unfold adjust_account. run_monad. rewrite Hins. simpl.
    intros [= <-]. auto.
Qed.

End closing_fills.
(** ** Submissions *)

Section submissions.
Context {W FM : Type}.
Context `{EXEC : !ExecEngineOps W, FILL : !FillModelOps FM}.
Context `{CALC : !Calculators, CAL : !Calendar, NUM : !Numerics}.
Implicit Types (s : @State W FM).
Local Abbreviation St := (@State W FM).

(** X24. Submitting an order under an identifier that is already working
    fails: [OrderSubmitted] is delivered, then [submit_order] raises
    [ValueError] and nothing else has changed. *)
Theorem duplicate_submission_raises fuel (command : SubmitOrder.t) s :
  let o := SubmitOrder.order command in
  od_mem (Order.id o) (_working_orders s) = true ->
  submit_order fuel command s
  = (Raise ValueError,
     emitted
       (OrderSubmitted (SubmitOrder.account_id command) (Order.id o) (clock s)
          (guid_count s) (clock s))
       (set_guid_count (S (guid_count s)) s)).
Proof.
  intros o Hw.
  unfold submit_order, _process_order, _process_order_with. run_monad. simpl.
  fold o. rewrite Hw. reflexivity.
Qed.

(** The reason a quantity outside the trade sizes is rejected with. *)
Lemma _process_order_size fill (o : Order.t) instrument s :
  od_mem (Order.id o) (_working_orders s) = false ->
  instruments (static s) !! Order.symbol o = Some instrument ->
  Order.quantity o > Instrument.max_trade_size instrument
  \/ Order.quantity o < Instrument.min_trade_size instrument ->
  _process_order_with fill o s
  = _reject_order o
      (if Order.quantity o >? Instrument.max_trade_size instrument
       then "order quantity of " +:+ str_Quantity (Order.quantity o)
            +:+ " exceeds the maximum trade size of "
            +:+ str_Quantity (Instrument.max_trade_size instrument)
       else "order quantity of " +:+ str_Quantity (Order.quantity o)
            +:+ " is less than the minimum trade size of "
            +:+ str_Quantity (Instrument.min_trade_size instrument)) s.
Proof.
  intros Hw Hins Hq. unfold _process_order_with.
  unfold bind at 1. unfold gets at 1. cbv beta iota. rewrite Hw.
  unfold bind at 1. unfold gets at 1. cbv beta iota.
  unfold bind at 1. rewrite Hins. simpl getitem. unfold ret at 1.
  cbv beta iota.
  destruct (Order.quantity o >? Instrument.max_trade_size instrument) eqn:Hmax;
    [reflexivity|].
  replace (Order.quantity o <? Instrument.min_trade_size instrument)
    with true by lia.
  reflexivity.
Qed.

(** X25. The size of an order is checked before its market and its price:
    an order that is not working, of a known instrument, with a quantity
    above the maximum or below the minimum trade size is rejected for its
    size, whether or not a tick has been seen for its symbol and wherever
    its price is; [submit_order] returns having delivered [OrderSubmitted]
    and [OrderRejected], and the working orders are as before. *)
Theorem size_is_checked_first fuel (command : SubmitOrder.t) instrument s :
  let o := SubmitOrder.order command in
  od_mem (Order.id o) (_working_orders s) = false ->
  instruments (static s) !! Order.symbol o = Some instrument ->
  Order.quantity o > Instrument.max_trade_size instrument
  \/ Order.quantity o < Instrument.min_trade_size instrument ->
  _oco_orders s !! Order.id o = None ->
  let submitted :=
    OrderSubmitted (SubmitOrder.account_id command) (Order.id o) (clock s)
      (guid_count s) (clock s) in
  let reason :=
    if Order.quantity o >? Instrument.max_trade_size instrument
    then "order quantity of " +:+ str_Quantity (Order.quantity o)
         +:+ " exceeds the maximum trade size of "
         +:+ str_Quantity (Instrument.max_trade_size instrument)
    else "order quantity of " +:+ str_Quantity (Order.quantity o)
         +:+ " is less than the minimum trade size of "
         +:+ str_Quantity (Instrument.min_trade_size instrument) in
  let s' := snd (submit_order fuel command s) in
  fst (submit_order fuel command s) = Ok tt
  /\ events s'
     = events s
       ++ [submitted;
           OrderRejected
             (Account.id (account (handle_event submitted (world s))))
             (Order.id o) (clock s) reason (S (guid_count s)) (clock s)]
  /\ _working_orders s' = _working_orders s
  /\ od_mem (Order.id o) (_atomic_child_orders s') = false.
Proof.
  intros o Hw Hins Hq Hoco submitted reason s'.
  set (s1 := emitted submitted (set_guid_count (S (guid_count s)) s)).
  assert (Hrun : submit_order fuel command s = _process_order fuel o s1)
    by reflexivity.
  unfold s'. rewrite Hrun. unfold _process_order.
  rewrite (_process_order_size _ o instrument) by assumption.
  rewrite _reject_order_run by assumption.
  simpl. rewrite <- app_assoc. unfold od_mem. rewrite od_get_del_eq.
  repeat split.
Qed.

(** X26. A MARKET order fills at the touch.  For a MARKET order that is
    not working, of a known instrument and an admissible quantity, with a
    market for its symbol, in no OCO pair, with no bracket and no position
    held for it, [submit_order] returns having delivered [OrderSubmitted],
    [OrderAccepted] and [OrderFilled]; the fill price is the ask for a BUY
    and the bid for a SELL, moved against the order by the slippage when
    the fill model slips; the order never enters the working orders. *)
Theorem market_order_fills_at_touch fuel (command : SubmitOrder.t)
    instrument (market : Tick.t) slippage s :
  let o := SubmitOrder.order command in
  Order.type o = MARKET ->
  od_mem (Order.id o) (_working_orders s) = false ->
  instruments (static s) !! Order.symbol o = Some instrument ->
  Instrument.min_trade_size instrument <= Order.quantity o
    <= Instrument.max_trade_size instrument ->
  od_get (Order.symbol o) (_market s) = Some market ->
  _slippages (static s) !! Order.symbol o = Some slippage ->
  _oco_orders s !! Order.id o = None ->
  od_get (Order.id o) (_atomic_child_orders s) = None ->
  let submitted :=
    OrderSubmitted (SubmitOrder.account_id command) (Order.id o) (clock s)
      (guid_count s) (clock s) in
  let w1 := handle_event submitted (world s) in
  let accepted :=
    OrderAccepted (Account.id (account w1)) (Order.id o)
      ("B" +:+ Order.id o) (Order.label o) (clock s) (S (guid_count s))
      (clock s) in
  let w2 := handle_event accepted w1 in
  get_position_for_order w2 (Order.id o) = None ->
  let slipped := fst (is_slipped (fill_model s)) in
  let fill_price :=
    match Order.side o with
    | BUY => if slipped then Tick.ask market + slippage else Tick.ask market
    | SELL => if slipped then Tick.bid market - slippage else Tick.bid market
    end in
  let filled :=
    OrderFilled
      (order_filled (account w2) o fill_price
         (Instrument.quote_currency instrument) (clock s)
         (S (S (guid_count s)))) in
  let s' := snd (submit_order (S fuel) command s) in
  fst (submit_order (S fuel) command s) = Ok tt
  /\ events s' = events s ++ [submitted; accepted; filled]
  /\ _working_orders s' = _working_orders s
  /\ fill_model s' = snd (is_slipped (fill_model s)).
Proof.
  intros o Hty Hw Hins [Hmin Hmax] Hm Hslip Hoco Hat submitted w1 accepted w2
    Hpos slipped fill_price filled s'.
  set (s1 := emitted submitted (set_guid_count (S (guid_count s)) s)).
  set (s2 := emitted accepted (set_guid_count (S (S (guid_count s))) s1)).
  set (s3 := set_fill_model (snd (is_slipped (fill_model s))) s2).
  assert (Hfill : forall p,
             _fill_order (S fuel) o p s3
             = (Ok tt,
                emitted
                  (OrderFilled
                     (order_filled (account w2) o p
                        (Instrument.quote_currency instrument) (clock s)
                        (S (S (guid_count s)))))
                  (set_guid_count (S (S (S (guid_count s)))) s3))).
  { intros p. cbn [_fill_order].
    unfold fill_and_report, work_atomic_children, _check_oco_order.
    run_monad. simpl. rewrite Hins. simpl. fold w1. fold accepted. fold w2.
    rewrite Hpos. simpl. rewrite Hoco. simpl. rewrite Hat. reflexivity. }
  assert (Hrun : submit_order (S fuel) command s
                 = _fill_order (S fuel) o fill_price s3).
  { change (submit_order (S fuel) command s)
      with (_process_order (S fuel) o s1).
    unfold _process_order, _process_order_with.
    unfold bind at 1. unfold gets at 1. cbv beta iota.
    change (_working_orders s1) with (_working_orders s). rewrite Hw.
    unfold bind at 1. unfold gets at 1. cbv beta iota.
    unfold bind at 1. change (static s1) with (static s). rewrite Hins.
    simpl getitem. unfold ret at 1. cbv beta iota.
    replace (Order.quantity o >? Instrument.max_trade_size instrument)
      with false by lia.
    replace (Order.quantity o <? Instrument.min_trade_size instrument)
      with false by lia.
    unfold bind at 1. unfold gets at 1. cbv beta iota.
    change (_market s1) with (_market s). rewrite Hm.
    unfold bind at 1.
    rewrite _check_valid_price_other by (rewrite Hty; done).
    cbn [negb]. cbv iota.
    rewrite decide_True by exact Hty.
    unfold _accept_order, fill_model_is_slipped, the_account, time_now.
    unfold fill_price, slipped, s3.
    destruct (Order.side o);
      [|rewrite decide_True by exact Hty]; run_monad; simpl;
      destruct (is_slipped (fill_model s)) as [[] fm]; simpl;
      rewrite ?Hslip; reflexivity. }
  unfold s'. rewrite Hrun, Hfill. simpl. rewrite <- !app_assoc.
  repeat split.
Qed.

End submissions.
(** ** Latent OCO partners *)

Section latent.
Context {W FM : Type}.
Context `{EXEC : !ExecEngineOps W, FILL : !FillModelOps FM}.
Context `{CALC : !Calculators, CAL : !Calendar, NUM : !Numerics}.
Implicit Types (s : @State W FM).
Local Abbreviation St := (@State W FM).

(** A loop whose iterations all return reaches what the iteration on one
    of its elements establishes, when the other iterations keep it. *)
Lemma for_each_reaches {A} (Q : St -> Prop) (l : list A) body x :
  x ∈ l ->
  (forall y, hoare Q (body y) (fun _ => Q) (fun _ => False)) ->
  (forall y, hoare (fun _ => True) (body y) (fun _ _ => True) (fun _ => False)) ->
  hoare (fun _ => True) (body x) (fun _ => Q) (fun _ => False) ->
  hoare (fun _ => True) (for_each l body) (fun _ => Q) (fun _ => False).
Proof.
  intros Hx Hkeep Hret Hest.
  assert (Hafter : forall r, hoare Q (for_each r body) (fun _ => Q)
                               (fun _ => False)).
  { induction r as [|y r IH]; simpl; [apply hoare_ret; tauto|].
    eapply hoare_bind; [apply Hkeep|]. intros ?. exact IH. }
  induction l as [|y l IH]; [now apply elem_of_nil in Hx|].
  apply elem_of_cons in Hx. simpl. destruct Hx as [<-|Hx].
  - eapply hoare_bind; [exact Hest|]. intros ?. apply Hafter.
  - eapply hoare_bind; [apply Hret|]. intros ?. now apply IH.
Qed.

Lemma oco_rejection_in_app l e child a :
  oco_rejection_in l child a -> oco_rejection_in (l ++ [e]) child a.
Proof.
  intros (x1 & x2 & x3 & x4 & H). exists x1, x2, x3, x4.
  apply elem_of_app. now left.
Qed.

Lemma _reject_oco_order_run (o : Order.t) a s :
  _reject_oco_order o a s
  = (Ok tt,
     emitted
       (OrderRejected (Account.id (account (world s))) (Order.id o) (clock s)
          ("OCO order rejected from " +:+ str_OrderId a) (guid_count s)
          (clock s))
       (set_guid_count (S (guid_count s)) s)).
Proof. reflexivity. Qed.

(** X27. A latent OCO partner is rejected.  When the OCO check runs for an
    order whose partner is still held in a bracket, not yet working, the
    check returns and an [OrderRejected] event for the partner, with the
    reason naming the order, has been delivered; the pair has left the OCO
    map. *)
Theorem latent_partner_is_rejected a b (partner child : Order.t) p children s :
  _oco_orders s !! a = Some b -> is_Some (_oco_orders s !! b) -> a <> b ->
  get_order (world s) b = Some partner ->
  od_get p (_atomic_child_orders s) = Some children ->
  child ∈ children ->
  Order.id child = Order.id partner ->
  let r := _check_oco_order a s in
  fst r = Ok tt
  /\ oco_rejection_in (events (snd r)) (Order.id child) a
  /\ _oco_orders (snd r) !! a = None
  /\ _oco_orders (snd r) !! b = None.
Proof.
  intros Hab [a' Hba] Hne Hget Hp Hchild Hid r.
  set (Q := fun s' : St =>
              oco_rejection_in (events s') (Order.id child) a
              /\ _oco_orders s' = delete b (delete a (_oco_orders s))).
  set (body_child := fun order : Order.t =>
         oco_order <- not_none (S:=St) (Some partner) ;;
         if Order.equals oco_order order then _reject_oco_order order a
         else ret tt).
  set (body_item := fun item : OrderId * list Order.t =>
         let '(_, child_orders) := item in for_each child_orders body_child).
  set (s1 := set_oco_orders (delete b (delete a (_oco_orders s))) s).
  assert (Hrun : r = (for_each (od_items (_atomic_child_orders s)) body_item ;;
                      working <- gets _working_orders ;;
                      match od_get b working with
                      | Some oco_working =>
                          _cancel_oco_order oco_working a ;;
                          del_working_orders b
                      | None => ret tt
                      end) s1).
  { unfold r, _check_oco_order, unlink_oco, del_oco_orders.
    unfold bind at 1. unfold gets at 1. cbv beta iota. rewrite Hab.
    unfold bind at 1. unfold gets at 1. cbv beta iota. rewrite Hget.
    unfold bind at 1. unfold bind at 1. unfold bind at 1. unfold gets at 1.
    cbv beta iota. rewrite Hab. unfold modify at 1. cbv beta iota.
    unfold bind at 1. unfold gets at 1. cbv beta iota.
    cbn [_oco_orders set_oco_orders].
    rewrite lookup_delete_ne by exact Hne. rewrite Hba.
    unfold modify at 1. cbv beta iota.
    unfold bind at 1. unfold gets at 1. cbv beta iota. reflexivity. }
  assert (Hkeep_child : forall y,
             hoare Q (body_child y) (fun _ => Q) (fun _ => False)).
  { intros y s0 [Hq Ho]. unfold body_child, not_none, bind, ret.
    destruct (Order.equals partner y); [|now split].
    rewrite _reject_oco_order_run. split; [|exact Ho].
    simpl. now apply oco_rejection_in_app. }
  assert (Hret_child : forall y,
             hoare (fun _ => True) (body_child y) (fun _ _ => True)
               (fun _ => False)).
  { intros y s0 _. unfold body_child, not_none, bind, ret.
    destruct (Order.equals partner y); [|exact Logic.I].
    now rewrite _reject_oco_order_run. }
  assert (Hkeep_inner : forall l,
             hoare Q (for_each l body_child) (fun _ => Q) (fun _ => False)).
  { induction l as [|y l IH]; simpl; [apply hoare_ret; tauto|].
    eapply hoare_bind; [apply Hkeep_child|]. intros ?. exact IH. }
  assert (Hret_inner : forall l,
             hoare (fun _ => True) (for_each l body_child) (fun _ _ => True)
               (fun _ => False)).
  { induction l as [|y l IH]; simpl; [apply hoare_ret; tauto|].
    eapply hoare_bind; [apply Hret_child|]. intros ?. exact IH. }
  set (Q1 := fun s' : St => oco_rejection_in (events s') (Order.id child) a).
  assert (Hloop : hoare (fun _ => True)
                    (for_each (od_items (_atomic_child_orders s)) body_item)
                    (fun _ => Q1) (fun _ => False)).
  { apply (for_each_reaches Q1 _ body_item (p, children)).
    - revert Hp. unfold od_items. generalize (_atomic_child_orders s).
      intros d. induction d as [|[k v] d IH]; simpl; [discriminate|].
      destruct (decide (p = k)) as [->|_].
      + intros [= ->]. apply elem_of_cons. now left.
      + intros H. apply elem_of_cons. right. now apply IH.
    - intros [k l]. simpl.
      assert (H : forall l, hoare Q1 (for_each l body_child) (fun _ => Q1)
                              (fun _ => False)).
      { clear l. induction l as [|y l IH]; simpl; [apply hoare_ret; tauto|].
        eapply hoare_bind; [|intros ?; exact IH].
        intros s0 Hq. unfold body_child, not_none, bind, ret.
        destruct (Order.equals partner y); [|exact Hq].
        rewrite _reject_oco_order_run. simpl.
        now apply oco_rejection_in_app. }
      apply H.
    - intros [k l]. simpl. apply Hret_inner.
    - simpl.
      apply (for_each_reaches Q1 children body_child child Hchild).
      + intros y s0 Hq. unfold body_child, not_none, bind, ret.
        destruct (Order.equals partner y); [|exact Hq].
        rewrite _reject_oco_order_run. simpl.
        now apply oco_rejection_in_app.
      + exact Hret_child.
      + intros s0 _. unfold body_child, not_none, bind, ret.
        unfold Order.equals. rewrite bool_decide_eq_true_2 by now symmetry.
        rewrite _reject_oco_order_run. simpl.
        do 4 eexists. apply elem_of_app. right. apply elem_of_cons. left.
        reflexivity. }
  clear Hkeep_child Hkeep_inner Q.
  assert (Hoco : hoare (fun s' : St => _oco_orders s' = _oco_orders s1)
                   (for_each (od_items (_atomic_child_orders s)) body_item)
                   (fun _ s' => _oco_orders s' = _oco_orders s1)
                   (fun s' => _oco_orders s' = _oco_orders s1)).
  { apply (preserves_for_each
             (fun s' : St => _oco_orders s' = _oco_orders s1)).
    intros [k l] _. simpl. apply preserves_for_each. intros y _.
    intros s0 Hs0. unfold body_child, not_none, bind, ret.
    destruct (Order.equals partner y); [|exact Hs0].
    rewrite _reject_oco_order_run. exact Hs0. }
  specialize (Hloop s1 Logic.I). specialize (Hoco s1 eq_refl).
  assert (Hfull : exists sf,
             r = (Ok tt, sf)
             /\ oco_rejection_in (events sf) (Order.id child) a
             /\ _oco_orders sf = _oco_orders s1).
  { rewrite Hrun. unfold bind at 1.
    destruct (for_each (od_items (_atomic_child_orders s)) body_item s1)
      as [[[]|e] s2]; [|contradiction].
    unfold Q1 in Hloop.
    unfold bind at 1. unfold gets at 1. cbv beta iota.
    destruct (od_get b (_working_orders s2)) as [oco_working|] eqn:Hw.
    - unfold _cancel_oco_order, del_working_orders. run_monad. simpl.
      unfold od_mem. rewrite Hw. eexists. split; [reflexivity|]. simpl.
      split; [now apply oco_rejection_in_app|exact Hoco].
    - eexists. split; [reflexivity|]. now split. }
  destruct Hfull as (sf & -> & Hrej & Hsf). simpl. rewrite Hsf. unfold s1.
  simpl. rewrite lookup_delete_eq.
  rewrite lookup_delete_ne, lookup_delete_eq by (intros H; now apply Hne).
  repeat split. exact Hrej.
Qed.

End latent.
(** ** The further theorems at the fixtures *)

Ltac at_fixture :=
  solve [ vm_compute; reflexivity
        | vm_compute; eexists; reflexivity
        | vm_compute; discriminate
        | vm_compute; intuition discriminate
        | vm_compute; exact Logic.I
        | repeat constructor ].

(** The stored BUY STOP carries the identifier it is found under. *)
Lemma working_orders_keyed_by_id_witness :
  Order.id TestKit.buy_stop = "O-1".
Proof.
  apply (working_orders_keyed_by_id {["EURUSD" := TestKit.EURUSD]}
           (TestKit.config false) TestKit.strict 0 0 true (TestKit.database [])
           TestKit.stop_is_working "O-1" TestKit.buy_stop).
  vm_compute. reflexivity.
Defined.

(** The working BUY STOP has been reported. *)
Lemma working_orders_reported_witness :
  reported_working (events TestKit.working_state) "O-1".
Proof.
  apply (working_orders_reported {["EURUSD" := TestKit.EURUSD]}
           (TestKit.config false) TestKit.strict 0 0 true (TestKit.database [])
           TestKit.stop_is_working "O-1").
  vm_compute. reflexivity.
Defined.

(** Cancelling the stop-loss of the working bracket leaves nothing working. *)
Lemma cancel_order_cancels_partner_witness :
  _working_orders (snd (cancel_order (Bench.cancel "SL-1") Bench.bracket_state))
  = [].
Proof.
  destruct (cancel_order_cancels_partner (Bench.cancel "SL-1")
              TestKit.stop_loss TestKit.take_profit "TP-1" Bench.bracket_state)
    as (_ & _ & Hw & _); [at_fixture ..|].
  rewrite Hw. vm_compute. reflexivity.
Defined.

(** The fill of the stop-loss of the working bracket cancels the
    take-profit. *)
Lemma fill_cancels_oco_partner_witness :
  od_mem "TP-1"
    (_working_orders
       (snd (_fill_order 1 TestKit.stop_loss 10980 Bench.bracket_state)))
  = false.
Proof.
  destruct (fill_cancels_oco_partner 0 TestKit.stop_loss TestKit.take_profit
              10980 TestKit.EURUSD "TP-1" Bench.bracket_state)
    as (_ & _ & Hw & _); [at_fixture ..|].
  rewrite Hw. vm_compute. reflexivity.
Defined.

(** The entry of the pending bracket expires. *)
Lemma expired_entry_unlinks_children_witness :
  _oco_orders (snd (_expire_order TestKit.market_buy Bench.pending_bracket))
    !! "SL-1"
  = None.
Proof.
  destruct (expired_entry_unlinks_children TestKit.market_buy
              TestKit.stop_loss [TestKit.take_profit] "TP-1"
              Bench.pending_bracket)
    as (_ & _ & _ & Hsl & _); [at_fixture ..|].
  exact Hsl.
Defined.

(** The BUY STOP is submitted before the first tick. *)
Lemma submit_order_without_market_witness :
  _working_orders
    (snd (submit_order 5 (TestKit.submit TestKit.buy_stop)
            (TestKit.engine false [])))
  = [].
Proof.
  destruct (submit_order_without_market 5 (TestKit.submit TestKit.buy_stop)
              TestKit.EURUSD (TestKit.engine false []))
    as (_ & _ & Hw & _); [at_fixture ..|].
  rewrite Hw. reflexivity.
Defined.

(** The bracket is submitted before the first tick. *)
Lemma rejected_entry_keeps_oco_pair_witness :
  _oco_orders
    (snd (submit_atomic_order 5 TestKit.submit_bracket
            (TestKit.engine false [])))
    !! "SL-1"
  = Some "TP-1".
Proof.
  destruct (rejected_entry_keeps_oco_pair 5 TestKit.submit_bracket
              TestKit.take_profit TestKit.EURUSD (TestKit.engine false []))
    as (_ & _ & _ & Hsl & _); [at_fixture ..|].
  exact Hsl.
Defined.

(** Commands for orders nobody has submitted. *)
Lemma unknown_order_is_refused_witness :
  fst (cancel_order (Bench.cancel "Z-9") TestKit.after_first_tick) = Ok tt
  /\ fst (modify_order (TestKit.modify_to 1 1) TestKit.after_first_tick)
     = Ok tt.
Proof.
  destruct (unknown_order_is_refused (Bench.cancel "Z-9")
              (TestKit.modify_to 1 1) TestKit.after_first_tick)
    as (Hc & Hm); [at_fixture ..|].
  rewrite Hc, Hm. split; reflexivity.
Defined.

(** The working BUY STOP is cancelled. *)
Lemma cancel_order_removes_witness :
  od_mem "O-1"
    (_working_orders
       (snd (cancel_order (Bench.cancel "O-1") TestKit.working_state)))
  = false.
Proof.
  destruct (cancel_order_removes (Bench.cancel "O-1") TestKit.buy_stop
              TestKit.working_state)
    as (Hw & _); [at_fixture ..|].
  exact Hw.
Defined.

(** A SELL STOP exactly at the minimum distance passes. *)
Lemma price_validation_table_witness :
  _check_valid_price Bench.sell_stop_at_distance
    (TestKit.tick 11000 11002 1000) true TestKit.after_first_tick
  = (Ok true, TestKit.after_first_tick).
Proof.
  destruct (price_validation_table Bench.sell_stop_at_distance
              (TestKit.tick 11000 11002 1000) 10990 10 10
              TestKit.after_first_tick)
    as (_ & Hok & _); [at_fixture ..|].
  apply Hok. vm_compute. reflexivity.
Defined.

(** The BUY STOP becomes working. *)
Lemma accepted_order_becomes_working_witness :
  od_get "O-1"
    (_working_orders
       (snd (submit_order 5 (TestKit.submit TestKit.buy_stop)
               TestKit.after_first_tick)))
  = Some TestKit.buy_stop.
Proof.
  destruct (accepted_order_becomes_working 5 (TestKit.submit TestKit.buy_stop)
              TestKit.EURUSD (TestKit.tick 11000 11002 1000) 11020 10 10
              TestKit.after_first_tick)
    as (_ & _ & _ & Hget & _); [at_fixture ..|].
  exact Hget.
Defined.

(** The working SELL LIMIT at 1.1030 fills when the bid rises through it. *)
Lemma priced_order_matching_witness :
  TestKit.fill_prices "L-1"
    (events (snd (simulate_order 5 (TestKit.tick 11031 11033 2000) 2000
                    TestKit.sell_limit Bench.limit_state)))
  = [11030].
Proof.
  destruct (priced_order_matching 5 (TestKit.tick 11031 11033 2000) 2000
              TestKit.sell_limit 11030 1 TestKit.EURUSD Bench.limit_state)
    as (Hrun & _); [at_fixture ..|].
  rewrite Hrun. vm_compute. reflexivity.
Defined.

(** The limit order good for a minute expires on a tick 70 seconds later. *)
Lemma untriggered_order_expiry_witness :
  od_mem "X-1"
    (_working_orders
       (snd (simulate_order 5 (TestKit.tick 11000 11002 1070) 1070
               TestKit.expiring_limit Bench.expiring_state)))
  = false.
Proof.
  exact (proj1 (untriggered_order_expiry 5 (TestKit.tick 11000 11002 1070)
                  1070 TestKit.expiring_limit 10900 TestKit.EURUSD
                  Bench.expiring_state eq_refl eq_refl eq_refl eq_refl
                  eq_refl eq_refl)).
Defined.

(** With one long position open, the tick after 21:00 books the rollover of
    11.00, and the ticks and the submission of that evening book no more. *)
Lemma rollover_once_a_day_witness :
  total_rollover
    (run Bench.evening
       (snd (process_tick 5 (TestKit.tick 11000 11002 80000)
               (TestKit.holding_state false))))
  = 1100.
Proof.
  destruct (rollover_once_a_day 5 (TestKit.tick 11000 11002 80000) 75600
              Bench.evening (TestKit.holding_state false))
    as (Hr & _ & _ & Hrun & _);
    [at_fixture ..| |].
  - repeat (apply List.Forall_cons; [vm_compute; auto|]). apply List.Forall_nil.
  - rewrite Hrun, Hr. vm_compute. reflexivity.
Defined.

(** The first tick the engine sees opens day 1. *)
Lemma first_tick_of_a_day_witness :
  day_number
    (snd (process_tick 5 (TestKit.tick 11000 11002 1000)
            (TestKit.engine false [])))
  = 1.
Proof.
  rewrite (first_tick_of_a_day 5 (TestKit.tick 11000 11002 1000)
             (TestKit.engine false [])) by at_fixture.
  vm_compute. reflexivity.
Defined.

(** The long position opened at 1.0990 is closed at 1.1000: the pnl of
    100.00 less the commission of 0.02 is booked. *)
Lemma closing_fill_booking_witness :
  account_capital
    (snd (adjust_account Bench.closing_fill TestKit.cheap_long
            TestKit.after_first_tick))
  = 100009998
  /\ total_commissions
       (snd (adjust_account Bench.closing_fill TestKit.cheap_long
               TestKit.after_first_tick))
     = -2.
Proof.
  destruct (closing_fill_booking Bench.closing_fill TestKit.cheap_long
              TestKit.EURUSD TestKit.after_first_tick)
    as (_ & Hcom & _ & _ & Hopen); [at_fixture ..|].
  destruct Hopen as (Hcap & _); [at_fixture|].
  rewrite Hcap, Hcom. vm_compute. split; reflexivity.
Defined.

(** A fill against a flat position fails and leaves the engine alone. *)
Lemma adjust_account_failure_is_atomic_witness :
  snd (adjust_account Bench.closing_fill Bench.flat_position
         TestKit.after_first_tick)
  = TestKit.after_first_tick.
Proof.
  refine (proj1 (adjust_account_failure_is_atomic Bench.closing_fill
                   Bench.flat_position TestKit.after_first_tick ValueError _)).
  vm_compute. reflexivity.
Defined.

(** The working BUY STOP is submitted again. *)
Lemma duplicate_submission_raises_witness :
  fst (submit_order 5 (TestKit.submit TestKit.buy_stop) TestKit.working_state)
  = Raise ValueError.
Proof.
  rewrite (duplicate_submission_raises 5 (TestKit.submit TestKit.buy_stop)
             TestKit.working_state) by at_fixture.
  reflexivity.
Defined.

(** An order of 60,000,000 is rejected for its size before any tick. *)
Lemma size_is_checked_first_witness :
  fst (submit_order 5 (TestKit.submit Bench.oversized)
         (TestKit.engine false []))
  = Ok tt
  /\ _working_orders
       (snd (submit_order 5 (TestKit.submit Bench.oversized)
               (TestKit.engine false [])))
     = [].
Proof.
  destruct (size_is_checked_first 5 (TestKit.submit Bench.oversized)
              TestKit.EURUSD (TestKit.engine false []))
    as (Hok & _ & Hw & _); [at_fixture ..|].
  rewrite Hok, Hw. split; reflexivity.
Defined.

(** The MARKET BUY fills at the ask of 1.1002. *)
Lemma market_order_fills_at_touch_witness :
  TestKit.fill_prices "E-1"
    (events (snd (submit_order 1 (TestKit.submit TestKit.market_buy)
                    TestKit.after_first_tick)))
  = [11002].
Proof.
  destruct (market_order_fills_at_touch 0 (TestKit.submit TestKit.market_buy)
              TestKit.EURUSD (TestKit.tick 11000 11002 1000) 1
              TestKit.after_first_tick)
    as (_ & Hev & _); [at_fixture ..|].
  rewrite Hev. vm_compute. reflexivity.
Defined.

(** The OCO check for the stop-loss while the bracket is pending rejects
    the take-profit. *)
Lemma latent_partner_is_rejected_witness :
  oco_rejection_in
    (events (snd (_check_oco_order "SL-1" Bench.pending_bracket)))
    "TP-1" "SL-1".
Proof.
  destruct (latent_partner_is_rejected "SL-1" "TP-1" TestKit.take_profit
              TestKit.take_profit "E-1"
              [TestKit.stop_loss; TestKit.take_profit] Bench.pending_bracket)
    as (_ & Hrej & _); [at_fixture ..|].
  exact Hrej.
Defined.
